(** * skillMetrics: the history-recording protocol of the server

    A shallow embedding of [server/storage.ts] (class [DatabaseStorage]) and
    of the profile and skill handlers of [server/routes.ts], over the tables
    of [shared/schema.ts].

    Conventions of the embedding.
    - A table is the list of its rows, oldest first; a [serial] column reads
      a per-table sequence kept next to the table.
    - [new Date()] and the [defaultNow()] column default both read the clock.
      The clock is an oracle [clock : nat -> Z] (milliseconds); the n-th
      reading made by the server is [clock n].
    - A storage method is a computation [M A]: it takes the world and gives
      back a value or a thrown error together with the world it leaves
      behind. Nothing is rolled back when a method throws.
    - Every statement that writes a table is also appended to [writes], the
      log of the writes in the order they were sent.
    - Failures of the connection itself are outside the model: a read always
      answers, and a write is rejected only by a column constraint.
    - A string is the sequence of its UTF-8 bytes. The database refuses a
      text with a NUL character, and a number is sent as its [toString()],
      which is its decimal notation only as long as a double holds the
      integer exactly; neither is part of the model. A statement that
      depends on every write of a request going through, or on the text of
      a number, asks for values that are [storable].
    - A table has no order of its own: a [select] without [order by] may
      list an updated row elsewhere than where it was. The model rewrites
      a row in place; the statements about what a request leaves alone do
      not depend on where a row is. *)

From Stdlib Require Import Ascii String.
From stdpp Require Import gmap strings list sorting pretty.

Open Scope Z_scope.

(** ** JavaScript values *)

(** The values a JSON request body holds at a key, and [undefined] for a key
    that is absent. Numbers are the integral ones; objects and arrays are
    not modelled. *)
Inductive jsval : Type :=
  | JUndefined
  | JNull
  | JBool (b : bool)
  | JNum (n : Z)
  | JStr (s : string).

#[global] Instance jsval_eq_dec : EqDecision jsval.
Proof. solve_decision. Defined.

(** [if (v)] *)
Definition truthy (v : jsval) : bool :=
  match v with
  | JUndefined | JNull => false
  | JBool b => b
  | JNum n => negb (n =? 0)
  | JStr s => negb (String.eqb s "")
  end.

(** [a === b] on the values above. *)
Definition strict_eq (a b : jsval) : bool := bool_decide (a = b).

(** [a !== b] *)
Definition strict_ne (a b : jsval) : bool := negb (strict_eq a b).

(** [o[k]] on a plain object. *)
Definition prop (o : gmap string jsval) (k : string) : jsval :=
  default JUndefined (o !! k).

(** A nullable [text] column as the driver hands it to JavaScript. *)
Definition of_text (o : option string) : jsval :=
  match o with
  | Some s => JStr s
  | None => JNull
  end.

(** A JavaScript value as the driver sends it to a [text] column: [null] and
    [undefined] become SQL NULL, anything else its [toString()]. For a
    number that is the decimal notation given here as long as a double holds
    the integer exactly (up to 2^53 - 1 either way). *)
Definition pg_text (v : jsval) : option string :=
  match v with
  | JUndefined | JNull => None
  | JBool true => Some "true"%string
  | JBool false => Some "false"%string
  | JNum n => Some (pretty n)
  | JStr s => Some s
  end.

(** ** Rows of [shared/schema.ts] *)

Record User : Type := mkUser {
  u_id : Z;
  u_email : string;
  u_password : string;
  u_firstName : option string;
  u_lastName : option string;
  u_projectName : option string;
  u_clientName : option string;
  u_role : option string;
  u_location : option string
}.

Record Skill : Type := mkSkill {
  s_id : Z;
  s_userId : Z;
  s_name : string;
  s_level : string;
  s_updatedAt : Z;
  s_certificationUrl : option string
}.

Record SkillHistory : Type := mkSkillHistory {
  sh_id : Z;
  sh_skillId : Z;
  sh_userId : Z;
  sh_name : string;
  sh_level : string;
  sh_updatedAt : Z;
  sh_certificationUrl : option string
}.

Record ProfileHistory : Type := mkProfileHistory {
  ph_id : Z;
  ph_userId : Z;
  ph_field : string;
  ph_previousValue : option string;
  ph_newValue : string;
  ph_updatedAt : Z
}.

#[global] Instance User_eq_dec : EqDecision User.
Proof. solve_decision. Defined.
#[global] Instance Skill_eq_dec : EqDecision Skill.
Proof. solve_decision. Defined.
#[global] Instance SkillHistory_eq_dec : EqDecision SkillHistory.
Proof. solve_decision. Defined.
#[global] Instance ProfileHistory_eq_dec : EqDecision ProfileHistory.
Proof. solve_decision. Defined.

(** [InsertSkill]: a body accepted by [insertSkillSchema]. The optional,
    nullable [certificationUrl] is [None] when the key is absent
    ([undefined]), [Some None] for [null] and [Some (Some url)] otherwise. *)
Record InsertSkill : Type := mkInsertSkill {
  is_userId : Z;
  is_name : string;
  is_level : string;
  is_certificationUrl : option (option string)
}.

(** The object handed to [createSkillHistory]; [updatedAt] is present only
    when the caller supplies it. *)
Record InsertSkillHistory : Type := mkInsertSkillHistory {
  ish_skillId : Z;
  ish_userId : Z;
  ish_name : string;
  ish_level : string;
  ish_certificationUrl : option (option string);
  ish_updatedAt : option Z
}.

(** The object handed to [createProfileHistory]. The two values are whatever
    JavaScript value the caller put there. *)
Record InsertProfileHistory : Type := mkInsertProfileHistory {
  iph_userId : Z;
  iph_field : string;
  iph_previousValue : jsval;
  iph_newValue : jsval;
  iph_updatedAt : option Z
}.

(** [Partial<Skill>], the second argument of [updateSkill]. *)
Record SkillUpdates : Type := mkSkillUpdates {
  su_id : option Z;
  su_userId : option Z;
  su_name : option string;
  su_level : option string;
  su_certificationUrl : option (option string)
}.

(** [currentUser[field as keyof User]] *)
Definition user_prop (u : User) (k : string) : jsval :=
  if decide (k = "id"%string) then JNum (u_id u)
  else if decide (k = "email"%string) then JStr (u_email u)
  else if decide (k = "password"%string) then JStr (u_password u)
  else if decide (k = "firstName"%string) then of_text (u_firstName u)
  else if decide (k = "lastName"%string) then of_text (u_lastName u)
  else if decide (k = "projectName"%string) then of_text (u_projectName u)
  else if decide (k = "clientName"%string) then of_text (u_clientName u)
  else if decide (k = "role"%string) then of_text (u_role u)
  else if decide (k = "location"%string) then of_text (u_location u)
  else JUndefined.

(** ** The world: tables, sequences, clock, write log *)

Inductive Write : Type :=
  | WInsertUser (u : User)
  | WUpdateUser (id : Z)
  | WInsertSkill (s : Skill)
  | WUpdateSkill (id : Z)
  | WInsertSkillHistory (h : SkillHistory)
  | WInsertProfileHistory (h : ProfileHistory).

Record World : Type := mkWorld {
  users : list User;
  skills : list Skill;
  skillHistory : list SkillHistory;
  profileHistory : list ProfileHistory;
  seq_users : Z;
  seq_skills : Z;
  seq_skillHistory : Z;
  seq_profileHistory : Z;
  clock : nat -> Z;
  reads : nat;
  writes : list Write
}.

(** An empty database whose sequences start at 1. *)
Definition empty_world (c : nat -> Z) : World :=
  mkWorld [] [] [] [] 1 1 1 1 c 0%nat [].

(** ** Computations over the world *)

Inductive Result (A : Type) : Type :=
  | Ok (a : A)
  | Throw (e : string).
Arguments Ok {A} a.
Arguments Throw {A} e.

Definition M (A : Type) : Type := World -> Result A * World.

Definition ret {A} (a : A) : M A := fun w => (Ok a, w).

Definition throw {A} (e : string) : M A := fun w => (Throw e, w).

Definition bind {A B} (c : M A) (k : A -> M B) : M B :=
  fun w =>
    match c w with
    | (Ok a, w') => k a w'
    | (Throw e, w') => (Throw e, w')
    end.

Notation "'do' x <- c ;; k" := (bind c (fun x => k))
  (at level 10, x name, c at level 99, k at level 200, only parsing).
Notation "'run' c ;; k" := (bind c (fun _ => k))
  (at level 10, c at level 99, k at level 200, only parsing).

(** [try { c } catch (error) { h }] *)
Definition try_catch {A} (c : M A) (h : string -> M A) : M A :=
  fun w =>
    match c w with
    | (Ok a, w') => (Ok a, w')
    | (Throw e, w') => h e w'
    end.

(** The world after one more reading of the clock. *)
Definition tick (w : World) : World :=
  mkWorld (users w) (skills w) (skillHistory w) (profileHistory w)
          (seq_users w) (seq_skills w) (seq_skillHistory w)
          (seq_profileHistory w) (clock w) (S (reads w)) (writes w).

(** One reading of the clock. *)
Definition now : M Z := fun w => (Ok (clock w (reads w)), tick w).

(** ** Statements sent to the database *)

(** The value of a column with [defaultNow()]: the supplied one, else a
    reading of the clock. *)
Definition default_now (supplied : option Z) : M Z :=
  match supplied with
  | Some t => ret t
  | None => now
  end.

(** The world after a row went into [skills], [skill_history] or
    [profile_history]: the row is appended, the sequence of the table moves
    on, the write is logged. *)
Definition with_skill (row : Skill) (w : World) : World :=
  mkWorld (users w) (skills w ++ [row]) (skillHistory w) (profileHistory w)
          (seq_users w) (seq_skills w + 1) (seq_skillHistory w)
          (seq_profileHistory w) (clock w) (reads w)
          (writes w ++ [WInsertSkill row]).

Definition with_skillHistory (row : SkillHistory) (w : World) : World :=
  mkWorld (users w) (skills w) (skillHistory w ++ [row]) (profileHistory w)
          (seq_users w) (seq_skills w) (seq_skillHistory w + 1)
          (seq_profileHistory w) (clock w) (reads w)
          (writes w ++ [WInsertSkillHistory row]).

Definition with_profileHistory (row : ProfileHistory) (w : World) : World :=
  mkWorld (users w) (skills w) (skillHistory w) (profileHistory w ++ [row])
          (seq_users w) (seq_skills w) (seq_skillHistory w)
          (seq_profileHistory w + 1) (clock w) (reads w)
          (writes w ++ [WInsertProfileHistory row]).

(** The world after an insert into [profile_history] was rejected: the
    sequence has moved on all the same. *)
Definition without_profileHistory_id (w : World) : World :=
  mkWorld (users w) (skills w) (skillHistory w) (profileHistory w)
          (seq_users w) (seq_skills w) (seq_skillHistory w)
          (seq_profileHistory w + 1) (clock w) (reads w) (writes w).

(** [insert into skills ... returning *] *)
Definition insert_skill (mk : Z -> Skill) : M Skill :=
  fun w => (Ok (mk (seq_skills w)), with_skill (mk (seq_skills w)) w).

(** [insert into skill_history ... returning *] *)
Definition insert_skillHistory (mk : Z -> SkillHistory) : M SkillHistory :=
  fun w =>
    (Ok (mk (seq_skillHistory w)), with_skillHistory (mk (seq_skillHistory w)) w).

(** [insert into profile_history ... returning *] *)
Definition insert_profileHistory (mk : Z -> ProfileHistory) : M ProfileHistory :=
  fun w =>
    (Ok (mk (seq_profileHistory w)),
     with_profileHistory (mk (seq_profileHistory w)) w).

(** What [set] does to one column, given the value found under the column's
    key: [undefined] leaves the column alone. [None] is a statement the
    database rejects. *)
Definition col_text (v : jsval) : option string -> option string :=
  match v with
  | JUndefined => fun old => old
  | _ => fun _ => pg_text v
  end.

Definition col_text_notnull (v : jsval) : option (string -> string) :=
  match v with
  | JUndefined => Some (fun old => old)
  | _ => (fun s _ => s) <$> pg_text v
  end.

(** The [serial] key takes a number; any other value is modelled as
    rejected. *)
Definition col_serial (v : jsval) : option (Z -> Z) :=
  match v with
  | JUndefined => Some (fun old => old)
  | JNum n => Some (fun _ => n)
  | _ => None
  end.

Definition user_columns : list string :=
  ["id"; "email"; "password"; "firstName"; "lastName"; "projectName";
   "clientName"; "role"; "location"]%string.

(** [.set({ ...updates })] on [users]: keys that are not columns are
    ignored. *)
Definition set_user (updates : gmap string jsval) : option (User -> User) :=
  match col_serial (prop updates "id"),
        col_text_notnull (prop updates "email"),
        col_text_notnull (prop updates "password") with
  | Some f_id, Some f_email, Some f_password =>
      Some (fun u =>
        mkUser (f_id (u_id u)) (f_email (u_email u)) (f_password (u_password u))
               (col_text (prop updates "firstName") (u_firstName u))
               (col_text (prop updates "lastName") (u_lastName u))
               (col_text (prop updates "projectName") (u_projectName u))
               (col_text (prop updates "clientName") (u_clientName u))
               (col_text (prop updates "role") (u_role u))
               (col_text (prop updates "location") (u_location u)))
  | _, _, _ => None
  end.

(** The world after [update users ... where id = $id] applied [g] to the
    rows it matched. The rows are rewritten in place; where the database
    lists them afterwards is not fixed. *)
Definition with_users_updated (id : Z) (g : User -> User) (w : World) : World :=
  mkWorld ((fun u => if decide (u_id u = id) then g u else u) <$> users w)
          (skills w) (skillHistory w) (profileHistory w)
          (seq_users w) (seq_skills w) (seq_skillHistory w)
          (seq_profileHistory w) (clock w) (reads w)
          (writes w ++ [WUpdateUser id]).

(** [update users set ... where id = $id returning *]. A [set] that names no
    column is an error. *)
Definition update_users (id : Z) (updates : gmap string jsval) : M (list User) :=
  fun w =>
    if forallb (fun c => strict_eq (prop updates c) JUndefined) user_columns
    then (Throw "No values to set"%string, w)
    else
      match set_user updates with
      | None => (Throw "statement rejected"%string, w)
      | Some g =>
          (Ok (g <$> filter (fun u => u_id u = id) (users w)),
           with_users_updated id g w)
      end.

(** [.set({ ...updates, updatedAt: now })] on [skills]. *)
Definition set_skill (updates : SkillUpdates) (t : Z) (s : Skill) : Skill :=
  mkSkill (default (s_id s) (su_id updates))
          (default (s_userId s) (su_userId updates))
          (default (s_name s) (su_name updates))
          (default (s_level s) (su_level updates))
          t
          (default (s_certificationUrl s) (su_certificationUrl updates)).

(** The world after [update skills ... where id = $id] applied [g], the
    rows rewritten in place as for [users]. *)
Definition with_skills_updated (id : Z) (g : Skill -> Skill) (w : World) : World :=
  mkWorld (users w)
          ((fun s => if decide (s_id s = id) then g s else s) <$> skills w)
          (skillHistory w) (profileHistory w)
          (seq_users w) (seq_skills w) (seq_skillHistory w)
          (seq_profileHistory w) (clock w) (reads w)
          (writes w ++ [WUpdateSkill id]).

(** [update skills set ... where id = $id returning *] *)
Definition update_skills (id : Z) (updates : SkillUpdates) (t : Z) : M (list Skill) :=
  fun w =>
    (Ok (set_skill updates t <$> filter (fun s => s_id s = id) (skills w)),
     with_skills_updated id (set_skill updates t) w).

(** ** [DatabaseStorage] ([server/storage.ts]) *)

Definition getUser (id : Z) : M (option User) :=
  fun w => (Ok (head (filter (fun u => u_id u = id) (users w))), w).

Definition getSkillById (id : Z) : M (option Skill) :=
  fun w => (Ok (head (filter (fun s => s_id s = id) (skills w))), w).

Definition createSkillHistory (insertHistory : InsertSkillHistory) : M SkillHistory :=
  do t <- default_now (ish_updatedAt insertHistory) ;;
  insert_skillHistory (fun id =>
    mkSkillHistory id (ish_skillId insertHistory) (ish_userId insertHistory)
                   (ish_name insertHistory) (ish_level insertHistory) t
                   (default None (ish_certificationUrl insertHistory))).

(** [new_value] is [notNull()]: a NULL there is rejected, and the id drawn
    from the sequence for the row is not given back. *)
Definition createProfileHistory (insertHistory : InsertProfileHistory) : M ProfileHistory :=
  match pg_text (iph_newValue insertHistory) with
  | None =>
      fun w => (Throw "null value in column new_value"%string,
                without_profileHistory_id w)
  | Some newValue =>
      do t <- default_now (iph_updatedAt insertHistory) ;;
      insert_profileHistory (fun id =>
        mkProfileHistory id (iph_userId insertHistory) (iph_field insertHistory)
                         (pg_text (iph_previousValue insertHistory)) newValue t)
  end.

Definition fieldsToTrack : list string :=
  ["role"; "projectName"; "clientName"; "location"]%string.

(** The loop of [updateUser] over the fields to track. *)
Fixpoint track_changes (id : Z) (currentUser : User) (updates : gmap string jsval)
    (fields : list string) : M unit :=
  match fields with
  | [] => ret tt
  | field :: rest =>
      run (if strict_ne (prop updates field) JUndefined
              && strict_ne (prop updates field) (user_prop currentUser field)
           then
             do t <- now ;;
             do _ <- createProfileHistory
                       (mkInsertProfileHistory id field
                          (user_prop currentUser field) (prop updates field)
                          (Some t)) ;;
             ret tt
           else ret tt) ;;
      track_changes id currentUser updates rest
  end.

(** The result is the first returned row, [undefined] ([None]) were there
    none. *)
Definition updateUser (id : Z) (updates : gmap string jsval) : M (option User) :=
  do found <- getUser id ;;
  match found with
  | None => throw "User not found"%string
  | Some currentUser =>
      run track_changes id currentUser updates fieldsToTrack ;;
      do rows <- update_users id updates ;;
      ret (head rows)
  end.

Definition createSkill (insertSkill : InsertSkill) : M Skill :=
  do t <- now ;;
  do skill <- insert_skill (fun id =>
      mkSkill id (is_userId insertSkill) (is_name insertSkill)
              (is_level insertSkill) t
              (default None (is_certificationUrl insertSkill))) ;;
  do _ <- createSkillHistory
            (mkInsertSkillHistory (s_id skill) (s_userId skill) (s_name skill)
               (s_level skill) (Some (s_certificationUrl skill)) (Some t)) ;;
  ret skill.

(** [updates.level || currentSkill.level] *)
Definition level_or (level : option string) (current : string) : string :=
  match level with
  | Some l => if String.eqb l "" then current else l
  | None => current
  end.

Definition updateSkill (id : Z) (updates : SkillUpdates) : M (option Skill) :=
  do t <- now ;;
  do found <- getSkillById id ;;
  match found with
  | None => throw "Skill not found"%string
  | Some currentSkill =>
      run (if bool_decide (su_level updates ≠ None
                           ∧ su_level updates ≠ Some (s_level currentSkill))
              || bool_decide (su_certificationUrl updates ≠ None
                              ∧ su_certificationUrl updates
                                  ≠ Some (s_certificationUrl currentSkill))
           then
             do _ <- createSkillHistory
                       (mkInsertSkillHistory id (s_userId currentSkill)
                          (s_name currentSkill)
                          (level_or (su_level updates) (s_level currentSkill))
                          (Some (default (s_certificationUrl currentSkill)
                                         (su_certificationUrl updates)))
                          (Some t)) ;;
             ret tt
           else ret tt) ;;
      do rows <- update_skills id updates t ;;
      ret (head rows)
  end.

(** [order by updated_at desc]: the rows sorted so that no row is followed
    by a later one. The database is free to return rows of equal time in any
    order; the model returns them in the order the sort leaves them. *)
Definition later_first_sh (a b : SkillHistory) : Prop :=
  sh_updatedAt b ≤ sh_updatedAt a.
Definition later_first_ph (a b : ProfileHistory) : Prop :=
  ph_updatedAt b ≤ ph_updatedAt a.

#[global] Instance later_first_sh_dec : RelDecision later_first_sh.
Proof. intros a b. unfold later_first_sh. apply _. Defined.
#[global] Instance later_first_ph_dec : RelDecision later_first_ph.
Proof. intros a b. unfold later_first_ph. apply _. Defined.

Definition getSkillHistoryBySkillId (skillId : Z) : M (list SkillHistory) :=
  fun w =>
    (Ok (merge_sort later_first_sh
           (filter (fun h => sh_skillId h = skillId) (skillHistory w))), w).

Definition getProfileHistoryByUserId (userId : Z) : M (list ProfileHistory) :=
  fun w =>
    (Ok (merge_sort later_first_ph
           (filter (fun h => ph_userId h = userId) (profileHistory w))), w).

(** ** The handlers ([server/routes.ts]) *)

Inductive Payload : Type :=
  | PMessage (message : string)
  | PUser (u : option User)
  | PSkill (s : option Skill)
  | PSkillHistory (l : list SkillHistory)
  | PProfileHistory (l : list ProfileHistory).

(** [res.status(status).json(payload)] *)
Record Response : Type := mkResponse {
  status : Z;
  payload : Payload
}.

(** What [insertSkillSchema.parse(req.body)] makes of the body. *)
Inductive Parsed : Type :=
  | ZodError (message : string)
  | Valid (skillData : InsertSkill).

(** A request as the handlers see it: [auth] is the id of [req.user], [None]
    when [req.isAuthenticated()] is false. The [:id] parameter is taken
    after [parseInt]; an id that is not a number matches no row and no
    requester, as does an integer that no row carries. *)

(** [ensureAuthenticated], followed by the handler's [try]/[catch]: a thrown
    error becomes the handler's 500 answer. *)
Definition ensureAuthenticated (auth : option Z) (failure : string)
    (handler : Z -> M Response) : World -> Response * World :=
  fun w =>
    match auth with
    | None => (mkResponse 401 (PMessage "Unauthorized"), w)
    | Some requester =>
        match handler requester w with
        | (Ok r, w') => (r, w')
        | (Throw _, w') => (mkResponse 500 (PMessage failure), w')
        end
    end.

Definition updatableFields : list string :=
  ["firstName"; "lastName"; "projectName"; "clientName"; "role"; "location"]%string.

Definition is_upper (a : ascii) : bool :=
  (65 <=? nat_of_ascii a)%nat && (nat_of_ascii a <=? 90)%nat.

Definition is_lower (a : ascii) : bool :=
  (97 <=? nat_of_ascii a)%nat && (nat_of_ascii a <=? 122)%nat.

(** [.replace(/([A-Z])/g, ' $1')] *)
Fixpoint space_capitals (s : string) : string :=
  match s with
  | EmptyString => EmptyString
  | String a rest =>
      if is_upper a then String " "%char (String a (space_capitals rest))
      else String a (space_capitals rest)
  end.

(** [.replace(/^./, str => str.toUpperCase())] *)
Definition capitalize (s : string) : string :=
  match s with
  | EmptyString => EmptyString
  | String a rest =>
      String (if is_lower a then ascii_of_nat (nat_of_ascii a - 32) else a) rest
  end.

Definition field_label (field : string) : string :=
  capitalize (space_capitals field).

(** [v || ""] *)
Definition or_empty (v : jsval) : jsval :=
  if truthy v then v else JStr "".

(** The loop over [updatableFields]: which fields changed, and a history
    entry for each. *)
Fixpoint collect_changes (userId : Z) (currentUser : User)
    (body : gmap string jsval) (fields : list string)
    (profileUpdates : gmap string jsval)
    (historyEntries : list InsertProfileHistory)
    : gmap string jsval * list InsertProfileHistory :=
  match fields with
  | [] => (profileUpdates, historyEntries)
  | field :: rest =>
      if truthy (prop body field)
         && strict_ne (prop body field) (user_prop currentUser field)
      then
        collect_changes userId currentUser body rest
          (<[field := prop body field]> profileUpdates)
          (historyEntries ++
             [mkInsertProfileHistory userId (field_label field)
                (or_empty (user_prop currentUser field)) (prop body field)
                None])
      else collect_changes userId currentUser body rest profileUpdates historyEntries
  end.

(** [for (const entry of historyEntries) await storage.createProfileHistory(entry)] *)
Fixpoint create_entries (historyEntries : list InsertProfileHistory) : M unit :=
  match historyEntries with
  | [] => ret tt
  | entry :: rest =>
      do _ <- createProfileHistory entry ;;
      create_entries rest
  end.

(** [PUT /api/users/:id/profile] *)
Definition put_users_profile (auth : option Z) (userId : Z)
    (body : gmap string jsval) : World -> Response * World :=
  ensureAuthenticated auth "Failed to update profile" (fun requester =>
    if negb (requester =? userId)
    then ret (mkResponse 403 (PMessage "Forbidden"))
    else
      do found <- getUser userId ;;
      match found with
      | None => ret (mkResponse 404 (PMessage "User not found"))
      | Some currentUser =>
          let '(profileUpdates, historyEntries) :=
            collect_changes userId currentUser body updatableFields ∅ [] in
          if (0 <? size profileUpdates)%nat
          then
            do updatedUser <- updateUser userId profileUpdates ;;
            run create_entries historyEntries ;;
            ret (mkResponse 200 (PUser updatedUser))
          else ret (mkResponse 200 (PUser (Some currentUser)))
      end).

(** [POST /api/skills] *)
Definition post_skills (auth : option Z) (body : Parsed)
    : World -> Response * World :=
  ensureAuthenticated auth "Failed to create skill" (fun requester =>
    match body with
    | ZodError message => ret (mkResponse 400 (PMessage message))
    | Valid skillData =>
        if negb (is_userId skillData =? requester)
        then ret (mkResponse 403 (PMessage "Forbidden"))
        else
          do skill <- createSkill skillData ;;
          do _ <- createSkillHistory
                    (mkInsertSkillHistory (s_id skill) (is_userId skillData)
                       (is_name skillData) (is_level skillData)
                       (is_certificationUrl skillData) None) ;;
          ret (mkResponse 201 (PSkill (Some skill)))
    end).

(** [skillData] passed where a [Partial<Skill>] is expected. *)
Definition as_updates (skillData : InsertSkill) : SkillUpdates :=
  mkSkillUpdates None (Some (is_userId skillData)) (Some (is_name skillData))
                 (Some (is_level skillData)) (is_certificationUrl skillData).

(** [PUT /api/skills/:id] *)
Definition put_skills (auth : option Z) (skillId : Z) (body : Parsed)
    : World -> Response * World :=
  ensureAuthenticated auth "Failed to update skill" (fun requester =>
    match body with
    | ZodError message => ret (mkResponse 400 (PMessage message))
    | Valid skillData =>
        if negb (is_userId skillData =? requester)
        then ret (mkResponse 403 (PMessage "Forbidden"))
        else
          do found <- getSkillById skillId ;;
          match found with
          | None => ret (mkResponse 404 (PMessage "Skill not found"))
          | Some existingSkill =>
              if negb (s_userId existingSkill =? requester)
              then ret (mkResponse 403 (PMessage "Forbidden"))
              else
                run (if negb (String.eqb (s_level existingSkill) (is_level skillData))
                        || bool_decide (Some (s_certificationUrl existingSkill)
                                        ≠ is_certificationUrl skillData)
                     then
                       do _ <- createSkillHistory
                                 (mkInsertSkillHistory skillId (is_userId skillData)
                                    (is_name skillData) (is_level skillData)
                                    (is_certificationUrl skillData) None) ;;
                       ret tt
                     else ret tt) ;;
                do updatedSkill <- updateSkill skillId (as_updates skillData) ;;
                ret (mkResponse 200 (PSkill updatedSkill))
          end
    end).

(** [GET /api/skills/:id/history] *)
Definition get_skills_history (auth : option Z) (skillId : Z)
    : World -> Response * World :=
  ensureAuthenticated auth "Failed to fetch skill history" (fun requester =>
    do found <- getSkillById skillId ;;
    match found with
    | None => ret (mkResponse 404 (PMessage "Skill not found"))
    | Some skill =>
        if negb (s_userId skill =? requester)
        then ret (mkResponse 403 (PMessage "Forbidden"))
        else
          do history <- getSkillHistoryBySkillId skillId ;;
          ret (mkResponse 200 (PSkillHistory history))
    end).

(** [GET /api/profile-history] *)
Definition get_profile_history (auth : option Z) : World -> Response * World :=
  ensureAuthenticated auth "Failed to fetch profile history" (fun requester =>
    do history <- getProfileHistoryByUserId requester ;;
    ret (mkResponse 200 (PProfileHistory history))).

(** * The rest of the server *)

(** The remaining methods of [DatabaseStorage], the reading handlers of
    [server/routes.ts], registration, login and password reset of
    [server/auth.ts], the accounts created at startup, and the two charts of
    the admin dashboard. [bcrypt] and [Math.random] are not computed here: a
    handler takes the hash and the numbers drawn as arguments, and the login
    handler takes [bcrypt.compare] as a parameter. The mails handed to
    [sendTemporaryPasswordEmail] are part of what a handler gives back. *)

(** ** [DatabaseStorage]: users and skill listings *)

(** [InsertUser]: what [insertUserSchema] accepts. Only [email] is required;
    an optional column is [None] when the key is absent, [Some None] for
    [null]. *)
Record InsertUser : Type := mkInsertUser {
  iu_email : string;
  iu_password : option string;
  iu_firstName : option (option string);
  iu_lastName : option (option string);
  iu_projectName : option (option string);
  iu_clientName : option (option string);
  iu_role : option (option string);
  iu_location : option (option string)
}.

(** The world after a row went into [users]. *)
Definition with_user (row : User) (w : World) : World :=
  mkWorld (users w ++ [row]) (skills w) (skillHistory w) (profileHistory w)
          (seq_users w + 1) (seq_skills w) (seq_skillHistory w)
          (seq_profileHistory w) (clock w) (reads w)
          (writes w ++ [WInsertUser row]).

Definition getUsers : M (list User) :=
  fun w => (Ok (users w), w).

Definition getUserByEmail (email : string) : M (option User) :=
  fun w => (Ok (head (filter (fun u => u_email u = email) (users w))), w).

(** The world after an insert into [users] was rejected: the id drawn from
    the sequence for the row is not given back. *)
Definition without_user_id (w : World) : World :=
  mkWorld (users w) (skills w) (skillHistory w) (profileHistory w)
          (seq_users w + 1) (seq_skills w) (seq_skillHistory w)
          (seq_profileHistory w) (clock w) (reads w) (writes w).

(** [insert into users ... returning *]. [password] is [notNull()] and
    [email] is [unique()]: a row without password, or with an email some row
    already carries, is rejected. *)
Definition createUser (insertUser : InsertUser) : M User :=
  fun w =>
    match iu_password insertUser with
    | None => (Throw "null value in column password"%string, without_user_id w)
    | Some password =>
        if bool_decide (iu_email insertUser ∈ u_email <$> users w)
        then (Throw "duplicate key value violates unique constraint"%string,
              without_user_id w)
        else
          let row :=
            mkUser (seq_users w) (iu_email insertUser) password
                   (default None (iu_firstName insertUser))
                   (default None (iu_lastName insertUser))
                   (default None (iu_projectName insertUser))
                   (default None (iu_clientName insertUser))
                   (default None (iu_role insertUser))
                   (default None (iu_location insertUser)) in
          (Ok row, with_user row w)
    end.

Definition getSkills : M (list Skill) :=
  fun w => (Ok (skills w), w).

Definition getSkillsByUserId (userId : Z) : M (list Skill) :=
  fun w => (Ok (filter (fun s => s_userId s = userId) (skills w)), w).

(** ** The reading handlers of [server/routes.ts] *)

(** [GET /api/suggestions] answers with five lists. *)
Record Suggestions : Type := mkSuggestions {
  sg_projects : list string;
  sg_clients : list string;
  sg_roles : list string;
  sg_locations : list string;
  sg_skills : list string
}.

Inductive Body : Type :=
  | BMessage (message : string)
  | BUser (u : User)
  | BUsers (l : list User)
  | BSkills (l : list Skill)
  | BSuggestions (s : Suggestions).

(** [res.status(status).json(body)] of the handlers below. *)
Record Reply : Type := mkReply {
  r_status : Z;
  r_body : Body
}.

(** A handler's [try]/[catch]: a thrown error becomes the 500 answer. *)
Definition answer (failure : string) (handler : M Reply)
    : World -> Reply * World :=
  fun w =>
    match handler w with
    | (Ok r, w') => (r, w')
    | (Throw _, w') => (mkReply 500 (BMessage failure), w')
    end.

(** [ensureAuthenticated] in front of such a handler. *)
Definition authenticated (auth : option Z) (failure : string)
    (handler : Z -> M Reply) : World -> Reply * World :=
  fun w =>
    match auth with
    | None => (mkReply 401 (BMessage "Unauthorized"), w)
    | Some requester => answer failure (handler requester) w
    end.

(** [ensureAdmin]: [user] is [req.user], [None] when the request is not
    authenticated. *)
Definition ensureAdmin (user : option User) (failure : string)
    (handler : M Reply) : World -> Reply * World :=
  fun w =>
    match user with
    | Some u =>
        if String.eqb (u_email u) "admin@example.com"
        then answer failure handler w
        else (mkReply 403 (BMessage "Forbidden - Admin access required"), w)
    | None => (mkReply 403 (BMessage "Forbidden - Admin access required"), w)
    end.

(** [GET /api/users] *)
Definition get_users (user : option User) : World -> Reply * World :=
  ensureAdmin user "Failed to fetch users"
    (do l <- getUsers ;; ret (mkReply 200 (BUsers l))).

(** [GET /api/skills] *)
Definition get_skills (auth : option Z) : World -> Reply * World :=
  authenticated auth "Failed to fetch skills" (fun requester =>
    do l <- getSkillsByUserId requester ;; ret (mkReply 200 (BSkills l))).

(** [GET /api/all-skills] *)
Definition get_all_skills (user : option User) : World -> Reply * World :=
  ensureAdmin user "Failed to fetch all skills"
    (do l <- getSkills ;; ret (mkReply 200 (BSkills l))).

(** [[...new Set(values)]]: the values in the order of their first
    occurrence. *)
Definition unique (values : list string) : list string :=
  foldl (fun seen v => if decide (v ∈ seen) then seen else seen ++ [v]) []
        values.

(** [.filter(Boolean)] on the values of a nullable text column: null and
    the empty string go. *)
Definition filter_Boolean (values : list (option string)) : list string :=
  omap (fun v => match v with
                 | Some s => if String.eqb s "" then None else Some s
                 | None => None
                 end) values.

(** [GET /api/suggestions] *)
Definition get_suggestions (auth : option Z) : World -> Reply * World :=
  authenticated auth "Failed to fetch suggestions" (fun _ =>
    do allSkills <- getSkills ;;
    do allUsers <- getUsers ;;
    ret (mkReply 200 (BSuggestions
      (mkSuggestions
         (unique (filter_Boolean (u_projectName <$> allUsers)))
         (unique (filter_Boolean (u_clientName <$> allUsers)))
         (unique (filter_Boolean (u_role <$> allUsers)))
         (unique (filter_Boolean (u_location <$> allUsers)))
         (unique (s_name <$> allSkills)))))).

(** ** [server/auth.ts] *)

Definition chars : string :=
  "ABCDEFGHIJKLMNOPQRSTUVWXYZabcdefghijklmnopqrstuvwxyz0123456789".

(** [s.charAt(i)]: the empty string when [i] is out of range. *)
Definition charAt (s : string) (i : nat) : string :=
  match String.get i s with
  | Some c => String c EmptyString
  | None => EmptyString
  end.

(** [generateTemporaryPassword(length)]. The loop draws one random number
    per character; [rolls] holds the values of
    [Math.floor(Math.random() * chars.length)] in the order drawn, so its
    length is [length]. *)
Definition generateTemporaryPassword (rolls : list nat) : string :=
  foldl (fun password roll => password +:+ charAt chars roll) EmptyString rolls.

(** [passport.deserializeUser]: the user a session's id stands for. *)
Definition deserializeUser (id : Z) : M (option User) := getUser id.

(** [req.user] for a session that holds [session]. *)
Definition req_user (session : option Z) (w : World) : option User :=
  match session with
  | Some id =>
      match deserializeUser id w with
      | (Ok found, _) => found
      | (Throw _, _) => None
      end
  | None => None
  end.

(** What [insertUserSchema.parse(req.body)] makes of the body. *)
Inductive ParsedUser : Type :=
  | UserZodError (message : string)
  | ValidUser (userData : InsertUser).

(** A message handed to [sendTemporaryPasswordEmail]. *)
Record Mail : Type := mkMail {
  m_to : jsval;
  m_tempPassword : string
}.

(** What the handlers of [auth.ts] do besides writing the store: the answer,
    the mails handed over, and the user [req.login] put into the session. *)
Record Outcome : Type := mkOutcome {
  o_reply : Reply;
  o_mails : list Mail;
  o_login : option User
}.

(** [next(error)]: the framework's answer to an error passed on. *)
Definition passed_on : Outcome :=
  mkOutcome (mkReply 500 (BMessage "Internal Server Error")) [] None.

Definition outcome (handler : M Outcome) : World -> Outcome * World :=
  fun w =>
    match handler w with
    | (Ok o, w') => (o, w')
    | (Throw _, w') => (passed_on, w')
    end.

(** [value || null] on an optional, nullable string. *)
Definition or_null (value : option (option string)) : option string :=
  match value with
  | Some (Some s) => if String.eqb s "" then None else Some s
  | _ => None
  end.

(** [POST /api/register]. [rolls] are the random numbers drawn for the
    temporary password and [hashedPassword] is what [bcrypt.hash] returned
    for it. *)
Definition post_register (body : ParsedUser) (rolls : list nat)
    (hashedPassword : string) : World -> Outcome * World :=
  outcome
    match body with
    | UserZodError message =>
        ret (mkOutcome (mkReply 400 (BMessage message)) [] None)
    | ValidUser userData =>
        do existingUser <- getUserByEmail (iu_email userData) ;;
        match existingUser with
        | Some _ =>
            ret (mkOutcome (mkReply 400 (BMessage "Email already in use"))
                           [] None)
        | None =>
            let temporaryPassword := generateTemporaryPassword rolls in
            do user <- createUser
                         (mkInsertUser (iu_email userData) (Some hashedPassword)
                            (Some (or_null (iu_firstName userData)))
                            (Some (or_null (iu_lastName userData)))
                            (Some (or_null (iu_projectName userData)))
                            (Some (or_null (iu_clientName userData)))
                            (Some (or_null (iu_role userData)))
                            (Some (or_null (iu_location userData)))) ;;
            ret (mkOutcome (mkReply 201 (BUser user))
                           [mkMail (JStr (iu_email userData)) temporaryPassword]
                           (Some user))
        end
    end.

Definition reset_message : string :=
  "If your email is registered, you will receive password reset instructions".

(** The text the driver sends for a value that is not null. *)
Definition as_text (v : jsval) : string := default EmptyString (pg_text v).

(** [POST /api/forgot-password] *)
Definition post_forgot_password (body : gmap string jsval) (rolls : list nat)
    (hashedPassword : string) : World -> Outcome * World :=
  outcome
    (let email := prop body "email" in
     if negb (truthy email)
     then ret (mkOutcome (mkReply 400 (BMessage "Email is required")) [] None)
     else
       do user <- getUserByEmail (as_text email) ;;
       match user with
       | None => ret (mkOutcome (mkReply 200 (BMessage reset_message)) [] None)
       | Some u =>
           let temporaryPassword := generateTemporaryPassword rolls in
           do _ <- updateUser (u_id u)
                     {[ "password"%string := JStr hashedPassword ]} ;;
           ret (mkOutcome (mkReply 200 (BMessage reset_message))
                          [mkMail email temporaryPassword] None)
       end).

(** What [loginUserSchema.parse(req.body)] makes of the body: an error, or
    the email and the password of a body the schema lets through, see
    [parse_login]. *)
Inductive ParsedLogin : Type :=
  | LoginZodError (message : string)
  | ValidLogin (email password : string).

(** [s.length], the number of UTF-16 code units of a text, counted on its
    UTF-8 bytes: one for every byte that starts a character, and one more
    where the character takes four bytes. *)
Definition js_length (s : string) : nat :=
  let bytes := nat_of_ascii <$> list_ascii_of_string s in
  (length (filter (fun b => b < 128 ∨ 192 ≤ b)%nat bytes)
   + length (filter (fun b => 240 ≤ b)%nat bytes))%nat.

Section login.

(** [bcrypt.compare(supplied, stored)] *)
Variable comparePasswords : string -> string -> bool.

(** The test of [z.string().email()], and the message [fromZodError] makes
    for a body the schema refuses. *)
Variable is_email : string -> bool.
Variable zod_message : gmap string jsval -> string.

(** [loginUserSchema.parse(req.body)]: [email] is a string in email format
    and [password] a string of six characters or more. *)
Definition parse_login (body : gmap string jsval) : ParsedLogin :=
  match prop body "email", prop body "password" with
  | JStr email, JStr password =>
      if is_email email && (6 <=? js_length password)%nat
      then ValidLogin email password
      else LoginZodError (zod_message body)
  | _, _ => LoginZodError (zod_message body)
  end.

(** The verify function of the [LocalStrategy]: the user, or [false]
    ([None]). *)
Definition verify (email password : string) : M (option User) :=
  do user <- getUserByEmail email ;;
  ret match user with
      | Some u => if comparePasswords password (u_password u) then Some u
                  else None
      | None => None
      end.

(** [POST /api/login] *)
Definition post_login (body : ParsedLogin) : World -> Outcome * World :=
  outcome
    match body with
    | LoginZodError message =>
        ret (mkOutcome (mkReply 400 (BMessage message)) [] None)
    | ValidLogin email password =>
        do user <- verify email password ;;
        match user with
        | None =>
            ret (mkOutcome
                   (mkReply 401 (BMessage "Invalid email or password"))
                   [] None)
        | Some u => ret (mkOutcome (mkReply 200 (BUser u)) [] (Some u))
        end
    end.

End login.

(** ** The server as a whole *)

(** The requests that can change the store. A request comes with the
    session it carries; [rolls] and [hashedPassword] are as above. *)
Inductive Request : Type :=
  | PutUsersProfile (id : Z) (body : gmap string jsval)
  | PostSkills (body : Parsed)
  | PutSkills (id : Z) (body : Parsed)
  | PostRegister (body : ParsedUser) (rolls : list nat) (hashedPassword : string)
  | PostForgotPassword (body : gmap string jsval) (rolls : list nat)
                       (hashedPassword : string).

(** The world after the server handled a request. *)
Definition step (w : World) (request : option Z * Request) : World :=
  let auth := u_id <$> req_user request.1 w in
  match request.2 with
  | PutUsersProfile id body => (put_users_profile auth id body w).2
  | PostSkills body => (post_skills auth body w).2
  | PutSkills id body => (put_skills auth id body w).2
  | PostRegister body rolls hashedPassword =>
      (post_register body rolls hashedPassword w).2
  | PostForgotPassword body rolls hashedPassword =>
      (post_forgot_password body rolls hashedPassword w).2
  end.

(** The world after a sequence of requests, handled one after the other. *)
Definition serve (requests : list (option Z * Request)) (w : World) : World :=
  foldl step w requests.

(** ** The admin dashboard ([client/src/pages/admin-dashboard.tsx]) *)

(** [SKILL_LEVELS] of [shared/schema.ts]. *)
Definition SKILL_LEVELS : list string :=
  ["Beginner"; "Intermediate"; "Expert"]%string.

(** [skillLevelData]: one bar for each level, with the number of skills at
    that level. [allSkills] is [None] while the query has no data. *)
Definition skillLevelData (allSkills : option (list Skill))
    : list (string * nat) :=
  match allSkills with
  | None => []
  | Some l =>
      (fun level => (level, length (filter (fun skill => s_level skill = level) l)))
        <$> SKILL_LEVELS
  end.

(** The step of the reduction in [projectData]: the first entry of that name
    is counted up, and a new entry is pushed when there is none. *)
Fixpoint count_project (name : string) (acc : list (string * Z))
    : list (string * Z) :=
  match acc with
  | [] => [(name, 1)]
  | p :: rest =>
      if decide (p.1 = name) then (p.1, p.2 + 1) :: rest
      else p :: count_project name rest
  end.

(** [projectData]: one slice for each project, with the number of users on
    it; users without a project are skipped. *)
Definition projectData (allUsers : option (list User)) : list (string * Z) :=
  match allUsers with
  | None => []
  | Some l =>
      foldl (fun acc user =>
               match u_projectName user with
               | None => acc
               | Some name =>
                   if String.eqb name "" then acc else count_project name acc
               end) [] l
  end.

(** ** The accounts [DatabaseStorage] creates at startup *)

(** [initializeAdminUser]. [hashedPassword] is what [bcrypt.hash] returned for
    the initial password. The constructor starts this and
    [initializeDemoUser] without awaiting them; each is modelled running
    alone. *)
Definition initializeAdminUser (hashedPassword : string) : M unit :=
  try_catch
    (do adminExists <- getUserByEmail "admin@example.com" ;;
     match adminExists with
     | Some _ => ret tt
     | None =>
         do _ <- createUser
                   (mkInsertUser "admin@example.com" (Some hashedPassword)
                      (Some (Some "Admin"%string)) (Some (Some "User"%string))
                      (Some None) (Some None) (Some (Some "admin"%string))
                      (Some None)) ;;
         ret tt
     end)
    (fun _ => ret tt).

(** [initializeDemoUser]. Each sample skill is built with
    [updatedAt: new Date()], one more reading of the clock before
    [createSkill] reads it again and uses its own value. The created user is
    a row, so [if (demoUser)] holds. *)
Definition initializeDemoUser (hashedPassword : string) : M unit :=
  try_catch
    (do demoExists <- getUserByEmail "demo@example.com" ;;
     match demoExists with
     | Some _ => ret tt
     | None =>
         do demoUser <- createUser
                          (mkInsertUser "demo@example.com" (Some hashedPassword)
                             (Some (Some "Demo"%string))
                             (Some (Some "User"%string))
                             (Some (Some "Cloud Migration"%string))
                             (Some (Some "Acme Corp"%string))
                             (Some (Some "Software Engineer"%string))
                             (Some (Some "New York, NY"%string))) ;;
         run now ;;
         run createSkill
               (mkInsertSkill (u_id demoUser) "JavaScript" "Expert"
                              (Some None)) ;;
         run now ;;
         run createSkill
               (mkInsertSkill (u_id demoUser) "TypeScript" "Intermediate"
                  (Some (Some
                     "https://credentials.example.com/typescript/123"%string))) ;;
         run now ;;
         run createSkill
               (mkInsertSkill (u_id demoUser) "React" "Beginner" (Some None)) ;;
         ret tt
     end)
    (fun _ => ret tt).

(** * The vocabulary of the statements *)

(** The handler's test on a field: the body holds a truthy value that is not
    strictly equal to the stored one. *)
Definition changed (currentUser : User) (body : gmap string jsval)
    (field : string) : bool :=
  truthy (prop body field)
  && strict_ne (prop body field) (user_prop currentUser field).

(** The test of [updateUser] on a field: the update holds a value, and it
    is not strictly equal to the stored one. *)
Definition tracked (currentUser : User) (updates : gmap string jsval)
    (field : string) : bool :=
  strict_ne (prop updates field) JUndefined
  && strict_ne (prop updates field) (user_prop currentUser field).

(** The entry the handler pushes for a field. *)
Definition entry_of (userId : Z) (currentUser : User)
    (body : gmap string jsval) (field : string) : InsertProfileHistory :=
  mkInsertProfileHistory userId (field_label field)
    (or_empty (user_prop currentUser field)) (prop body field) None.

(** The object the handler builds from the fields it found changed. *)
Definition updates_of (body : gmap string jsval) (fields : list string)
    (start : gmap string jsval) : gmap string jsval :=
  foldl (fun m f => <[f := prop body f]> m) start fields.

(** A row written by [updateUser] for a field. *)
Definition store_row (id : Z) (currentUser : User)
    (updates : gmap string jsval) (field : string) (r : ProfileHistory) : Prop :=
  ph_userId r = id ∧ ph_field r = field
  ∧ ph_previousValue r = pg_text (user_prop currentUser field)
  ∧ pg_text (prop updates field) = Some (ph_newValue r).

(** A row written for one of the handler's entries. *)
Definition entry_row (e : InsertProfileHistory) (r : ProfileHistory) : Prop :=
  ph_userId r = iph_userId e ∧ ph_field r = iph_field e
  ∧ ph_previousValue r = pg_text (iph_previousValue e)
  ∧ pg_text (iph_newValue e) = Some (ph_newValue r).

(** The world after [rows] were inserted into [profile_history], with [n]
    readings of the clock. *)
Definition add_profile_rows (rows : list ProfileHistory) (n : nat)
    (w : World) : World :=
  mkWorld (users w) (skills w) (skillHistory w) (profileHistory w ++ rows)
          (seq_users w) (seq_skills w) (seq_skillHistory w)
          (seq_profileHistory w + Z.of_nat (length rows)) (clock w)
          (n + reads w)%nat
          (writes w ++ (WInsertProfileHistory <$> rows)).

(** [profileUpdates] as the handler's loop leaves it. *)
Definition profile_updates (cu : User) (body : gmap string jsval)
    : gmap string jsval :=
  updates_of body (filter (λ f, changed cu body f) updatableFields) ∅.

(** What the handler's update does to a row: the three identifying columns
    stay, each of the six others takes the body's value where the handler
    found it changed. *)
Definition apply_profile (cu : User) (body : gmap string jsval) (u : User) : User :=
  let upd := profile_updates cu body in
  mkUser (u_id u) (u_email u) (u_password u)
         (col_text (prop upd "firstName") (u_firstName u))
         (col_text (prop upd "lastName") (u_lastName u))
         (col_text (prop upd "projectName") (u_projectName u))
         (col_text (prop upd "clientName") (u_clientName u))
         (col_text (prop upd "role") (u_role u))
         (col_text (prop upd "location") (u_location u)).

(** The columns [PUT /api/users/:id/profile] must leave alone. *)
Definition identity_columns (u : User) : Z * string * string :=
  (u_id u, u_email u, u_password u).

(** The columns whose changes [updateUser] tracks. *)
Definition tracked_columns (u : User)
    : option string * option string * option string * option string :=
  (u_role u, u_projectName u, u_clientName u, u_location u).

(** In a log of writes, every insert into [profile_history] comes before
    every update of [users]. *)
Definition history_before_update (log : list Write) : Prop :=
  ∀ i j h id,
    log !! i = Some (WInsertProfileHistory h) →
    log !! j = Some (WUpdateUser id) →
    (i < j)%nat.

(** The rows of [profile_history] that [w'] has and [w] had not. *)
Definition new_profile_rows (w w' : World) : list ProfileHistory :=
  drop (length (profileHistory w)) (profileHistory w').

(** The row [createSkillHistory] makes of its argument at time [t]. *)
Definition history_row (h : InsertSkillHistory) (id t : Z) : SkillHistory :=
  mkSkillHistory id (ish_skillId h) (ish_userId h) (ish_name h) (ish_level h)
                 t (default None (ish_certificationUrl h)).

(** The test of [updateSkill]: does the update call for a history row? *)
Definition calls_for_history (updates : SkillUpdates) (currentSkill : Skill)
    : bool :=
  bool_decide (su_level updates ≠ None
               ∧ su_level updates ≠ Some (s_level currentSkill))
  || bool_decide (su_certificationUrl updates ≠ None
                  ∧ su_certificationUrl updates
                      ≠ Some (s_certificationUrl currentSkill)).

(** Each time in the list is strictly greater than the next one. *)
Definition strictly_descending (times : list Z) : Prop :=
  ∀ i a b, times !! i = Some a → times !! S i = Some b → b < a.

(** The answer to a request on somebody else's behalf. *)
Definition forbidden : Response := mkResponse 403 (PMessage "Forbidden").

(** A text the database stores: one without the NUL character. *)
Definition storable_text (s : string) : bool :=
  forallb (fun c => negb (Ascii.eqb c "000"%char)) (list_ascii_of_string s).

(** A body value that the driver sends as [pg_text] says and that the
    database stores: a text without NUL, and a number only when a double
    holds it exactly, so that its [toString()] is its decimal notation. *)
Definition storable (v : jsval) : bool :=
  match v with
  | JStr s => storable_text s
  | JNum n => (-9007199254740991 <=? n) && (n <=? 9007199254740991)
  | _ => true
  end.

(** The texts of a parsed skill are storable. *)
Definition storable_skill (skillData : InsertSkill) : bool :=
  storable_text (is_name skillData) && storable_text (is_level skillData)
  && match is_certificationUrl skillData with
     | Some (Some url) => storable_text url
     | _ => true
     end.

(** The two updatable fields whose changes only the handler records. *)
Definition nameFields : list string := ["firstName"; "lastName"]%string.

(** ** The vocabulary of the further properties *)

(** The statuses with which a handler turns a request down. *)
Definition refusals : list Z := [400; 401; 403; 404].

(** The world after [rows] went into [profile_history], with [n] readings
    of the clock and the sequence of the table standing at [next]. *)
Definition after_profile_rows (rows : list ProfileHistory) (n : nat)
    (next : Z) (w : World) : World :=
  mkWorld (users w) (skills w) (skillHistory w) (profileHistory w ++ rows)
          (seq_users w) (seq_skills w) (seq_skillHistory w) next (clock w)
          (n + reads w)%nat
          (writes w ++ (WInsertProfileHistory <$> rows)).

(** [w'] is [w] after rows for user [id] went into [profile_history]. Their
    ids are distinct values the sequence gave out meanwhile; it may have
    given out more, for inserts that were rejected. *)
Definition profile_rows_added (id : Z) (w w' : World) : Prop :=
  ∃ rows n next,
    w' = after_profile_rows rows n next w
    ∧ NoDup (ph_id <$> rows)
    ∧ Forall (λ h, seq_profileHistory w ≤ ph_id h < next) rows
    ∧ seq_profileHistory w ≤ next
    ∧ Forall (λ h, ph_userId h = id) rows.

(** A user row with another password. *)
Definition set_password (password : string) (u : User) : User :=
  mkUser (u_id u) (u_email u) password (u_firstName u) (u_lastName u)
         (u_projectName u) (u_clientName u) (u_role u) (u_location u).

(** The row [POST /api/register] inserts. *)
Definition registered (w : World) (userData : InsertUser)
    (hashedPassword : string) : User :=
  mkUser (seq_users w) (iu_email userData) hashedPassword
         (or_null (iu_firstName userData)) (or_null (iu_lastName userData))
         (or_null (iu_projectName userData)) (or_null (iu_clientName userData))
         (or_null (iu_role userData)) (or_null (iu_location userData)).

(** The ids of a table are distinct and were all given out by its sequence
    already. *)
Definition ids_below (ids : list Z) (next : Z) : Prop :=
  NoDup ids ∧ Forall (λ i, i < next) ids.

Definition serial_ids (w : World) : Prop :=
  ids_below (u_id <$> users w) (seq_users w)
  ∧ ids_below (s_id <$> skills w) (seq_skills w)
  ∧ ids_below (sh_id <$> skillHistory w) (seq_skillHistory w)
  ∧ ids_below (ph_id <$> profileHistory w) (seq_profileHistory w).

(** No two users share an email. *)
Definition unique_emails (w : World) : Prop :=
  NoDup (u_email <$> users w).

(** Every skill belongs to a user there is, every skill history row to a
    skill there is and to its owner, every profile history row to a user
    there is. *)
Definition references (w : World) : Prop :=
  Forall (λ s, ∃ u, u ∈ users w ∧ u_id u = s_userId s) (skills w)
  ∧ Forall (λ h, ∃ s, s ∈ skills w ∧ s_id s = sh_skillId h
                      ∧ s_userId s = sh_userId h) (skillHistory w)
  ∧ Forall (λ h, ∃ u, u ∈ users w ∧ u_id u = ph_userId h) (profileHistory w).

(** The ids of the users, and the (id, owner) pairs of the skills. *)
Definition user_ids (w : World) : list Z := u_id <$> users w.
Definition skill_keys (w : World) : list (Z * Z) :=
  (fun s => (s_id s, s_userId s)) <$> skills w.

(** A body value that is a string, null or absent. *)
Definition plain (v : jsval) : Prop :=
  match v with
  | JUndefined | JNull | JStr _ => True
  | JBool _ | JNum _ => False
  end.

(** What a session stands for: the id and the email of its user. *)
Definition account (u : User) : Z * string := (u_id u, u_email u).

(** [value] is a non-empty value some user has in [column]. *)
Definition in_column (column : User → option string) (w : World)
    (value : string) : Prop :=
  value ≠ EmptyString ∧ ∃ u, u ∈ users w ∧ column u = Some value.

(** A user row with the password blanked: all the other columns. *)
Definition without_password (u : User) : User := set_password EmptyString u.

(** The count the chart shows for [name]. *)
Fixpoint shown (name : string) (data : list (string * Z)) : Z :=
  match data with
  | [] => 0
  | p :: rest => (if decide (p.1 = name) then p.2 else 0) + shown name rest
  end.

(** The number of users on project [name]. *)
Definition on_project (name : string) (l : list User) : Z :=
  Z.of_nat (length (filter (fun u => u_projectName u = Some name) l)).

(** History row [h] records skill [s] as it is. *)
Definition records (s : Skill) (h : SkillHistory) : Prop :=
  sh_skillId h = s_id s ∧ sh_userId h = s_userId s ∧ sh_name h = s_name s
  ∧ sh_level h = s_level s ∧ sh_updatedAt h = s_updatedAt s
  ∧ sh_certificationUrl h = s_certificationUrl s.

(** The world after [createSkill] inserted the skill and its first history
    row. *)
Definition with_created_skill (insertSkill : InsertSkill) (w : World) : World :=
  let skill :=
    mkSkill (seq_skills w) (is_userId insertSkill) (is_name insertSkill)
            (is_level insertSkill) (clock w (reads w))
            (default None (is_certificationUrl insertSkill)) in
  with_skillHistory
    (mkSkillHistory (seq_skillHistory w) (s_id skill) (s_userId skill)
       (s_name skill) (s_level skill) (clock w (reads w))
       (s_certificationUrl skill))
    (with_skill skill (tick w)).

(** The body of a login request. *)
Definition login_body (email password : string) : gmap string jsval :=
  {[ "email"%string := JStr email; "password"%string := JStr password ]}.

(** The three properties of the store together. *)
Definition consistent (w : World) : Prop :=
  serial_ids w ∧ unique_emails w ∧ references w.

(** * Worlds and requests used as instances *)

(** A registered user whose project, client, role and location are still
    null, alone in the database. *)
Definition demo_user : User :=
  mkUser 1 "demo@example.com" "secret" (Some "Demo") (Some "User")
         None None None None.

Definition demo_world (c : nat -> Z) : World :=
  mkWorld [demo_user] [] [] [] 2 1 1 1 c 0%nat [].

(** A clock that advances by one millisecond at every reading, and one that
    is read twice in every millisecond. *)
Definition ticking : nat -> Z := fun n => 1000 + Z.of_nat n.
Definition coarse : nat -> Z := fun n => 1000 + Z.of_nat (Nat.div2 n).

Definition role_engineer : gmap string jsval :=
  {[ "role"%string := JStr "Engineer" ]}.

Definition role_and_project : gmap string jsval :=
  {[ "role"%string := JStr "Engineer"; "projectName"%string := JStr "Apollo" ]}.

Definition rename_ann : gmap string jsval :=
  {[ "firstName"%string := JStr "Ann" ]}.

Definition same_first_name : gmap string jsval :=
  {[ "firstName"%string := JStr "Demo" ]}.

Definition role_empty : gmap string jsval :=
  {[ "role"%string := JStr "" ]}.

Definition go_beginner : InsertSkill := mkInsertSkill 1 "Go" "Beginner" None.

(** The world once the demo user has recorded "Go" at level Beginner. *)
Definition go_world : World :=
  (post_skills (Some 1) (Valid go_beginner) (demo_world ticking)).2.

Definition go_expert : InsertSkill :=
  mkInsertSkill 1 "Go" "Expert" (Some (Some "https://x/y"%string)).

Definition go_for_user_2 : InsertSkill := mkInsertSkill 2 "Go" "Expert" None.

Definition golang_beginner : InsertSkill :=
  mkInsertSkill 1 "Golang" "Beginner" (Some None).

(** The same renaming by a body that has no [certificationUrl] key. *)
Definition golang_no_url : InsertSkill :=
  mkInsertSkill 1 "Golang" "Beginner" None.

Definition ann_engineer : gmap string jsval :=
  {[ "role"%string := JStr "Engineer"; "firstName"%string := JStr "Ann" ]}.

(** A registration under a new address, and one under the demo user's. *)
Definition ann : InsertUser :=
  mkInsertUser "ann@example.com" None (Some (Some "Ann"%string)) None None
               None (Some (Some ""%string)) None.

Definition demo_again : InsertUser :=
  mkInsertUser "demo@example.com" None None None None None None None.

Definition forgot_demo : gmap string jsval :=
  {[ "email"%string := JStr "demo@example.com" ]}.

(** A user with a location, alone in the database, and an update that sets
    the role and takes the location away. *)
Definition oslo : User :=
  mkUser 1 "demo@example.com" "secret" (Some "Demo") (Some "User")
         None None None (Some "Oslo").

Definition oslo_world : World :=
  mkWorld [oslo] [] [] [] 2 1 1 1 ticking 0%nat [].

Definition lead_nowhere : gmap string jsval :=
  {[ "role"%string := JStr "Lead"; "location"%string := JNull ]}.

(** A morning of requests. *)
Definition demo_requests : list (option Z * Request) :=
  [ (Some 1, PutUsersProfile 1 role_engineer);
    (Some 1, PostSkills (Valid go_beginner));
    (Some 1, PutSkills 1 (Valid go_expert));
    (None, PostRegister (ValidUser ann) [0; 27; 61]%nat "$2b$10$hash");
    (Some 2, PostSkills (Valid go_for_user_2));
    (None, PostForgotPassword forgot_demo [3; 4; 5]%nat "$2b$10$other");
    (Some 2, PutUsersProfile 1 rename_ann) ].

(** A stand-in for [bcrypt]: the hash of a password is the password after
    a prefix. *)
Definition prefixed (supplied stored : string) : bool :=
  String.eqb ("$2b$10$" +:+ supplied) stored.

(** Stand-ins for the email test and for the message of a refused body. *)
Definition has_at (email : string) : bool :=
  bool_decide ("@"%char ∈ list_ascii_of_string email).

Definition refused (body : gmap string jsval) : string := "Validation error".

(** Ten numbers drawn, and the temporary password they give. *)
Definition ten_rolls : list nat := [0; 27; 61; 25; 26; 51; 52; 9; 35; 60]%nat.

(** The world after the demo user asked for a new password. *)
Definition reset_world : World :=
  (post_forgot_password forgot_demo ten_rolls "$2b$10$Ab9Zaz0Jj8"
     (demo_world ticking)).2.

(** * Properties *)

(** One goal for each field of the list that [H] says the field is in. *)
Ltac each_field H :=
  unfold updatableFields, fieldsToTrack in H;
  repeat (apply elem_of_cons in H as [->|H]);
  [.. | by apply elem_of_nil in H].

(** A field named in the goal is in the list. *)
Ltac is_field :=
  unfold updatableFields, fieldsToTrack; rewrite !elem_of_cons; auto 10.

(** ** Values *)

Lemma strict_ne_true a b : strict_ne a b = true ↔ a ≠ b.
Proof.
  unfold strict_ne, strict_eq. rewrite negb_true_iff, bool_decide_eq_false.
  done.
Qed.

Lemma truthy_pg_text v : truthy v = true → is_Some (pg_text v).
Proof. destruct v as [| |[]| |]; simpl; eauto; discriminate. Qed.

Lemma truthy_defined v : truthy v = true → v ≠ JUndefined.
Proof. by destruct v. Qed.

Lemma changed_spec cu body f :
  changed cu body f = true
  ↔ truthy (prop body f) = true ∧ prop body f ≠ user_prop cu f.
Proof. unfold changed. by rewrite andb_true_iff, strict_ne_true. Qed.

Lemma tracked_spec cu updates f :
  tracked cu updates f = true
  ↔ prop updates f ≠ JUndefined ∧ prop updates f ≠ user_prop cu f.
Proof. unfold tracked. by rewrite andb_true_iff, !strict_ne_true. Qed.

(** ** Lists *)

Section lists.
Context {A B : Type}.

Lemma filter_ext_elem (P Q : A → Prop) `{!∀ x, Decision (P x)}
    `{!∀ x, Decision (Q x)} (l : list A) :
  (∀ x, x ∈ l → P x ↔ Q x) → filter P l = filter Q l.
Proof.
  induction l as [|a l IH]; intros Hiff; [done |].
  rewrite !filter_cons.
  assert (filter P l = filter Q l) as ->.
  { apply IH. intros x Hx. apply Hiff. by right. }
  destruct (decide (P a)) as [HP|HP], (decide (Q a)) as [HQ|HQ];
    try done; exfalso; [apply HQ | apply HP]; by apply (Hiff a); [left |].
Qed.

Lemma Forall2_impl_elem (P Q : A → B → Prop) l k :
  Forall2 P l k → (∀ x y, x ∈ l → P x y → Q x y) → Forall2 Q l k.
Proof.
  induction 1 as [|x y l k Hxy Hlk IH]; intros Himp; constructor.
  - apply Himp; [by left | done].
  - apply IH. intros x' y' Hx'. apply Himp. by right.
Qed.

Lemma Forall2_elem_of_r (P : A → B → Prop) l k y :
  Forall2 P l k → y ∈ k → ∃ x, x ∈ l ∧ P x y.
Proof.
  induction 1 as [|x y' l k Hxy _ IH]; intros Hy.
  - by apply elem_of_nil in Hy.
  - apply elem_of_cons in Hy as [->|Hy].
    + exists x. split; [by left | done].
    + destruct (IH Hy) as (x' & Hx' & HP). exists x'. split; [by right | done].
Qed.

Lemma Forall2_elem_of_l (P : A → B → Prop) l k x :
  Forall2 P l k → x ∈ l → ∃ y, y ∈ k ∧ P x y.
Proof.
  induction 1 as [|x' y l k Hxy _ IH]; intros Hx.
  - by apply elem_of_nil in Hx.
  - apply elem_of_cons in Hx as [->|Hx].
    + exists y. split; [by left | done].
    + destruct (IH Hx) as (y' & Hy' & HP). exists y'. split; [by right | done].
Qed.

Lemma head_fmap_Some (g : A → B) (l : list A) (a : A) :
  head l = Some a → head (g <$> l) = Some (g a).
Proof. destruct l; intros; by simplify_eq/=. Qed.

Lemma filter_nil_incl (P : A → Prop) `{!∀ x, Decision (P x)}
    (l1 l2 : list A) :
  (∀ x, x ∈ l1 → x ∈ l2) → filter P l2 = [] → filter P l1 = [].
Proof.
  intros Hincl Hnil. destruct (filter P l1) as [|x rest] eqn:Hl1; [done |].
  assert (x ∈ filter P l1) as [HP Hx]%list_elem_of_filter
    by (rewrite Hl1; by left).
  assert (x ∈ filter P l2) as Hin by (apply list_elem_of_filter; auto).
  rewrite Hnil in Hin. by apply elem_of_nil in Hin.
Qed.

Lemma filter_nil_Forall (P : A → Prop) `{!∀ x, Decision (P x)}
    (l : list A) :
  Forall (λ x, ¬ P x) l → filter P l = [].
Proof.
  induction 1 as [|x l Hx _ IH]; [done |].
  by rewrite filter_cons_False.
Qed.

End lists.

(** ** The loops *)

Lemma add_profile_rows_nil w : add_profile_rows [] 0 w = w.
Proof.
  destruct w. unfold add_profile_rows. simpl.
  by rewrite !app_nil_r, Z.add_0_r.
Qed.

Lemma add_profile_rows_app rows1 n1 rows2 n2 w :
  add_profile_rows rows2 n2 (add_profile_rows rows1 n1 w)
  = add_profile_rows (rows1 ++ rows2) (n2 + n1) w.
Proof.
  unfold add_profile_rows. simpl.
  rewrite fmap_app, length_app, Nat2Z.inj_add, <- !app_assoc.
  f_equal; lia.
Qed.

Lemma collect_changes_run userId cu body fields :
  ∀ profileUpdates historyEntries,
    collect_changes userId cu body fields profileUpdates historyEntries
    = (updates_of body (filter (λ f, changed cu body f) fields) profileUpdates,
       historyEntries
         ++ (entry_of userId cu body <$> filter (λ f, changed cu body f) fields)).
Proof.
  induction fields as [|f fields IH]; intros pu he; simpl.
  - by rewrite app_nil_r.
  - fold (changed cu body f). rewrite filter_cons.
    destruct (changed cu body f) eqn:Hc; simpl.
    + rewrite IH. simpl. by rewrite <- app_assoc.
    + apply IH.
Qed.

Lemma prop_updates_of body fields : ∀ start f,
  prop (updates_of body fields start) f
  = if decide (f ∈ fields) then prop body f else prop start f.
Proof.
  induction fields as [|g fields IH]; intros start f.
  - case_decide as Hin; [by apply elem_of_nil in Hin | done].
  - change (updates_of body (g :: fields) start)
      with (updates_of body fields (<[g := prop body g]> start)).
    rewrite IH. destruct (decide (f ∈ fields)) as [Hin|Hin].
    + rewrite decide_True; [done | by right].
    + unfold prop at 1. destruct (decide (g = f)) as [->|Hne].
      * rewrite lookup_insert_eq. simpl.
        rewrite decide_True; [done | by left].
      * rewrite lookup_insert_ne by done.
        rewrite decide_False; [done |].
        intros [Heq|?]%elem_of_cons; congruence.
Qed.

Lemma size_updates_of body fields : ∀ start,
  (0 <? size (updates_of body fields start))%nat
  = negb (bool_decide (fields = [])) || (0 <? size start)%nat.
Proof.
  induction fields as [|g fields IH]; intros start.
  - by rewrite bool_decide_eq_true_2.
  - change (updates_of body (g :: fields) start)
      with (updates_of body fields (<[g := prop body g]> start)).
    rewrite IH, (bool_decide_eq_false_2 (g :: fields = [])) by done.
    assert (0 < size (<[g:=prop body g]> start))%nat as Hpos.
    { destruct (start !! g) eqn:Hg.
      - assert (size (<[g:=prop body g]> start) ≠ 0%nat); [|lia].
        intros Hs%map_size_empty_inv.
        by apply insert_non_empty in Hs.
      - rewrite map_size_insert_None by done. lia. }
    apply Nat.ltb_lt in Hpos. rewrite Hpos. by rewrite orb_true_r.
Qed.

Lemma track_changes_run id cu updates fields : ∀ w,
  (∀ f, f ∈ fields → tracked cu updates f = true →
        is_Some (pg_text (prop updates f))) →
  ∃ rows,
    track_changes id cu updates fields w
    = (Ok tt, add_profile_rows rows (length rows) w)
    ∧ Forall2 (store_row id cu updates)
              (filter (λ f, tracked cu updates f) fields) rows.
Proof.
  induction fields as [|f fields IH]; intros w Hnn; simpl.
  - exists []. by rewrite add_profile_rows_nil.
  - fold (tracked cu updates f). rewrite filter_cons.
    destruct (tracked cu updates f) eqn:Ht.
    + destruct (Hnn f) as [nv Hnv]; [by left | done |].
      simpl.
      set (row := mkProfileHistory (seq_profileHistory w) id f
                    (pg_text (user_prop cu f)) nv (clock w (reads w))).
      destruct (IH (add_profile_rows [row] 1 w)) as (rows & Hrun & Hrows).
      { intros g Hg. apply Hnn. by right. }
      exists (row :: rows). split.
      * unfold bind at 1. unfold bind at 1. unfold now at 1.
        unfold createProfileHistory, bind, default_now. simpl.
        rewrite Hnv. unfold ret, insert_profileHistory. simpl.
        fold row.
        change (with_profileHistory row (tick w))
          with (add_profile_rows [row] 1 w).
        rewrite Hrun, add_profile_rows_app. simpl.
        by rewrite Nat.add_1_r.
      * constructor; [|done]. by repeat split.
    + simpl. apply IH. intros g Hg. apply Hnn. by right.
Qed.

Lemma create_entries_run entries : ∀ w,
  Forall (λ e, is_Some (pg_text (iph_newValue e)) ∧ iph_updatedAt e = None)
         entries →
  ∃ rows,
    create_entries entries w = (Ok tt, add_profile_rows rows (length rows) w)
    ∧ Forall2 entry_row entries rows.
Proof.
  induction entries as [|e entries IH]; intros w Hall; simpl.
  - exists []. by rewrite add_profile_rows_nil.
  - apply Forall_cons in Hall as [[[nv Hnv] Hat] Hall].
    set (row := mkProfileHistory (seq_profileHistory w) (iph_userId e)
                  (iph_field e) (pg_text (iph_previousValue e)) nv
                  (clock w (reads w))).
    destruct (IH (add_profile_rows [row] 1 w) Hall) as (rows & Hrun & Hrows).
    exists (row :: rows). split.
    + unfold bind at 1. unfold createProfileHistory.
      rewrite Hnv, Hat. unfold bind, default_now, now, insert_profileHistory.
      simpl. fold row.
      change (with_profileHistory row (tick w))
        with (add_profile_rows [row] 1 w).
      rewrite Hrun, add_profile_rows_app. simpl.
      by rewrite Nat.add_1_r.
    + constructor; [|done]. by repeat split.
Qed.

(** ** The object the handler hands to [updateUser] *)

Lemma prop_profile_updates cu body f :
  prop (profile_updates cu body) f
  = if decide (f ∈ updatableFields)
    then (if changed cu body f then prop body f else JUndefined)
    else JUndefined.
Proof.
  unfold profile_updates. rewrite prop_updates_of.
  destruct (decide (f ∈ updatableFields)) as [Hin|Hin].
  - destruct (changed cu body f) eqn:Hc.
    + rewrite decide_True; [done |]. apply list_elem_of_filter.
      split; [by rewrite Hc | done].
    + rewrite decide_False; [done |]. intros [Hc' _]%list_elem_of_filter.
      by rewrite Hc in Hc'.
  - rewrite decide_False; [done |]. by intros [_ ?]%list_elem_of_filter.
Qed.

Lemma tracked_profile_updates cu body f :
  f ∈ updatableFields →
  tracked cu (profile_updates cu body) f = changed cu body f.
Proof.
  intros Hin. unfold tracked. rewrite prop_profile_updates.
  rewrite decide_True by done.
  destruct (changed cu body f) eqn:Hc; [|done].
  apply changed_spec in Hc as [Ht Hne].
  apply andb_true_iff. split; apply strict_ne_true; [|done].
  by apply truthy_defined.
Qed.

Lemma fieldsToTrack_updatable f : f ∈ fieldsToTrack → f ∈ updatableFields.
Proof.
  intros Hf. each_field Hf; is_field.
Qed.

Lemma set_user_profile_updates cu body :
  set_user (profile_updates cu body) = Some (apply_profile cu body).
Proof.
  unfold set_user, apply_profile.
  rewrite !(prop_profile_updates cu body "id"),
          !(prop_profile_updates cu body "email"),
          !(prop_profile_updates cu body "password").
  done.
Qed.

Lemma profile_updates_names_a_column cu body :
  filter (λ f, changed cu body f) updatableFields ≠ [] →
  forallb (fun c => strict_eq (prop (profile_updates cu body) c) JUndefined)
          user_columns = false.
Proof.
  intros Hne. apply not_true_iff_false. intros Hall.
  rewrite forallb_forall in Hall.
  destruct (filter (λ f, changed cu body f) updatableFields)
    as [|f rest] eqn:Hch; [done |].
  assert (f ∈ filter (λ f, changed cu body f) updatableFields) as Hf
    by (rewrite Hch; by left).
  apply list_elem_of_filter in Hf as [Hc Hin].
  apply Is_true_true in Hc.
  assert (In f user_columns) as Hcol.
  { each_field Hin; simpl; auto 10. }
  specialize (Hall f Hcol). unfold strict_eq in Hall.
  apply bool_decide_eq_true in Hall.
  rewrite prop_profile_updates, decide_True, Hc in Hall by done.
  apply changed_spec in Hc as [Ht _]. by apply truthy_defined in Ht.
Qed.

(** ** One run of [PUT /api/users/:id/profile] by the owner *)

Lemma put_users_profile_unchanged w id body cu :
  head (filter (λ u, u_id u = id) (users w)) = Some cu →
  filter (λ f, changed cu body f) updatableFields = [] →
  put_users_profile (Some id) id body w
  = (mkResponse 200 (PUser (Some cu)), w).
Proof.
  intros Hcu Hch. unfold put_users_profile, ensureAuthenticated.
  rewrite Z.eqb_refl. cbn [negb].
  unfold bind at 1. unfold getUser at 1. rewrite Hcu.
  rewrite collect_changes_run, size_updates_of, Hch. done.
Qed.

(** [updateUser] on a user that exists, with an update the database
    accepts. *)
Lemma updateUser_run w id updates cu g :
  head (filter (λ u, u_id u = id) (users w)) = Some cu →
  (∀ f, f ∈ fieldsToTrack → tracked cu updates f = true →
        is_Some (pg_text (prop updates f))) →
  forallb (fun c => strict_eq (prop updates c) JUndefined) user_columns = false →
  set_user updates = Some g →
  ∃ srows,
    updateUser id updates w
    = (Ok (Some (g cu)),
       with_users_updated id g (add_profile_rows srows (length srows) w))
    ∧ Forall2 (store_row id cu updates)
              (filter (λ f, tracked cu updates f) fieldsToTrack) srows.
Proof.
  intros Hcu Hnn Hcols Hset.
  destruct (track_changes_run id cu updates fieldsToTrack w Hnn)
    as (srows & Hrun & Hrows).
  exists srows. split; [|done].
  unfold updateUser. unfold bind at 1. unfold getUser at 1. rewrite Hcu.
  unfold bind at 1. rewrite Hrun.
  unfold bind, update_users. rewrite Hcols, Hset. unfold ret.
  f_equal. f_equal. simpl users.
  destruct (filter (λ u, u_id u = id) (users w)); by simplify_eq/=.
Qed.

Lemma put_users_profile_changed w id body cu :
  head (filter (λ u, u_id u = id) (users w)) = Some cu →
  filter (λ f, changed cu body f) updatableFields ≠ [] →
  ∃ srows rrows,
    put_users_profile (Some id) id body w
    = (mkResponse 200 (PUser (Some (apply_profile cu body cu))),
       add_profile_rows rrows (length rrows)
         (with_users_updated id (apply_profile cu body)
            (add_profile_rows srows (length srows) w)))
    ∧ Forall2 (store_row id cu body)
              (filter (λ f, changed cu body f) fieldsToTrack) srows
    ∧ Forall2 entry_row
              (entry_of id cu body
                 <$> filter (λ f, changed cu body f) updatableFields) rrows.
Proof.
  intros Hcu Hch. unfold put_users_profile, ensureAuthenticated.
  rewrite Z.eqb_refl. cbn [negb].
  unfold bind at 1. unfold getUser at 1. rewrite Hcu.
  rewrite collect_changes_run, size_updates_of.
  rewrite (bool_decide_eq_false_2 _ Hch). cbn [negb orb].
  fold (profile_updates cu body). simpl app.
  destruct (updateUser_run w id (profile_updates cu body) cu
              (apply_profile cu body) Hcu) as (srows & Hupd & Hsrows).
  { intros f Hf. rewrite tracked_profile_updates
      by by apply fieldsToTrack_updatable.
    intros Hc. rewrite prop_profile_updates, decide_True, Hc
      by by apply fieldsToTrack_updatable.
    apply changed_spec in Hc as [Ht _]. by apply truthy_pg_text. }
  { by apply profile_updates_names_a_column. }
  { apply set_user_profile_updates. }
  destruct (create_entries_run
              (entry_of id cu body
                 <$> filter (λ f, changed cu body f) updatableFields)
              (with_users_updated id (apply_profile cu body)
                 (add_profile_rows srows (length srows) w)))
    as (rrows & Hent & Hrrows).
  { apply Forall_fmap, Forall_forall. intros f [Hc _]%list_elem_of_filter.
    apply Is_true_true, changed_spec in Hc as [Ht _].
    split; [by apply truthy_pg_text | done]. }
  exists srows, rrows. split; [|split; [|done]].
  - unfold bind at 1. rewrite Hupd. unfold bind at 1. rewrite Hent. done.
  - rewrite (filter_ext_elem _ (λ f, tracked cu (profile_updates cu body) f)).
    + eapply Forall2_impl_elem; [exact Hsrows |].
      intros f r [Ht Hf]%list_elem_of_filter (Hid & Hfield & Hprev & Hnew).
      apply fieldsToTrack_updatable in Hf.
      rewrite tracked_profile_updates in Ht by done.
      apply Is_true_true in Ht.
      rewrite prop_profile_updates, decide_True, Ht in Hnew by done.
      by repeat split.
    + intros f Hf. rewrite tracked_profile_updates; [done |].
      by apply fieldsToTrack_updatable.
Qed.

Lemma apply_profile_unchanged cu body u :
  filter (λ f, changed cu body f) updatableFields = [] →
  apply_profile cu body u = u.
Proof.
  intros Hch. unfold apply_profile, profile_updates. rewrite Hch.
  by destruct u.
Qed.

(** Both cases at once: what the owner's request leaves behind. *)
Lemma put_users_profile_owner w id body cu :
  head (filter (λ u, u_id u = id) (users w)) = Some cu →
  ∃ srows rrows w',
    put_users_profile (Some id) id body w
    = (mkResponse 200 (PUser (Some (apply_profile cu body cu))), w')
    ∧ users w'
      = (fun u => if decide (u_id u = id) then apply_profile cu body u else u)
          <$> users w
    ∧ skills w' = skills w
    ∧ skillHistory w' = skillHistory w
    ∧ profileHistory w' = profileHistory w ++ srows ++ rrows
    ∧ writes w'
      = writes w ++ (WInsertProfileHistory <$> srows)
          ++ (if decide (filter (λ f, changed cu body f) updatableFields = [])
              then [] else [WUpdateUser id])
          ++ (WInsertProfileHistory <$> rrows)
    ∧ Forall2 (store_row id cu body)
              (filter (λ f, changed cu body f) fieldsToTrack) srows
    ∧ Forall2 entry_row
              (entry_of id cu body
                 <$> filter (λ f, changed cu body f) updatableFields) rrows.
Proof.
  intros Hcu.
  destruct (decide (filter (λ f, changed cu body f) updatableFields = []))
    as [Hch|Hch].
  - exists [], [], w.
    rewrite (put_users_profile_unchanged w id body cu Hcu Hch).
    rewrite (apply_profile_unchanged cu body cu Hch), Hch.
    repeat split; simpl; rewrite ?app_nil_r; try done.
    + rewrite <- (list_fmap_id (users w)) at 1. apply list_fmap_ext.
      intros i u _. case_decide; [|done].
      by rewrite apply_profile_unchanged.
    + assert (filter (λ f, changed cu body f) fieldsToTrack = []) as ->;
        [|constructor].
      eapply filter_nil_incl; [apply fieldsToTrack_updatable | done].
  - destruct (put_users_profile_changed w id body cu Hcu Hch)
      as (srows & rrows & Hrun & Hs & Hr).
    eexists srows, rrows, _. split; [exact Hrun |].
    repeat split; simpl; rewrite ?fmap_app, <- ?app_assoc; done.
Qed.

Lemma put_users_profile_unauthenticated id body w :
  put_users_profile None id body w
  = (mkResponse 401 (PMessage "Unauthorized"), w).
Proof. done. Qed.

Lemma put_users_profile_forbidden requester id body w :
  requester ≠ id →
  put_users_profile (Some requester) id body w
  = (mkResponse 403 (PMessage "Forbidden"), w).
Proof.
  intros Hne. unfold put_users_profile, ensureAuthenticated.
  apply Z.eqb_neq in Hne. by rewrite Hne.
Qed.

Lemma put_users_profile_not_found id body w :
  head (filter (λ u, u_id u = id) (users w)) = None →
  put_users_profile (Some id) id body w
  = (mkResponse 404 (PMessage "User not found"), w).
Proof.
  intros Hnone. unfold put_users_profile, ensureAuthenticated.
  rewrite Z.eqb_refl. cbn [negb].
  unfold bind at 1. unfold getUser at 1. by rewrite Hnone.
Qed.

(** C10: whatever the request (any requester, any id, any body, extra keys
    included), [PUT /api/users/:id/profile] leaves the id, the email and the
    password of every row of [users] as they were. *)
Theorem profile_update_keeps_identity_columns
    (auth : option Z) (id : Z) (body : gmap string jsval) (w : World) :
  identity_columns <$> users (put_users_profile auth id body w).2
  = identity_columns <$> users w.
Proof.
  destruct auth as [requester|];
    [|by rewrite put_users_profile_unauthenticated].
  destruct (decide (requester = id)) as [->|Hne];
    [|by rewrite put_users_profile_forbidden].
  destruct (head (filter (λ u, u_id u = id) (users w))) as [cu|] eqn:Hcu;
    [|by rewrite put_users_profile_not_found].
  destruct (put_users_profile_owner w id body cu Hcu)
    as (srows & rrows & w' & -> & Husers & _).
  simpl. rewrite Husers, <- list_fmap_compose.
  apply list_fmap_ext. intros i u _. simpl. by case_decide.
Qed.

(** The update behind C10 is not idle: [updateUser] itself does overwrite the
    email when the object it is given has that key; it is the handler that
    never passes it on. *)
Example updateUser_can_change_email :
  users (updateUser 1 {[ "email"%string := JStr "x@example.com" ]}
           (demo_world ticking)).2
  = [mkUser 1 "x@example.com" "secret" (Some "Demo") (Some "User")
            None None None None].
Proof. vm_compute. reflexivity. Qed.

Example profile_update_ignores_extra_keys :
  users (put_users_profile (Some 1) 1
           {[ "email"%string := JStr "x@example.com";
              "id"%string := JNum 7;
              "password"%string := JStr "pw";
              "location"%string := JStr "Oslo" ]}
           (demo_world ticking)).2
  = [mkUser 1 "demo@example.com" "secret" (Some "Demo") (Some "User")
            None None None (Some "Oslo")].
Proof. vm_compute. reflexivity. Qed.

(** ** Profile updates: how many rows, and when *)

Lemma changed_tracked_le_updatable cu body :
  (length (filter (λ f, changed cu body f) fieldsToTrack)
   ≤ length (filter (λ f, changed cu body f) updatableFields))%nat.
Proof.
  unfold fieldsToTrack, updatableFields. rewrite !filter_cons, !filter_nil.
  destruct (changed cu body "firstName"), (changed cu body "lastName"),
    (changed cu body "projectName"), (changed cu body "clientName"),
    (changed cu body "role"), (changed cu body "location"); simpl; lia.
Qed.

(** C1 (the code does otherwise): a profile update by the owner inserts one
    row from [updateUser] for every changed tracked field, and then one more
    row from the handler for every changed updatable field, tracked ones
    included. A request that changes k tracked fields therefore inserts at
    least 2k rows; the handler's rows carry the label of the field and the
    empty string where the stored value was null. *)
Theorem profile_update_history_rows
    (w : World) (id : Z) (body : gmap string jsval) (cu : User) :
  head (filter (λ u, u_id u = id) (users w)) = Some cu →
  ∃ srows rrows,
    profileHistory (put_users_profile (Some id) id body w).2
    = profileHistory w ++ srows ++ rrows
    ∧ Forall2 (store_row id cu body)
              (filter (λ f, changed cu body f) fieldsToTrack) srows
    ∧ Forall2 entry_row
              (entry_of id cu body
                 <$> filter (λ f, changed cu body f) updatableFields) rrows
    ∧ (length (filter (λ f, changed cu body f) fieldsToTrack)
       ≤ length rrows)%nat.
Proof.
  intros Hcu.
  destruct (put_users_profile_owner w id body cu Hcu)
    as (srows & rrows & w' & -> & _ & _ & _ & Hph & _ & Hs & Hr).
  exists srows, rrows. repeat split; try done.
  apply Forall2_length in Hr. rewrite <- Hr, length_fmap.
  apply changed_tracked_le_updatable.
Qed.

(** The request of the spec's scenario: role is null, the body sets it to
    "Engineer". One changed field, two rows. *)
Example profile_update_role_twice :
  profileHistory
    (put_users_profile (Some 1) 1 role_engineer (demo_world ticking)).2
  = [mkProfileHistory 1 1 "role" None "Engineer" 1000;
     mkProfileHistory 2 1 "Role" (Some "") "Engineer" 1001].
Proof. vm_compute. reflexivity. Qed.

Lemma profile_update_history_rows_witness :
  head (filter (λ u, u_id u = 1) (users (demo_world ticking)))
  = Some demo_user
  ∧ ∃ srows rrows,
      profileHistory
        (put_users_profile (Some 1) 1 role_engineer (demo_world ticking)).2
      = profileHistory (demo_world ticking) ++ srows ++ rrows
      ∧ Forall2 (store_row 1 demo_user role_engineer)
                (filter (λ f, changed demo_user role_engineer f) fieldsToTrack)
                srows
      ∧ Forall2 entry_row
                (entry_of 1 demo_user role_engineer
                   <$> filter (λ f, changed demo_user role_engineer f)
                         updatableFields) rrows
      ∧ (length (filter (λ f, changed demo_user role_engineer f) fieldsToTrack)
         ≤ length rrows)%nat.
Proof.
  split; [reflexivity |].
  apply (profile_update_history_rows (demo_world ticking) 1 role_engineer
           demo_user).
  reflexivity.
Defined.

(** C4 as stated fails: only the handler records a change of the first name,
    and it writes that row after the update of the user row. *)
Lemma name_history_after_update :
  ¬ history_before_update
      (writes (put_users_profile (Some 1) 1 rename_ann
                 (demo_world ticking)).2).
Proof.
  assert (writes (put_users_profile (Some 1) 1 rename_ann
                    (demo_world ticking)).2
          = [WUpdateUser 1;
             WInsertProfileHistory
               (mkProfileHistory 1 1 "First Name" (Some "Demo") "Ann" 1000)])
    as -> by (vm_compute; reflexivity).
  intros Hbefore.
  specialize (Hbefore 1%nat 0%nat _ _ eq_refl eq_refl). lia.
Qed.

(** C4 (amended): in a profile update that changes something, with values
    the database stores, the rows [updateUser] writes, one for each changed
    tracked field, are all sent before the one update of the user row; the
    row the handler records for a changed first or last name is sent after
    it. *)
Theorem profile_update_write_order
    (w : World) (id : Z) (body : gmap string jsval) (cu : User) :
  head (filter (λ u, u_id u = id) (users w)) = Some cu →
  filter (λ f, changed cu body f) updatableFields ≠ [] →
  (∀ f, f ∈ updatableFields → storable (prop body f) = true) →
  ∃ srows rest,
    writes (put_users_profile (Some id) id body w).2
    = writes w ++ (WInsertProfileHistory <$> srows) ++ WUpdateUser id :: rest
    ∧ Forall2 (store_row id cu body)
              (filter (λ f, changed cu body f) fieldsToTrack) srows
    ∧ Forall (λ sent, ∃ h, sent = WInsertProfileHistory h) rest
    ∧ ∀ f, f ∈ nameFields → changed cu body f = true →
           ∃ h, WInsertProfileHistory h ∈ rest
                ∧ entry_row (entry_of id cu body f) h.
Proof.
  intros Hcu Hch _.
  destruct (put_users_profile_owner w id body cu Hcu)
    as (srows & rrows & w' & -> & _ & _ & _ & _ & Hwrites & Hs & Hr).
  exists srows, (WInsertProfileHistory <$> rrows).
  rewrite decide_False in Hwrites by done.
  split; [exact Hwrites |]. split; [exact Hs |]. split.
  - apply Forall_fmap, Forall_forall. intros h _. by exists h.
  - intros f Hf Hc. rewrite Forall2_fmap_l in Hr.
    destruct (Forall2_elem_of_l _ _ _ f Hr) as (h & Hh & Hrow).
    + apply list_elem_of_filter. split; [by rewrite Hc |].
      unfold nameFields in Hf. unfold updatableFields.
      rewrite !elem_of_cons in Hf. rewrite !elem_of_cons.
      destruct Hf as [->|[->|[]%elem_of_nil]]; auto.
    + exists h. split; [|exact Hrow].
      apply list_elem_of_fmap. by exists h.
Qed.

Lemma profile_update_write_order_witness :
  (head (filter (λ u, u_id u = 1) (users (demo_world ticking)))
   = Some demo_user
   ∧ filter (λ f, changed demo_user ann_engineer f) updatableFields ≠ []
   ∧ ∀ f, f ∈ updatableFields → storable (prop ann_engineer f) = true)
  ∧ ∃ srows rest,
      writes (put_users_profile (Some 1) 1 ann_engineer
                (demo_world ticking)).2
      = writes (demo_world ticking) ++ (WInsertProfileHistory <$> srows)
          ++ WUpdateUser 1 :: rest
      ∧ Forall2 (store_row 1 demo_user ann_engineer)
                (filter (λ f, changed demo_user ann_engineer f) fieldsToTrack)
                srows
      ∧ Forall (λ sent, ∃ h, sent = WInsertProfileHistory h) rest
      ∧ ∀ f, f ∈ nameFields → changed demo_user ann_engineer f = true →
             ∃ h, WInsertProfileHistory h ∈ rest
                  ∧ entry_row (entry_of 1 demo_user ann_engineer f) h.
Proof.
  assert (∀ f, f ∈ updatableFields → storable (prop ann_engineer f) = true)
    as Hstorable by (intros f Hf; each_field Hf; reflexivity).
  split; [split; [reflexivity | split;
            [vm_compute; discriminate | exact Hstorable]] |].
  apply (profile_update_write_order (demo_world ticking) 1 ann_engineer
           demo_user); [reflexivity | vm_compute; discriminate | exact Hstorable].
Defined.

(** The log of the request of the witness: the row [updateUser] writes for
    the role, the update, the handler's row for the first name; the last
    row is the second one for the role, the duplicate met under C1. *)
Example profile_update_log :
  writes (put_users_profile (Some 1) 1 ann_engineer (demo_world ticking)).2
  = [WInsertProfileHistory (mkProfileHistory 1 1 "role" None "Engineer" 1000);
     WUpdateUser 1;
     WInsertProfileHistory
       (mkProfileHistory 2 1 "First Name" (Some "Demo") "Ann" 1001);
     WInsertProfileHistory
       (mkProfileHistory 3 1 "Role" (Some "") "Engineer" 1002)].
Proof. vm_compute. reflexivity. Qed.

(** ** Profile updates that change nothing *)

Lemma not_changed cu body f :
  prop body f = JUndefined ∨ prop body f = user_prop cu f →
  changed cu body f = false.
Proof.
  intros [Hu|He]; unfold changed.
  - by rewrite Hu.
  - apply andb_false_iff. right. unfold strict_ne, strict_eq.
    by rewrite bool_decide_eq_true_2.
Qed.

(** A column of a row after the handler's update. *)
Lemma user_prop_apply_profile cu body u f :
  f ∈ updatableFields →
  user_prop (apply_profile cu body u) f
  = if changed cu body f then of_text (pg_text (prop body f))
    else user_prop u f.
Proof.
  intros Hf.
  assert (∀ old, of_text (col_text (prop (profile_updates cu body) f) old)
                 = if changed cu body f then of_text (pg_text (prop body f))
                   else of_text old) as Hcol.
  { intros old. rewrite prop_profile_updates, decide_True by done.
    destruct (changed cu body f) eqn:Hc; [|done].
    apply changed_spec in Hc as [Ht _].
    by destruct (prop body f). }
  each_field Hf; apply Hcol.
Qed.

Lemma tracked_columns_apply_profile cu body u :
  filter (λ f, changed cu body f) fieldsToTrack = [] →
  tracked_columns (apply_profile cu body u) = tracked_columns u.
Proof.
  intros Hnil.
  assert (∀ f, f ∈ fieldsToTrack → changed cu body f = false) as Hno.
  { intros f Hf. apply not_true_iff_false. intros Hc.
    by apply (filter_nil_not_elem_of _ _ f Hnil); [rewrite Hc |]. }
  unfold tracked_columns, apply_profile. simpl.
  rewrite !prop_profile_updates.
  rewrite (Hno "role"), (Hno "projectName"), (Hno "clientName"),
    (Hno "location") by is_field.
  by repeat case_decide.
Qed.

(** C7 as stated fails: a request that touches no tracked field but changes
    the first name inserts a row into [profile_history], and the user it
    answers with is the renamed one. *)
Lemma name_change_is_recorded :
  (∀ f, f ∈ fieldsToTrack → prop rename_ann f = JUndefined)
  ∧ profileHistory
      (put_users_profile (Some 1) 1 rename_ann (demo_world ticking)).2
    = [mkProfileHistory 1 1 "First Name" (Some "Demo") "Ann" 1000]
  ∧ (put_users_profile (Some 1) 1 rename_ann (demo_world ticking)).1
    ≠ mkResponse 200 (PUser (Some demo_user)).
Proof.
  split; [|split].
  - intros f Hf. each_field Hf; reflexivity.
  - vm_compute. reflexivity.
  - vm_compute. discriminate.
Qed.

Lemma changed_names_only cu body :
  filter (λ f, changed cu body f) fieldsToTrack = [] →
  filter (λ f, changed cu body f) updatableFields
  = filter (λ f, changed cu body f) nameFields.
Proof.
  intros Hnil.
  assert (∀ f, f ∈ fieldsToTrack → changed cu body f = false) as Hno.
  { intros f Hf. apply not_true_iff_false. intros Hc.
    by apply (filter_nil_not_elem_of _ _ f Hnil); [rewrite Hc |]. }
  unfold updatableFields, nameFields. rewrite !filter_cons, !filter_nil.
  rewrite (Hno "role"), (Hno "projectName"), (Hno "clientName"),
    (Hno "location") by is_field.
  by destruct (changed cu body "firstName"), (changed cu body "lastName").
Qed.

(** C7 (amended): when none of the six updatable fields changes (each is
    absent from the body or equal to the stored value), the owner's request
    answers 200 with the current user and leaves the world as it was, so no
    row of [profile_history] is inserted. When only the four tracked fields
    are known not to change, and the values are ones the database stores,
    the request answers 200 with the updated user: its tracked columns, and
    those of every user row, are as they were, its first and last name are
    the body's where they changed, and exactly one row is inserted for each
    of the two names that changed, the one the handler writes. *)
Theorem profile_update_without_change
    (w : World) (id : Z) (body : gmap string jsval) (cu : User) :
  head (filter (λ u, u_id u = id) (users w)) = Some cu →
  ((∀ f, f ∈ updatableFields →
         prop body f = JUndefined ∨ prop body f = user_prop cu f) →
   put_users_profile (Some id) id body w
   = (mkResponse 200 (PUser (Some cu)), w))
  ∧ ((∀ f, f ∈ fieldsToTrack →
           prop body f = JUndefined ∨ prop body f = user_prop cu f) →
     (∀ f, f ∈ nameFields → storable (prop body f) = true) →
     let updated := apply_profile cu body cu in
     (put_users_profile (Some id) id body w).1
     = mkResponse 200 (PUser (Some updated))
     ∧ tracked_columns updated = tracked_columns cu
     ∧ (∀ f, f ∈ nameFields →
             user_prop updated f
             = if changed cu body f then of_text (pg_text (prop body f))
               else user_prop cu f)
     ∧ tracked_columns <$> users (put_users_profile (Some id) id body w).2
       = tracked_columns <$> users w
     ∧ Forall2 entry_row
               (entry_of id cu body
                  <$> filter (λ f, changed cu body f) nameFields)
               (new_profile_rows w (put_users_profile (Some id) id body w).2)).
Proof.
  intros Hcu. split.
  - intros Hsame. apply put_users_profile_unchanged; [done |].
    apply filter_nil_Forall, Forall_forall. intros f Hf.
    rewrite (not_changed cu body f (Hsame f Hf)). by intros [].
  - intros Hsame _. cbn zeta.
    assert (filter (λ f, changed cu body f) fieldsToTrack = []) as Hnil.
    { apply filter_nil_Forall, Forall_forall. intros f Hf.
      rewrite (not_changed cu body f (Hsame f Hf)). by intros []. }
    destruct (put_users_profile_owner w id body cu Hcu)
      as (srows & rrows & w' & -> & Husers & _ & _ & Hph & _ & Hs & Hr).
    cbn [fst snd]. rewrite Hnil in Hs. apply Forall2_nil_inv_l in Hs as ->.
    split; [done |]. split; [by apply tracked_columns_apply_profile |].
    split; [|split].
    + intros f Hf. apply user_prop_apply_profile.
      unfold nameFields in Hf. unfold updatableFields.
      rewrite !elem_of_cons in Hf. rewrite !elem_of_cons.
      destruct Hf as [->|[->|[]%elem_of_nil]]; auto.
    + rewrite Husers, <- list_fmap_compose. apply list_fmap_ext.
      intros i u _. simpl. case_decide; [|done].
      by apply tracked_columns_apply_profile.
    + unfold new_profile_rows. rewrite Hph, drop_app_length. simpl.
      by rewrite <- (changed_names_only cu body Hnil).
Qed.

Lemma profile_update_without_change_witness :
  head (filter (λ u, u_id u = 1) (users (demo_world ticking))) = Some demo_user
  ∧ put_users_profile (Some 1) 1 same_first_name (demo_world ticking)
    = (mkResponse 200 (PUser (Some demo_user)), demo_world ticking)
  ∧ (put_users_profile (Some 1) 1 rename_ann (demo_world ticking)).1
    = mkResponse 200 (PUser (Some (apply_profile demo_user rename_ann demo_user)))
  ∧ tracked_columns (apply_profile demo_user rename_ann demo_user)
    = tracked_columns demo_user
  ∧ (∀ f, f ∈ nameFields →
          user_prop (apply_profile demo_user rename_ann demo_user) f
          = if changed demo_user rename_ann f
            then of_text (pg_text (prop rename_ann f))
            else user_prop demo_user f)
  ∧ tracked_columns
      <$> users (put_users_profile (Some 1) 1 rename_ann
                   (demo_world ticking)).2
    = tracked_columns <$> users (demo_world ticking)
  ∧ Forall2 entry_row
            (entry_of 1 demo_user rename_ann
               <$> filter (λ f, changed demo_user rename_ann f) nameFields)
            (new_profile_rows (demo_world ticking)
               (put_users_profile (Some 1) 1 rename_ann
                  (demo_world ticking)).2).
Proof.
  split; [reflexivity |]. split.
  - apply (profile_update_without_change (demo_world ticking) 1
             same_first_name demo_user eq_refl).
    intros f Hf. each_field Hf; vm_compute; auto.
  - apply (profile_update_without_change (demo_world ticking) 1
             rename_ann demo_user eq_refl).
    + intros f Hf. each_field Hf; vm_compute; auto.
    + intros f Hf. unfold nameFields in Hf.
      repeat (apply elem_of_cons in Hf as [->|Hf]); [reflexivity.. |].
      by apply elem_of_nil in Hf.
Defined.

(** The renaming of the witness: the user answered is Ann, and the one row
    inserted is the handler's. *)
Example profile_update_rename :
  put_users_profile (Some 1) 1 rename_ann (demo_world ticking)
  = (mkResponse 200
       (PUser (Some (mkUser 1 "demo@example.com" "secret" (Some "Ann")
                            (Some "User") None None None None))),
     mkWorld [mkUser 1 "demo@example.com" "secret" (Some "Ann") (Some "User")
                     None None None None]
             [] []
             [mkProfileHistory 1 1 "First Name" (Some "Demo") "Ann" 1000]
             2 1 1 2 ticking 1%nat
             [WUpdateUser 1;
              WInsertProfileHistory
                (mkProfileHistory 1 1 "First Name" (Some "Demo") "Ann" 1000)]).
Proof. vm_compute. reflexivity. Qed.

(** ** What counts as a change *)

Lemma field_label_inj f g :
  f ∈ updatableFields → g ∈ updatableFields →
  field_label f = field_label g → f = g.
Proof.
  intros Hf Hg. each_field Hf; each_field Hg; vm_compute; congruence.
Qed.

Lemma field_label_not_a_field f g :
  f ∈ updatableFields → g ∈ updatableFields → field_label f ≠ g.
Proof.
  intros Hf Hg. each_field Hf; each_field Hg; vm_compute; congruence.
Qed.

(** The history [updateUser] writes, whether or not the update that follows
    is accepted. *)
Lemma updateUser_history w id updates cu :
  head (filter (λ u, u_id u = id) (users w)) = Some cu →
  (∀ f, f ∈ fieldsToTrack → prop updates f ≠ JNull) →
  ∃ srows,
    profileHistory (updateUser id updates w).2 = profileHistory w ++ srows
    ∧ Forall2 (store_row id cu updates)
              (filter (λ f, tracked cu updates f) fieldsToTrack) srows.
Proof.
  intros Hcu Hnn.
  destruct (track_changes_run id cu updates fieldsToTrack w)
    as (srows & Hrun & Hrows).
  { intros f Hf [Hdef _]%tracked_spec. specialize (Hnn f Hf).
    destruct (prop updates f) as [| |[]| |]; simpl; eauto; done. }
  exists srows. split; [|done].
  unfold updateUser. unfold bind at 1. unfold getUser at 1. rewrite Hcu.
  unfold bind at 1. rewrite Hrun.
  unfold bind, update_users.
  destruct (forallb _ _); [done |].
  by destruct (set_user updates).
Qed.

(** C8 as stated fails: the stored role is null and the body holds the empty
    string, two different values, yet the handler does not count the field
    as changed: nothing is written and the user is returned as it was. *)
Lemma empty_string_is_not_a_change :
  prop role_empty "role" ≠ user_prop demo_user "role"
  ∧ put_users_profile (Some 1) 1 role_empty (demo_world ticking)
    = (mkResponse 200 (PUser (Some demo_user)), demo_world ticking).
Proof. split; [vm_compute; discriminate | reflexivity]. Qed.

(** C8 (amended): the two places that detect a change use two rules.
    - The handler counts an updatable field as changed exactly when the
      body's value is truthy and not strictly equal to the stored value; an
      empty string or a null in the body is never a change, whatever is
      stored.
    - [updateUser] counts a tracked field as changed exactly when the update
      holds a value for it (is not undefined) that is not strictly equal to
      the stored one; the empty string against a stored null, or a value
      against a stored null, is a change there.
    - Under both rules a field absent from the body is not recorded: no new
      row carries its name or its label, and its column keeps its value. *)
Theorem change_detection_rules (w : World) (id : Z) (cu : User) :
  head (filter (λ u, u_id u = id) (users w)) = Some cu →
  (∀ body f, f ∈ updatableFields →
     let w' := (put_users_profile (Some id) id body w).2 in
     ((∃ h, h ∈ new_profile_rows w w' ∧ ph_field h = field_label f)
      ↔ truthy (prop body f) = true ∧ prop body f ≠ user_prop cu f)
     ∧ (prop body f = JUndefined →
        (∀ h, h ∈ new_profile_rows w w' →
              ph_field h ≠ field_label f ∧ ph_field h ≠ f)
        ∧ (λ u, user_prop u f) <$> users w'
          = (λ u, user_prop u f) <$> users w))
  ∧ (∀ updates f, f ∈ fieldsToTrack →
       (∀ g, g ∈ fieldsToTrack → prop updates g ≠ JNull) →
       let w' := (updateUser id updates w).2 in
       (∃ h, h ∈ new_profile_rows w w' ∧ ph_field h = f)
       ↔ prop updates f ≠ JUndefined ∧ prop updates f ≠ user_prop cu f).
Proof.
  intros Hcu. split.
  - intros body f Hf.
    destruct (put_users_profile_owner w id body cu Hcu)
      as (srows & rrows & w' & -> & Husers & _ & _ & Hph & _ & Hs & Hr).
    simpl. unfold new_profile_rows. rewrite Hph, drop_app_length.
    rewrite Forall2_fmap_l in Hr.
    assert (∀ h, h ∈ srows ++ rrows →
                 ∃ g, g ∈ updatableFields ∧ changed cu body g = true
                      ∧ (ph_field h = g ∨ ph_field h = field_label g))
      as Hnew.
    { intros h [Hh|Hh]%elem_of_app.
      - destruct (Forall2_elem_of_r _ _ _ _ Hs Hh)
          as (g & [Hc Hg]%list_elem_of_filter & _ & Hfield & _).
        exists g. apply Is_true_true in Hc.
        split; [by apply fieldsToTrack_updatable | auto].
      - destruct (Forall2_elem_of_r _ _ _ _ Hr Hh)
          as (g & [Hc Hg]%list_elem_of_filter & _ & Hfield & _).
        exists g. apply Is_true_true in Hc. simpl in Hfield. auto. }
    split; [split |].
    + intros (h & Hh & Hfield).
      destruct (Hnew h Hh) as (g & Hg & Hc & [Hraw|Hlab]).
      * exfalso. apply (field_label_not_a_field f g Hf Hg). congruence.
      * assert (f = g) as -> by (apply field_label_inj; congruence).
        by apply changed_spec.
    + intros Hc%changed_spec.
      destruct (Forall2_elem_of_l _ _ _ f Hr) as (h & Hh & _ & Hfield & _).
      { apply list_elem_of_filter. split; [by rewrite Hc | done]. }
      exists h. split; [apply elem_of_app; by right | done].
    + intros Habsent.
      assert (changed cu body f = false) as Hno
        by (apply not_changed; by left).
      split.
      * intros h Hh. destruct (Hnew h Hh) as (g & Hg & Hc & [Hraw|Hlab]).
        -- split; [|congruence].
           intros Heq. apply (field_label_not_a_field f g Hf Hg). congruence.
        -- split.
           ++ intros Heq. assert (f = g) as ->
                by (apply field_label_inj; congruence). congruence.
           ++ intros Heq. apply (field_label_not_a_field g f Hg Hf). congruence.
      * rewrite Husers, <- list_fmap_compose. apply list_fmap_ext.
        intros i u _. simpl. case_decide; [|done].
        by rewrite user_prop_apply_profile, Hno.
  - intros updates f Hf Hnn.
    destruct (updateUser_history w id updates cu Hcu Hnn)
      as (srows & Hph & Hs).
    simpl. unfold new_profile_rows. rewrite Hph, drop_app_length.
    rewrite <- tracked_spec. split.
    + intros (h & Hh & Hfield).
      destruct (Forall2_elem_of_r _ _ _ _ Hs Hh)
        as (g & [Hc Hg]%list_elem_of_filter & _ & Hfield' & _).
      apply Is_true_true in Hc. congruence.
    + intros Ht.
      destruct (Forall2_elem_of_l _ _ _ f Hs) as (h & Hh & _ & Hfield & _).
      { apply list_elem_of_filter. split; [by rewrite Ht | done]. }
      eauto.
Qed.

(** At the store, the empty string against a stored null is a change. *)
Example updateUser_records_empty_string :
  profileHistory (updateUser 1 role_empty (demo_world ticking)).2
  = [mkProfileHistory 1 1 "role" None "" 1000].
Proof. vm_compute. reflexivity. Qed.

Lemma change_detection_rules_witness :
  head (filter (λ u, u_id u = 1) (users (demo_world ticking))) = Some demo_user
  ∧ ((∃ h, h ∈ new_profile_rows (demo_world ticking)
                 (put_users_profile (Some 1) 1 role_engineer
                    (demo_world ticking)).2
           ∧ ph_field h = field_label "role")
     ↔ truthy (prop role_engineer "role") = true
       ∧ prop role_engineer "role" ≠ user_prop demo_user "role")
  ∧ ((∃ h, h ∈ new_profile_rows (demo_world ticking)
                 (updateUser 1 role_empty (demo_world ticking)).2
           ∧ ph_field h = "role"%string)
     ↔ prop role_empty "role" ≠ JUndefined
       ∧ prop role_empty "role" ≠ user_prop demo_user "role").
Proof.
  destruct (change_detection_rules (demo_world ticking) 1 demo_user eq_refl)
    as [Hhandler Hstore].
  split; [reflexivity |]. split.
  - apply (Hhandler role_engineer "role"%string).
    is_field.
  - apply (Hstore role_empty "role"%string).
    + is_field.
    + intros g Hg. each_field Hg; vm_compute; discriminate.
Defined.

(** ** Skills *)

(** [createSkill] on its own inserts the skill and one history row for it. *)
Lemma createSkill_run insertSkill w :
  let skill :=
    mkSkill (seq_skills w) (is_userId insertSkill) (is_name insertSkill)
            (is_level insertSkill) (clock w (reads w))
            (default None (is_certificationUrl insertSkill)) in
  createSkill insertSkill w
  = (Ok skill,
     with_skillHistory
       (mkSkillHistory (seq_skillHistory w) (s_id skill) (s_userId skill)
          (s_name skill) (s_level skill) (clock w (reads w))
          (s_certificationUrl skill))
       (with_skill skill (tick w))).
Proof. done. Qed.

(** C2 (the code does otherwise): an accepted creation inserts the skill and
    then two rows of [skill_history], one written by [createSkill] and one
    by the handler. Both carry the name, the level and the certification
    URL of the created skill. *)
Theorem skill_creation_history_rows
    (w : World) (requester : Z) (skillData : InsertSkill) :
  is_userId skillData = requester →
  let skill :=
    mkSkill (seq_skills w) requester (is_name skillData) (is_level skillData)
            (clock w (reads w))
            (default None (is_certificationUrl skillData)) in
  let mirror (id t : Z) :=
    mkSkillHistory id (s_id skill) requester (s_name skill) (s_level skill) t
                   (s_certificationUrl skill) in
  (post_skills (Some requester) (Valid skillData) w).1
  = mkResponse 201 (PSkill (Some skill))
  ∧ skills (post_skills (Some requester) (Valid skillData) w).2
    = skills w ++ [skill]
  ∧ skillHistory (post_skills (Some requester) (Valid skillData) w).2
    = skillHistory w
        ++ [mirror (seq_skillHistory w) (clock w (reads w));
            mirror (seq_skillHistory w + 1) (clock w (S (reads w)))].
Proof.
  intros <-. unfold post_skills, ensureAuthenticated.
  rewrite Z.eqb_refl. cbn [negb]. simpl.
  rewrite <- !app_assoc. by destruct (is_certificationUrl skillData).
Qed.

Lemma skill_creation_history_rows_witness :
  is_userId go_beginner = 1
  ∧ (post_skills (Some 1) (Valid go_beginner) (demo_world ticking)).1
    = mkResponse 201
        (PSkill (Some (mkSkill 1 1 "Go" "Beginner" 1000 None)))
  ∧ skills (post_skills (Some 1) (Valid go_beginner) (demo_world ticking)).2
    = [mkSkill 1 1 "Go" "Beginner" 1000 None]
  ∧ skillHistory
      (post_skills (Some 1) (Valid go_beginner) (demo_world ticking)).2
    = [mkSkillHistory 1 1 1 "Go" "Beginner" 1000 None;
       mkSkillHistory 2 1 1 "Go" "Beginner" 1001 None].
Proof.
  split; [reflexivity |].
  apply (skill_creation_history_rows (demo_world ticking) 1 go_beginner).
  reflexivity.
Defined.

Lemma bind_run {A B} (c : M A) (k : A -> M B) (w w' : World) (a : A) :
  c w = (Ok a, w') → bind c k w = k a w'.
Proof. intros Hc. unfold bind. by rewrite Hc. Qed.

Lemma createSkillHistory_run h w :
  createSkillHistory h w
  = match ish_updatedAt h with
    | Some t =>
        (Ok (history_row h (seq_skillHistory w) t),
         with_skillHistory (history_row h (seq_skillHistory w) t) w)
    | None =>
        (Ok (history_row h (seq_skillHistory w) (clock w (reads w))),
         with_skillHistory
           (history_row h (seq_skillHistory w) (clock w (reads w))) (tick w))
    end.
Proof. unfold createSkillHistory. by destruct (ish_updatedAt h). Qed.

Lemma updateSkill_run id updates w currentSkill :
  head (filter (λ s, s_id s = id) (skills w)) = Some currentSkill →
  updateSkill id updates w
  = (Ok (Some (set_skill updates (clock w (reads w)) currentSkill)),
     with_skills_updated id (set_skill updates (clock w (reads w)))
       (if calls_for_history updates currentSkill
        then with_skillHistory
               (mkSkillHistory (seq_skillHistory w) id (s_userId currentSkill)
                  (s_name currentSkill)
                  (level_or (su_level updates) (s_level currentSkill))
                  (clock w (reads w))
                  (default (s_certificationUrl currentSkill)
                           (su_certificationUrl updates)))
               (tick w)
        else tick w)).
Proof.
  intros Hfound. unfold updateSkill.
  rewrite (bind_run now _ w (tick w) (clock w (reads w))) by done.
  rewrite (bind_run (getSkillById id) _ (tick w) (tick w) (Some currentSkill))
    by (unfold getSkillById; simpl; by rewrite Hfound).
  fold (calls_for_history updates currentSkill).
  destruct (calls_for_history updates currentSkill).
  - erewrite bind_run; last first.
    { erewrite bind_run; [done |]. by rewrite createSkillHistory_run. }
    erewrite bind_run; [|reflexivity].
    unfold ret. simpl. by rewrite (head_fmap_Some _ _ _ Hfound).
  - erewrite bind_run; [|done].
    erewrite bind_run; [|reflexivity].
    unfold ret. simpl. by rewrite (head_fmap_Some _ _ _ Hfound).
Qed.

(** One run of [PUT /api/skills/:id] by the owner of an existing skill. *)
Lemma put_skills_owner w requester skillId skillData existingSkill :
  head (filter (λ s, s_id s = skillId) (skills w)) = Some existingSkill →
  s_userId existingSkill = requester →
  is_userId skillData = requester →
  let w1 :=
    if negb (String.eqb (s_level existingSkill) (is_level skillData))
       || bool_decide (Some (s_certificationUrl existingSkill)
                       ≠ is_certificationUrl skillData)
    then with_skillHistory
           (mkSkillHistory (seq_skillHistory w) skillId requester
              (is_name skillData) (is_level skillData) (clock w (reads w))
              (default None (is_certificationUrl skillData)))
           (tick w)
    else w in
  let t := clock w1 (reads w1) in
  let w2 :=
    if calls_for_history (as_updates skillData) existingSkill
    then with_skillHistory
           (mkSkillHistory (seq_skillHistory w1) skillId requester
              (s_name existingSkill)
              (level_or (Some (is_level skillData)) (s_level existingSkill))
              t
              (default (s_certificationUrl existingSkill)
                       (is_certificationUrl skillData)))
           (tick w1)
    else tick w1 in
  put_skills (Some requester) skillId (Valid skillData) w
  = (mkResponse 200
       (PSkill (Some (set_skill (as_updates skillData) t existingSkill))),
     with_skills_updated skillId (set_skill (as_updates skillData) t) w2).
Proof.
  intros Hfound Howner Hdata w1 t w2.
  unfold put_skills, ensureAuthenticated.
  rewrite Hdata, Z.eqb_refl. cbn [negb].
  rewrite (bind_run (getSkillById skillId) _ w w (Some existingSkill))
    by (unfold getSkillById; by rewrite Hfound).
  rewrite Howner, Z.eqb_refl. cbn [negb].
  assert (head (filter (λ s, s_id s = skillId) (skills w1))
          = Some existingSkill) as Hfound1.
  { subst w1. by destruct (_ || _). }
  erewrite (bind_run _ _ w w1 tt); last first.
  { subst w1. destruct (_ || _); [|done].
    erewrite bind_run; [done |]. by rewrite createSkillHistory_run. }
  erewrite bind_run; last by apply updateSkill_run.
  subst w2 t. by rewrite <- Howner.
Qed.

(** C3 (the code does otherwise): when the owner's update changes the level,
    or carries a certification URL that differs from the stored one, two
    rows of [skill_history] are inserted: the handler's, with the incoming
    name, level and URL, and then the one of [updateSkill], with the stored
    name, [updates.level || currentSkill.level] and the incoming URL. *)
Theorem skill_update_history_rows
    (w : World) (requester skillId : Z) (skillData : InsertSkill)
    (existingSkill : Skill) :
  head (filter (λ s, s_id s = skillId) (skills w)) = Some existingSkill →
  s_userId existingSkill = requester →
  is_userId skillData = requester →
  (is_level skillData ≠ s_level existingSkill
   ∨ (is_certificationUrl skillData ≠ None
      ∧ is_certificationUrl skillData
          ≠ Some (s_certificationUrl existingSkill))) →
  skillHistory (put_skills (Some requester) skillId (Valid skillData) w).2
  = skillHistory w
      ++ [mkSkillHistory (seq_skillHistory w) skillId requester
            (is_name skillData) (is_level skillData) (clock w (reads w))
            (default None (is_certificationUrl skillData));
          mkSkillHistory (seq_skillHistory w + 1) skillId requester
            (s_name existingSkill)
            (level_or (Some (is_level skillData)) (s_level existingSkill))
            (clock w (S (reads w)))
            (default (s_certificationUrl existingSkill)
                     (is_certificationUrl skillData))].
Proof.
  intros Hfound Howner Hdata Hdiff.
  rewrite (put_skills_owner w requester skillId skillData existingSkill)
    by done.
  assert (negb (String.eqb (s_level existingSkill) (is_level skillData))
          || bool_decide (Some (s_certificationUrl existingSkill)
                          ≠ is_certificationUrl skillData) = true) as ->.
  { apply orb_true_iff. destruct Hdiff as [Hl|[_ Hc]].
    - left. apply negb_true_iff, String.eqb_neq. congruence.
    - right. apply bool_decide_eq_true. congruence. }
  assert (calls_for_history (as_updates skillData) existingSkill = true)
    as ->.
  { apply orb_true_iff. simpl. destruct Hdiff as [Hl|Hc].
    - left. apply bool_decide_eq_true. split; congruence.
    - right. by apply bool_decide_eq_true. }
  simpl. by rewrite <- app_assoc.
Qed.

Lemma skill_update_history_rows_witness :
  (head (filter (λ s, s_id s = 1) (skills go_world))
   = Some (mkSkill 1 1 "Go" "Beginner" 1000 None)
   ∧ is_userId go_expert = 1
   ∧ is_level go_expert ≠ "Beginner"%string)
  ∧ skillHistory (put_skills (Some 1) 1 (Valid go_expert) go_world).2
    = [mkSkillHistory 1 1 1 "Go" "Beginner" 1000 None;
       mkSkillHistory 2 1 1 "Go" "Beginner" 1001 None;
       mkSkillHistory 3 1 1 "Go" "Expert" 1002 (Some "https://x/y"%string);
       mkSkillHistory 4 1 1 "Go" "Expert" 1003 (Some "https://x/y"%string)].
Proof.
  split; [split; [reflexivity | split; [reflexivity | discriminate]] |].
  apply (skill_update_history_rows go_world 1 1 go_expert
           (mkSkill 1 1 "Go" "Beginner" 1000 None));
    [reflexivity | reflexivity | reflexivity | left; discriminate].
Defined.

(** C5: a request to create a skill for somebody else, and a request to
    update a skill with somebody else's id in the body or a skill that
    belongs to somebody else, are answered 403 Forbidden and leave the world
    exactly as it was: no row inserted or modified, no statement sent. *)
Theorem skill_requests_for_others_are_forbidden
    (w : World) (requester : Z) (skillData : InsertSkill) :
  (is_userId skillData ≠ requester →
   post_skills (Some requester) (Valid skillData) w = (forbidden, w))
  ∧ (∀ skillId,
       is_userId skillData ≠ requester
       ∨ (∃ existingSkill,
            head (filter (λ s, s_id s = skillId) (skills w))
            = Some existingSkill
            ∧ s_userId existingSkill ≠ requester) →
       put_skills (Some requester) skillId (Valid skillData) w
       = (forbidden, w)).
Proof.
  split.
  - intros Hne%Z.eqb_neq. unfold post_skills, ensureAuthenticated.
    by rewrite Hne.
  - intros skillId Hother. unfold put_skills, ensureAuthenticated.
    destruct (is_userId skillData =? requester) eqn:Hdata; [|done].
    apply Z.eqb_eq in Hdata.
    destruct Hother as [?|(existingSkill & Hfound & Hne%Z.eqb_neq)]; [done |].
    cbn [negb].
    rewrite (bind_run (getSkillById skillId) _ w w (Some existingSkill))
      by (unfold getSkillById; by rewrite Hfound).
    by rewrite Hne.
Qed.

Lemma skill_requests_for_others_are_forbidden_witness :
  (is_userId go_for_user_2 ≠ 1
   ∧ post_skills (Some 1) (Valid go_for_user_2) go_world
     = (forbidden, go_world))
  ∧ ((∃ existingSkill,
        head (filter (λ s, s_id s = 1) (skills go_world)) = Some existingSkill
        ∧ s_userId existingSkill ≠ 2)
     ∧ put_skills (Some 2) 1 (Valid go_for_user_2) go_world
       = (forbidden, go_world)).
Proof.
  split.
  - split; [discriminate |].
    apply (skill_requests_for_others_are_forbidden go_world 1 go_for_user_2).
    discriminate.
  - assert (∃ existingSkill,
              head (filter (λ s, s_id s = 1) (skills go_world))
              = Some existingSkill
              ∧ s_userId existingSkill ≠ 2) as Hother.
    { exists (mkSkill 1 1 "Go" "Beginner" 1000 None).
      split; [reflexivity | discriminate]. }
    split; [exact Hother |].
    apply (skill_requests_for_others_are_forbidden go_world 2 go_for_user_2).
    right. exact Hother.
Defined.

Lemma getSkillById_updated id g w currentSkill :
  (∀ s, s_id (g s) = s_id s) →
  head (filter (λ s, s_id s = id) (skills w)) = Some currentSkill →
  head (filter (λ s, s_id s = id)
          ((fun s => if decide (s_id s = id) then g s else s) <$> skills w))
  = Some (g currentSkill).
Proof.
  intros Hg Hfound.
  assert (s_id currentSkill = id) as Hid.
  { destruct (filter (λ s, s_id s = id) (skills w)) as [|s rest] eqn:Hf;
      [done |]. injection Hfound as ->.
    assert (currentSkill ∈ filter (λ s, s_id s = id) (skills w)) as Hin
      by (rewrite Hf; by left).
    by apply list_elem_of_filter in Hin as [? _]. }
  revert Hfound. induction (skills w) as [|s l IH]; [done |].
  rewrite fmap_cons, !filter_cons.
  destruct (decide (s_id s = id)) as [Hs|Hs].
  - rewrite decide_True by by rewrite Hg. by intros [= ->].
  - rewrite decide_False by done. apply IH.
Qed.

(** C6 (the code does otherwise): a request of the owner that carries the
    stored level and a name the database stores is answered 200 with the
    renamed skill, and the skill is found renamed afterwards. When the body
    also carries the stored certification URL, no row of [skill_history] is
    inserted. When the body has no [certificationUrl] key, the handler
    compares the stored URL with [undefined], finds a difference, and inserts
    a row that has the new name, the level and no URL; [updateSkill] does
    test for [undefined] and inserts none. *)
Theorem skill_rename_history_rows
    (w : World) (requester skillId : Z) (skillData : InsertSkill)
    (existingSkill : Skill) :
  head (filter (λ s, s_id s = skillId) (skills w)) = Some existingSkill →
  s_userId existingSkill = requester →
  is_userId skillData = requester →
  is_level skillData = s_level existingSkill →
  storable_text (is_name skillData) = true →
  let renamed (t : Z) :=
    mkSkill (s_id existingSkill) requester (is_name skillData)
            (s_level existingSkill) t (s_certificationUrl existingSkill) in
  let w' := (put_skills (Some requester) skillId (Valid skillData) w).2 in
  (is_certificationUrl skillData = Some (s_certificationUrl existingSkill) →
   skillHistory w' = skillHistory w
   ∧ (put_skills (Some requester) skillId (Valid skillData) w).1
     = mkResponse 200 (PSkill (Some (renamed (clock w (reads w)))))
   ∧ getSkillById skillId w' = (Ok (Some (renamed (clock w (reads w)))), w'))
  ∧ (is_certificationUrl skillData = None →
     skillHistory w'
     = skillHistory w
         ++ [mkSkillHistory (seq_skillHistory w) skillId requester
               (is_name skillData) (s_level existingSkill)
               (clock w (reads w)) None]
     ∧ (put_skills (Some requester) skillId (Valid skillData) w).1
       = mkResponse 200 (PSkill (Some (renamed (clock w (S (reads w))))))
     ∧ getSkillById skillId w'
       = (Ok (Some (renamed (clock w (S (reads w))))), w')).
Proof.
  intros Hfound Howner Hdata Hlevel _ renamed w'. subst w'.
  rewrite (put_skills_owner w requester skillId skillData existingSkill)
    by done.
  assert (calls_for_history (as_updates skillData) existingSkill = false
          ∨ is_certificationUrl skillData ≠ None
            ∧ is_certificationUrl skillData
              ≠ Some (s_certificationUrl existingSkill)) as Hcalls.
  { destruct (decide (is_certificationUrl skillData = None)) as [Hn|Hn];
      [|destruct (decide (is_certificationUrl skillData
                          = Some (s_certificationUrl existingSkill)))
          as [He|He]]; [left | left | by right];
      apply orb_false_iff; simpl;
      split; apply bool_decide_eq_false; intros [? ?]; congruence. }
  split; intros Hcert.
  - destruct Hcalls as [->|[_ ?]]; [|done].
    assert (negb (String.eqb (s_level existingSkill) (is_level skillData))
            || bool_decide (Some (s_certificationUrl existingSkill)
                            ≠ is_certificationUrl skillData) = false) as ->.
    { apply orb_false_iff. split.
      - apply negb_false_iff, String.eqb_eq. congruence.
      - apply bool_decide_eq_false. intros Hne. by rewrite Hcert in Hne. }
    cbn [fst snd]. split; [done |].
    assert (set_skill (as_updates skillData) (clock w (reads w)) existingSkill
            = renamed (clock w (reads w))) as Hset.
    { subst renamed. unfold set_skill. simpl.
      by rewrite Hdata, Hlevel, Hcert. }
    split; [by rewrite Hset |].
    unfold getSkillById. cbn [skills with_skills_updated tick].
    rewrite (getSkillById_updated skillId _ w existingSkill) by done.
    by rewrite Hset.
  - destruct Hcalls as [->|[? _]]; [|done].
    assert (negb (String.eqb (s_level existingSkill) (is_level skillData))
            || bool_decide (Some (s_certificationUrl existingSkill)
                            ≠ is_certificationUrl skillData) = true) as ->.
    { apply orb_true_iff. right. apply bool_decide_eq_true.
      by rewrite Hcert. }
    cbn [fst snd]. rewrite Hcert.
    assert (set_skill (as_updates skillData) (clock w (S (reads w)))
              existingSkill
            = renamed (clock w (S (reads w)))) as Hset.
    { subst renamed. unfold set_skill. simpl.
      by rewrite Hdata, Hlevel, Hcert. }
    split; [by rewrite <- Hlevel |].
    split; [simpl; by rewrite Hset |].
    unfold getSkillById.
    cbn [skills with_skills_updated with_skillHistory tick clock reads].
    rewrite (getSkillById_updated skillId _ w existingSkill) by done.
    by rewrite Hset.
Qed.

Lemma skill_rename_history_rows_witness :
  (head (filter (λ s, s_id s = 1) (skills go_world))
   = Some (mkSkill 1 1 "Go" "Beginner" 1000 None)
   ∧ is_level golang_no_url = "Beginner"%string
   ∧ storable_text (is_name golang_no_url) = true
   ∧ is_certificationUrl golang_no_url = None)
  ∧ skillHistory (put_skills (Some 1) 1 (Valid golang_no_url) go_world).2
    = skillHistory go_world
        ++ [mkSkillHistory (seq_skillHistory go_world) 1 1 "Golang" "Beginner"
              (clock go_world (reads go_world)) None]
  ∧ (put_skills (Some 1) 1 (Valid golang_no_url) go_world).1
    = mkResponse 200
        (PSkill (Some (mkSkill 1 1 "Golang" "Beginner"
                         (clock go_world (S (reads go_world))) None)))
  ∧ getSkillById 1 (put_skills (Some 1) 1 (Valid golang_no_url) go_world).2
    = (Ok (Some (mkSkill 1 1 "Golang" "Beginner"
                   (clock go_world (S (reads go_world))) None)),
       (put_skills (Some 1) 1 (Valid golang_no_url) go_world).2).
Proof.
  split; [repeat split; reflexivity |].
  apply (skill_rename_history_rows go_world 1 1 golang_no_url
           (mkSkill 1 1 "Go" "Beginner" 1000 None)); reflexivity.
Defined.

(** The two renamings of "Go": with [certificationUrl: null] in the body no
    row is added to the two of the creation; without the key, one is. *)
Example skill_rename_with_url :
  skillHistory (put_skills (Some 1) 1 (Valid golang_beginner) go_world).2
  = [mkSkillHistory 1 1 1 "Go" "Beginner" 1000 None;
     mkSkillHistory 2 1 1 "Go" "Beginner" 1001 None].
Proof. vm_compute. reflexivity. Qed.

Example skill_rename_without_url :
  skillHistory (put_skills (Some 1) 1 (Valid golang_no_url) go_world).2
  = [mkSkillHistory 1 1 1 "Go" "Beginner" 1000 None;
     mkSkillHistory 2 1 1 "Go" "Beginner" 1001 None;
     mkSkillHistory 3 1 1 "Golang" "Beginner" 1002 None].
Proof. vm_compute. reflexivity. Qed.

(** ** History listings *)

#[global] Instance later_first_sh_total : Total later_first_sh.
Proof. intros a b. unfold later_first_sh. lia. Qed.
#[global] Instance later_first_sh_trans : Transitive later_first_sh.
Proof. intros a b c. unfold later_first_sh. lia. Qed.
#[global] Instance later_first_ph_total : Total later_first_ph.
Proof. intros a b. unfold later_first_ph. lia. Qed.
#[global] Instance later_first_ph_trans : Transitive later_first_ph.
Proof. intros a b c. unfold later_first_ph. lia. Qed.

(** C9 as stated fails: nothing keeps two rows from carrying the same time.
    [new Date()] counts milliseconds; when two readings fall into the same
    millisecond, a profile update that changes the role and the project
    leaves rows of equal [updatedAt], and the listing of the user's profile
    history is not strictly descending. *)
Lemma history_listing_with_equal_times :
  let w := (put_users_profile (Some 1) 1 role_and_project
              (demo_world coarse)).2 in
  ∃ l, (get_profile_history (Some 1) w).1
       = mkResponse 200 (PProfileHistory l)
       ∧ ¬ strictly_descending (ph_updatedAt <$> l).
Proof.
  exists [mkProfileHistory 3 1 "Project Name" (Some "") "Apollo" 1001;
          mkProfileHistory 4 1 "Role" (Some "") "Engineer" 1001;
          mkProfileHistory 1 1 "role" None "Engineer" 1000;
          mkProfileHistory 2 1 "projectName" None "Apollo" 1000].
  split; [vm_compute; reflexivity |].
  intros Hstrict. specialize (Hstrict 0%nat 1001 1001 eq_refl eq_refl). lia.
Qed.

(** C9 (amended): the listing of a skill's history is exactly the rows of
    that skill, and the listing of a user's profile history exactly the rows
    of that user, arranged so that the [updatedAt] of a row is greater than
    or equal to that of every row after it: later rows first, rows of equal
    time next to each other. *)
Theorem history_listings_descending (w : World) (id : Z) :
  (∃ l, getSkillHistoryBySkillId id w = (Ok l, w)
        ∧ StronglySorted (λ a b, sh_updatedAt b ≤ sh_updatedAt a) l
        ∧ l ≡ₚ filter (λ h, sh_skillId h = id) (skillHistory w))
  ∧ (∃ l, getProfileHistoryByUserId id w = (Ok l, w)
          ∧ StronglySorted (λ a b, ph_updatedAt b ≤ ph_updatedAt a) l
          ∧ l ≡ₚ filter (λ h, ph_userId h = id) (profileHistory w)).
Proof.
  split; eexists; (split; [reflexivity |]); split.
  - apply (StronglySorted_merge_sort later_first_sh).
  - apply merge_sort_Permutation.
  - apply (StronglySorted_merge_sort later_first_ph).
  - apply merge_sort_Permutation.
Qed.

(** The handlers answer with these listings. *)
Lemma get_skills_history_owner w requester skillId skill :
  head (filter (λ s, s_id s = skillId) (skills w)) = Some skill →
  s_userId skill = requester →
  get_skills_history (Some requester) skillId w
  = (mkResponse 200
       (PSkillHistory
          (merge_sort later_first_sh
             (filter (λ h, sh_skillId h = skillId) (skillHistory w)))), w).
Proof.
  intros Hfound Howner. unfold get_skills_history, ensureAuthenticated.
  rewrite (bind_run (getSkillById skillId) _ w w (Some skill))
    by (unfold getSkillById; by rewrite Hfound).
  by rewrite Howner, Z.eqb_refl.
Qed.

Lemma get_profile_history_self w requester :
  get_profile_history (Some requester) w
  = (mkResponse 200
       (PProfileHistory
          (merge_sort later_first_ph
             (filter (λ h, ph_userId h = requester) (profileHistory w)))), w).
Proof. done. Qed.

(** With a clock that moves on, the listing of the spec's scenario reads
    latest first. *)
Example go_history_listing :
  (get_skills_history (Some 1) 1
     (put_skills (Some 1) 1 (Valid go_expert) go_world).2).1
  = mkResponse 200
      (PSkillHistory
         [mkSkillHistory 4 1 1 "Go" "Expert" 1003 (Some "https://x/y"%string);
          mkSkillHistory 3 1 1 "Go" "Expert" 1002 (Some "https://x/y"%string);
          mkSkillHistory 2 1 1 "Go" "Beginner" 1001 None;
          mkSkillHistory 1 1 1 "Go" "Beginner" 1000 None]).
Proof. vm_compute. reflexivity. Qed.

(** * Further properties *)

(** ** The writing handlers, case by case *)

Lemma post_skills_accepted w requester skillData :
  is_userId skillData = requester →
  let skill :=
    mkSkill (seq_skills w) requester (is_name skillData) (is_level skillData)
            (clock w (reads w))
            (default None (is_certificationUrl skillData)) in
  post_skills (Some requester) (Valid skillData) w
  = (mkResponse 201 (PSkill (Some skill)),
     with_skillHistory
       (mkSkillHistory (seq_skillHistory w + 1) (s_id skill) requester
          (s_name skill) (s_level skill) (clock w (S (reads w)))
          (s_certificationUrl skill))
       (tick
          (with_skillHistory
             (mkSkillHistory (seq_skillHistory w) (s_id skill) requester
                (s_name skill) (s_level skill) (clock w (reads w))
                (s_certificationUrl skill))
             (with_skill skill (tick w))))).
Proof.
  intros <-. unfold post_skills, ensureAuthenticated.
  rewrite Z.eqb_refl. cbn [negb]. simpl.
  by destruct (is_certificationUrl skillData).
Qed.

Lemma post_skills_cases auth body w :
  (post_skills auth body w = ((post_skills auth body w).1, w)
   ∧ status (post_skills auth body w).1 ∈ refusals)
  ∨ ∃ requester skillData,
      auth = Some requester ∧ body = Valid skillData
      ∧ is_userId skillData = requester.
Proof.
  destruct auth as [requester|]; [|left; split; [done | set_solver]].
  destruct body as [message|skillData]; [left; split; [done | set_solver] |].
  destruct (decide (is_userId skillData = requester)) as [Heq|Hne].
  - right. eauto.
  - left. unfold post_skills, ensureAuthenticated.
    apply Z.eqb_neq in Hne. rewrite Hne. split; [done | set_solver].
Qed.

Lemma put_skills_cases auth skillId body w :
  (put_skills auth skillId body w = ((put_skills auth skillId body w).1, w)
   ∧ status (put_skills auth skillId body w).1 ∈ refusals)
  ∨ ∃ requester skillData existingSkill,
      auth = Some requester ∧ body = Valid skillData
      ∧ head (filter (λ s, s_id s = skillId) (skills w)) = Some existingSkill
      ∧ s_userId existingSkill = requester
      ∧ is_userId skillData = requester.
Proof.
  destruct auth as [requester|]; [|left; split; [done | set_solver]].
  destruct body as [message|skillData]; [left; split; [done | set_solver] |].
  destruct (decide (is_userId skillData = requester)) as [Heq|Hne]; last first.
  { left. unfold put_skills, ensureAuthenticated.
    apply Z.eqb_neq in Hne. rewrite Hne. split; [done | set_solver]. }
  destruct (head (filter (λ s, s_id s = skillId) (skills w)))
    as [existingSkill|] eqn:Hfound; last first.
  { left. unfold put_skills, ensureAuthenticated.
    rewrite Heq, Z.eqb_refl. cbn [negb].
    rewrite (bind_run (getSkillById skillId) _ w w None)
      by (unfold getSkillById; by rewrite Hfound).
    split; [done | set_solver]. }
  destruct (decide (s_userId existingSkill = requester)) as [Hown|Hne].
  - right. eauto 10.
  - left. unfold put_skills, ensureAuthenticated.
    rewrite Heq, Z.eqb_refl. cbn [negb].
    rewrite (bind_run (getSkillById skillId) _ w w (Some existingSkill))
      by (unfold getSkillById; by rewrite Hfound).
    apply Z.eqb_neq in Hne. rewrite Hne. split; [done | set_solver].
Qed.

Lemma put_users_profile_cases auth id body w :
  (put_users_profile auth id body w = ((put_users_profile auth id body w).1, w)
   ∧ status (put_users_profile auth id body w).1 ∈ refusals)
  ∨ ∃ cu, auth = Some id
          ∧ head (filter (λ u, u_id u = id) (users w)) = Some cu.
Proof.
  destruct auth as [requester|];
    [|left; rewrite put_users_profile_unauthenticated; split;
      [done | set_solver]].
  destruct (decide (requester = id)) as [->|Hne];
    [|left; rewrite put_users_profile_forbidden by done; split;
      [done | set_solver]].
  destruct (head (filter (λ u, u_id u = id) (users w))) as [cu|] eqn:Hcu;
    [right; eauto |].
  left. rewrite put_users_profile_not_found by done.
  split; [done | set_solver].
Qed.

(** X1. When the texts of the body are ones the database stores, each of the
    three writing handlers of [routes.ts] either accepts the request (200, or
    201 for a creation) or answers 400, 401, 403 or 404 and leaves the store
    exactly as it was: tables, sequences, clock readings and write log. *)
Theorem refused_requests_write_nothing :
  (∀ auth id body w,
     (∀ f, f ∈ updatableFields → storable (prop body f) = true) →
     status (put_users_profile auth id body w).1 = 200
     ∨ ((put_users_profile auth id body w).2 = w
        ∧ status (put_users_profile auth id body w).1 ∈ refusals))
  ∧ (∀ auth body w,
       (∀ skillData, body = Valid skillData →
                     storable_skill skillData = true) →
       status (post_skills auth body w).1 = 201
       ∨ ((post_skills auth body w).2 = w
          ∧ status (post_skills auth body w).1 ∈ refusals))
  ∧ (∀ auth id body w,
       (∀ skillData, body = Valid skillData →
                     storable_skill skillData = true) →
       status (put_skills auth id body w).1 = 200
       ∨ ((put_skills auth id body w).2 = w
          ∧ status (put_skills auth id body w).1 ∈ refusals)).
Proof.
  split; [|split].
  - intros auth id body w _.
    destruct (put_users_profile_cases auth id body w)
      as [[Hw Hst]|(cu & -> & Hcu)].
    + right. rewrite Hw at 1. done.
    + left. destruct (put_users_profile_owner w id body cu Hcu)
        as (srows & rrows & w' & -> & _). done.
  - intros auth body w _.
    destruct (post_skills_cases auth body w)
      as [[Hw Hst]|(requester & skillData & -> & -> & Hdata)].
    + right. rewrite Hw at 1. done.
    + left. by rewrite post_skills_accepted.
  - intros auth id body w _.
    destruct (put_skills_cases auth id body w)
      as [[Hw Hst]|(requester & skillData & existingSkill & -> & -> & Hfound
                    & Hown & Hdata)].
    + right. rewrite Hw at 1. done.
    + left. by rewrite (put_skills_owner w requester id skillData existingSkill).
Qed.

Lemma refused_requests_write_nothing_witness :
  ((∀ f, f ∈ updatableFields → storable (prop role_engineer f) = true)
   ∧ (status (put_users_profile (Some 2) 1 role_engineer
                (demo_world ticking)).1 = 200
      ∨ ((put_users_profile (Some 2) 1 role_engineer (demo_world ticking)).2
         = demo_world ticking
         ∧ status (put_users_profile (Some 2) 1 role_engineer
                     (demo_world ticking)).1 ∈ refusals)))
  ∧ ((∀ skillData, Valid go_beginner = Valid skillData →
                   storable_skill skillData = true)
     ∧ (status (post_skills (Some 1) (Valid go_beginner)
                  (demo_world ticking)).1 = 201
        ∨ ((post_skills (Some 1) (Valid go_beginner) (demo_world ticking)).2
           = demo_world ticking
           ∧ status (post_skills (Some 1) (Valid go_beginner)
                       (demo_world ticking)).1 ∈ refusals))).
Proof.
  assert (∀ f, f ∈ updatableFields → storable (prop role_engineer f) = true)
    as Hbody by (intros f Hf; each_field Hf; reflexivity).
  assert (∀ skillData, Valid go_beginner = Valid skillData →
                       storable_skill skillData = true) as Hskill
    by (intros skillData [= <-]; reflexivity).
  split; (split; [assumption |]).
  - apply (proj1 refused_requests_write_nothing (Some 2) 1 role_engineer
             (demo_world ticking) Hbody).
  - apply (proj1 (proj2 refused_requests_write_nothing) (Some 1)
             (Valid go_beginner) (demo_world ticking) Hskill).
Defined.

(** ** What a request does to the tables *)

(** What an accepted skill update leaves behind, table by table. *)
Lemma put_skills_owner_tables w requester skillId skillData existingSkill :
  head (filter (λ s, s_id s = skillId) (skills w)) = Some existingSkill →
  s_userId existingSkill = requester →
  is_userId skillData = requester →
  ∃ rows t,
    let w' := (put_skills (Some requester) skillId (Valid skillData) w).2 in
    users w' = users w
    ∧ profileHistory w' = profileHistory w
    ∧ seq_users w' = seq_users w
    ∧ seq_skills w' = seq_skills w
    ∧ seq_profileHistory w' = seq_profileHistory w
    ∧ skills w'
      = (fun s => if decide (s_id s = skillId)
                  then set_skill (as_updates skillData) t s else s)
          <$> skills w
    ∧ skillHistory w' = skillHistory w ++ rows
    ∧ seq_skillHistory w' = seq_skillHistory w + Z.of_nat (length rows)
    ∧ sh_id <$> rows
      = (fun i => seq_skillHistory w + Z.of_nat i) <$> seq 0 (length rows)
    ∧ Forall (λ h, sh_skillId h = skillId ∧ sh_userId h = requester) rows.
Proof.
  intros Hfound Hown Hdata.
  rewrite (put_skills_owner w requester skillId skillData existingSkill)
    by done.
  destruct (negb _ || bool_decide _),
    (calls_for_history (as_updates skillData) existingSkill);
    [eexists [_; _], _ | eexists [_], _ | eexists [_], _ | eexists [], _];
    simpl; rewrite ?app_nil_r, ?Z.add_0_r, <- ?app_assoc;
    repeat split; try reflexivity; try lia;
    repeat constructor; simpl; rewrite ?Z.add_0_r; auto.
Qed.

Lemma add_profile_rows_after rows n w :
  add_profile_rows rows n w
  = after_profile_rows rows n
      (seq_profileHistory w + Z.of_nat (length rows)) w.
Proof. done. Qed.

Lemma profile_rows_added_refl id w : profile_rows_added id w w.
Proof.
  exists [], 0%nat, (seq_profileHistory w).
  split; [|split; [apply NoDup_nil_2 | split; [done | split; [lia | done]]]].
  destruct w. unfold after_profile_rows. simpl. by rewrite !app_nil_r.
Qed.

Lemma profile_rows_added_tick id w : profile_rows_added id w (tick w).
Proof.
  exists [], 1%nat, (seq_profileHistory w).
  split; [|split; [apply NoDup_nil_2 | split; [done | split; [lia | done]]]].
  unfold after_profile_rows, tick. simpl. by rewrite !app_nil_r.
Qed.

Lemma profile_rows_added_trans id w1 w2 w3 :
  profile_rows_added id w1 w2 → profile_rows_added id w2 w3 →
  profile_rows_added id w1 w3.
Proof.
  intros (rows1 & n1 & next1 & -> & Hnd1 & Hin1 & Hle1 & Hu1)
         (rows2 & n2 & next2 & -> & Hnd2 & Hin2 & Hle2 & Hu2).
  simpl in Hin2, Hle2.
  exists (rows1 ++ rows2), (n2 + n1)%nat, next2.
  rewrite Forall_forall in Hin1. rewrite Forall_forall in Hin2.
  split; [|split; [|split; [|split]]].
  - unfold after_profile_rows. simpl.
    rewrite fmap_app, !app_assoc. f_equal. lia.
  - rewrite fmap_app. apply NoDup_app. split; [done |]. split; [|done].
    intros i (h1 & -> & Hh1)%list_elem_of_fmap (h2 & Heq & Hh2)%list_elem_of_fmap.
    specialize (Hin1 h1 Hh1). specialize (Hin2 h2 Hh2). lia.
  - apply Forall_app. split; apply Forall_forall; intros h Hh.
    + specialize (Hin1 h Hh). lia.
    + specialize (Hin2 h Hh). lia.
  - lia.
  - by apply Forall_app.
Qed.

Lemma profile_row_added id row w :
  ph_id row = seq_profileHistory w → ph_userId row = id →
  profile_rows_added id w (with_profileHistory row w).
Proof.
  intros Hid Huser. exists [row], 0%nat, (seq_profileHistory w + 1).
  split; [done |]. split; [apply NoDup_singleton |].
  split; [repeat constructor; lia |]. split; [lia |].
  by repeat constructor.
Qed.

Lemma createProfileHistory_rows_added e w :
  profile_rows_added (iph_userId e) w (createProfileHistory e w).2.
Proof.
  unfold createProfileHistory.
  destruct (pg_text (iph_newValue e)) as [newValue|].
  - destruct (iph_updatedAt e) as [t|]; simpl.
    + by apply profile_row_added.
    + eapply profile_rows_added_trans; [apply profile_rows_added_tick |].
      by apply profile_row_added.
  - exists [], 0%nat, (seq_profileHistory w + 1).
    split; [|split; [apply NoDup_nil_2 | split; [done | split; [lia | done]]]].
    unfold after_profile_rows, without_profileHistory_id. simpl.
    by rewrite !app_nil_r.
Qed.

Lemma bind_world {A B} (c : M A) (k : A → M B) w :
  (bind c k w).2
  = match (c w).1 with
    | Ok a => (k a (c w).2).2
    | Throw _ => (c w).2
    end.
Proof. unfold bind. by destruct (c w) as [[a|e] w']. Qed.

Lemma rows_added_bind {A B} id (c : M A) (k : A → M B) w :
  profile_rows_added id w (c w).2 →
  (∀ a, profile_rows_added id (c w).2 (k a (c w).2).2) →
  profile_rows_added id w (bind c k w).2.
Proof.
  intros Hc Hk. rewrite bind_world. destruct (c w).1; [|done].
  eapply profile_rows_added_trans; [exact Hc | apply Hk].
Qed.

Lemma track_changes_rows_added id cu updates fields : ∀ w,
  profile_rows_added id w (track_changes id cu updates fields w).2.
Proof.
  induction fields as [|f fields IH]; intros w; simpl.
  - apply profile_rows_added_refl.
  - apply rows_added_bind; [|intros; apply IH].
    destruct (_ && _); [|apply profile_rows_added_refl].
    apply rows_added_bind; [apply profile_rows_added_tick |].
    intros t. apply rows_added_bind; [|intros; apply profile_rows_added_refl].
    apply (createProfileHistory_rows_added
             (mkInsertProfileHistory id f _ _ _)).
Qed.

Lemma create_entries_rows_added id entries : ∀ w,
  Forall (λ e, iph_userId e = id) entries →
  profile_rows_added id w (create_entries entries w).2.
Proof.
  induction entries as [|e entries IH]; intros w Hall; simpl.
  - apply profile_rows_added_refl.
  - apply Forall_cons in Hall as [<- Hall].
    apply rows_added_bind; [|intros; by apply IH].
    apply createProfileHistory_rows_added.
Qed.

(** What [updateUser] can do to the world, whatever it is given and whether
    or not it throws: rows for that user go into [profile_history], and
    then, at most, the rows of [users] with that id are rewritten. *)
Lemma updateUser_effect id updates w :
  ∃ w0,
    profile_rows_added id w w0
    ∧ ((updateUser id updates w).2 = w0
       ∨ ∃ cu g,
           head (filter (λ u, u_id u = id) (users w)) = Some cu
           ∧ set_user updates = Some g
           ∧ updateUser id updates w
             = (Ok (Some (g cu)), with_users_updated id g w0)).
Proof.
  unfold updateUser.
  destruct (head (filter (λ u, u_id u = id) (users w))) as [cu|] eqn:Hcu.
  - rewrite (bind_run (getUser id) _ w w (Some cu))
      by (unfold getUser; by rewrite Hcu).
    exists (track_changes id cu updates fieldsToTrack w).2.
    split; [apply track_changes_rows_added |].
    pose proof (track_changes_rows_added id cu updates fieldsToTrack w)
      as (rows & n & next & Hw0 & _).
    destruct (track_changes id cu updates fieldsToTrack w) as [[[]|e] w0]
      eqn:Htrack; cbn [fst snd] in *.
    + rewrite (bind_run _ _ _ _ _ Htrack).
      unfold bind, update_users.
      destruct (forallb _ _); [by left |].
      destruct (set_user updates) as [g|] eqn:Hset; [|by left].
      right. exists cu, g. split; [done |]. split; [done |].
      unfold ret. f_equal. f_equal. subst w0. simpl.
      by apply head_fmap_Some.
    + left. unfold bind. by rewrite Htrack.
  - exists w. split; [apply profile_rows_added_refl |]. left.
    rewrite (bind_run (getUser id) _ w w None)
      by (unfold getUser; by rewrite Hcu).
    done.
Qed.

Lemma caught_world {A R} (x : Result A * World) (ok : A → R) (failure : R) :
  (let (r0, w') := x in
   match r0 with
   | Ok r => (ok r, w')
   | Throw _ => (failure, w')
   end).2 = x.2.
Proof. by destruct x as [[a|e] w']. Qed.

(** The same for the whole of [PUT /api/users/:id/profile]. *)
Lemma put_users_profile_effect auth id body w :
  ∃ w0 w1,
    profile_rows_added id w w0
    ∧ (w1 = w0
       ∨ ∃ cu, head (filter (λ u, u_id u = id) (users w)) = Some cu
               ∧ w1 = with_users_updated id (apply_profile cu body) w0)
    ∧ profile_rows_added id w1 (put_users_profile auth id body w).2.
Proof.
  destruct (put_users_profile_cases auth id body w)
    as [[Hw _]|(cu & -> & Hcu)].
  { exists w, w. rewrite Hw. simpl.
    split; [apply profile_rows_added_refl |].
    split; [by left | apply profile_rows_added_refl]. }
  destruct (decide (filter (λ f, changed cu body f) updatableFields = []))
    as [Hch|Hch].
  { exists w, w. rewrite (put_users_profile_unchanged w id body cu) by done.
    split; [apply profile_rows_added_refl |].
    split; [by left | apply profile_rows_added_refl]. }
  unfold put_users_profile, ensureAuthenticated.
  rewrite Z.eqb_refl. cbn [negb].
  rewrite (bind_run (getUser id) _ w w (Some cu))
    by (unfold getUser; by rewrite Hcu).
  rewrite collect_changes_run, size_updates_of.
  rewrite (bool_decide_eq_false_2 _ Hch). cbn [negb orb].
  fold (profile_updates cu body). simpl app.
  destruct (updateUser_effect id (profile_updates cu body) w)
    as (w0 & Hw0 & [Hstop|(cu' & g & Hcu' & Hset & Hrun)]).
  - exists w0, w0. split; [done |]. split; [by left |].
    destruct (updateUser id (profile_updates cu body) w) as [[u|e] w0']
      eqn:Hupd; cbn [snd] in Hstop; subst w0'.
    + rewrite (bind_run _ _ _ _ _ Hupd).
      set (entries := entry_of id cu body <$> _).
      pose proof (create_entries_rows_added id entries w0) as Hent.
      rewrite (caught_world _ (λ r, r)), bind_world.
      destruct (create_entries entries w0) as [[[]|e] w2]; cbn [fst snd] in *;
        apply Hent; subst entries; apply Forall_fmap, Forall_forall; done.
    + rewrite (caught_world _ (λ r, r)). unfold bind. rewrite Hupd. cbn [snd].
      apply profile_rows_added_refl.
  - rewrite set_user_profile_updates in Hset. injection Hset as <-.
    exists w0, (with_users_updated id (apply_profile cu body) w0).
    split; [done |]. split; [right; eauto |].
    rewrite (bind_run _ _ _ _ _ Hrun).
    set (entries := entry_of id cu body <$> _).
    pose proof (create_entries_rows_added id entries
                  (with_users_updated id (apply_profile cu body) w0)) as Hent.
    rewrite (caught_world _ (λ r, r)), bind_world.
    destruct (create_entries entries _) as [[[]|e] w2]; cbn [fst snd] in *;
      apply Hent; subst entries; apply Forall_fmap, Forall_forall; done.
Qed.

(** ** [POST /api/register] and [POST /api/forgot-password], case by case *)

Lemma head_filter_None {A} (P : A → Prop) `{!∀ x, Decision (P x)}
    (l : list A) :
  head (filter P l) = None ↔ Forall (λ x, ¬ P x) l.
Proof.
  split.
  - intros Hnone. apply Forall_forall. intros x Hx HP.
    assert (x ∈ filter P l) as Hin by (apply list_elem_of_filter; auto).
    destruct (filter P l); [by apply elem_of_nil in Hin | done].
  - intros Hall. by rewrite filter_nil_Forall.
Qed.

Lemma head_filter_is_Some {A} (P : A → Prop) `{!∀ x, Decision (P x)}
    (l : list A) (x : A) :
  x ∈ l → P x → is_Some (head (filter P l)).
Proof.
  intros Hx HP.
  assert (x ∈ filter P l) as Hin by (apply list_elem_of_filter; auto).
  destruct (filter P l); [by apply elem_of_nil in Hin | by eexists].
Qed.

Lemma head_filter_elem {A} (P : A → Prop) `{!∀ x, Decision (P x)}
    (l : list A) (x : A) :
  head (filter P l) = Some x → x ∈ l ∧ P x.
Proof.
  intros Hhd. assert (x ∈ filter P l) as Hin.
  { destruct (filter P l); simplify_eq/=. by left. }
  apply list_elem_of_filter in Hin. tauto.
Qed.

Lemma prop_password (v : jsval) k :
  prop ({[ "password"%string := v ]} : gmap string jsval) k
  = if decide (k = "password"%string) then v else JUndefined.
Proof.
  unfold prop. case_decide as Hk.
  - subst k. by rewrite lookup_singleton_eq.
  - by rewrite lookup_singleton_ne.
Qed.

Lemma set_user_password hashedPassword :
  set_user {[ "password"%string := JStr hashedPassword ]}
  = Some (set_password hashedPassword).
Proof. unfold set_user. rewrite !prop_password. done. Qed.

Lemma updateUser_password w id hashedPassword :
  is_Some (head (filter (λ u, u_id u = id) (users w))) →
  ∃ cu,
    head (filter (λ u, u_id u = id) (users w)) = Some cu
    ∧ updateUser id {[ "password"%string := JStr hashedPassword ]} w
      = (Ok (Some (set_password hashedPassword cu)),
         with_users_updated id (set_password hashedPassword) w).
Proof.
  intros [cu Hcu]. exists cu. split; [done |].
  destruct (updateUser_run w id {[ "password"%string := JStr hashedPassword ]}
              cu (set_password hashedPassword) Hcu)
    as (srows & Hrun & Hrows).
  - intros f Hf. unfold tracked. rewrite prop_password.
    each_field Hf; done.
  - apply not_true_iff_false. intros Hall. rewrite forallb_forall in Hall.
    specialize (Hall "password"%string). rewrite prop_password in Hall.
    simpl in Hall. discriminate Hall. auto 10.
  - apply set_user_password.
  - assert (filter
              (λ f, tracked cu {[ "password"%string := JStr hashedPassword ]} f)
              fieldsToTrack = []) as Hnone.
    { apply filter_nil_Forall, Forall_forall. intros f Hf.
      unfold tracked. rewrite prop_password. each_field Hf; by intros []. }
    rewrite Hnone in Hrows. apply Forall2_nil_inv_l in Hrows as ->.
    by rewrite add_profile_rows_nil in Hrun.
Qed.

Lemma post_register_cases body rolls hashedPassword w :
  (post_register body rolls hashedPassword w
   = ((post_register body rolls hashedPassword w).1, w)
   ∧ r_status (o_reply (post_register body rolls hashedPassword w).1) = 400
   ∧ o_mails (post_register body rolls hashedPassword w).1 = []
   ∧ o_login (post_register body rolls hashedPassword w).1 = None)
  ∨ ∃ userData,
      body = ValidUser userData
      ∧ (iu_email userData ∉ u_email <$> users w)
      ∧ post_register body rolls hashedPassword w
        = (mkOutcome
             (mkReply 201 (BUser (registered w userData hashedPassword)))
             [mkMail (JStr (iu_email userData))
                     (generateTemporaryPassword rolls)]
             (Some (registered w userData hashedPassword)),
           with_user (registered w userData hashedPassword) w).
Proof.
  destruct body as [message|userData]; [by left |].
  unfold post_register, outcome.
  destruct (head (filter (λ u, u_email u = iu_email userData) (users w)))
    as [existing|] eqn:Hex.
  - left. rewrite (bind_run (getUserByEmail _) _ w w (Some existing))
      by (unfold getUserByEmail; by rewrite Hex). done.
  - right. exists userData. split; [done |].
    assert (iu_email userData ∉ (u_email <$> users w)) as Hfresh.
    { apply head_filter_None in Hex. rewrite Forall_forall in Hex.
      intros (u & Hu & Hin)%list_elem_of_fmap. by apply (Hex u). }
    split; [done |].
    rewrite (bind_run (getUserByEmail _) _ w w None)
      by (unfold getUserByEmail; by rewrite Hex).
    unfold bind, createUser. simpl.
    by rewrite bool_decide_eq_false_2.
Qed.

Lemma post_forgot_password_cases body rolls hashedPassword w :
  (post_forgot_password body rolls hashedPassword w
   = ((post_forgot_password body rolls hashedPassword w).1, w)
   ∧ o_mails (post_forgot_password body rolls hashedPassword w).1 = [])
  ∨ ∃ u,
      truthy (prop body "email") = true
      ∧ head (filter (λ u, u_email u = as_text (prop body "email")) (users w))
        = Some u
      ∧ post_forgot_password body rolls hashedPassword w
        = (mkOutcome (mkReply 200 (BMessage reset_message))
             [mkMail (prop body "email") (generateTemporaryPassword rolls)]
             None,
           with_users_updated (u_id u) (set_password hashedPassword) w).
Proof.
  unfold post_forgot_password, outcome.
  destruct (truthy (prop body "email")) eqn:Htruthy; [|by left].
  cbn [negb].
  destruct (head (filter (λ u, u_email u = as_text (prop body "email"))
                    (users w))) as [u|] eqn:Hu.
  - right. exists u. split; [done |]. split; [done |].
    rewrite (bind_run (getUserByEmail _) _ w w (Some u))
      by (unfold getUserByEmail; by rewrite Hu).
    destruct (updateUser_password w (u_id u) hashedPassword)
      as (cu & Hcu & Hrun).
    { apply head_filter_elem in Hu as [Hin _].
      by apply (head_filter_is_Some _ _ u). }
    by rewrite (bind_run _ _ _ _ _ Hrun).
  - left. rewrite (bind_run (getUserByEmail _) _ w w None)
      by (unfold getUserByEmail; by rewrite Hu). done.
Qed.

(** ** What one request preserves *)

Lemma ids_below_app ids next news :
  ids_below ids next →
  news = (fun i => next + Z.of_nat i) <$> seq 0 (length news) →
  ids_below (ids ++ news) (next + Z.of_nat (length news)).
Proof.
  intros [Hnd Hlt] Hnews. rewrite Forall_forall in Hlt.
  assert (∀ x, x ∈ news → next ≤ x < next + Z.of_nat (length news)) as Hrange.
  { intros x Hx. rewrite Hnews in Hx.
    apply list_elem_of_fmap in Hx as (i & -> & Hi).
    apply elem_of_seq in Hi. lia. }
  split.
  - apply NoDup_app. split; [done |]. split.
    + intros x Hx Hx'. specialize (Hlt x Hx). specialize (Hrange x Hx'). lia.
    + rewrite Hnews. apply NoDup_fmap_2; [|apply NoDup_seq].
      intros i j Hij. lia.
  - apply Forall_app. split; apply Forall_forall; intros x Hx.
    + specialize (Hlt x Hx). lia.
    + specialize (Hrange x Hx). lia.
Qed.

Lemma ids_below_snoc ids next :
  ids_below ids next → ids_below (ids ++ [next]) (next + 1).
Proof.
  intros H. apply (ids_below_app ids next [next] H). simpl.
  by rewrite Z.add_0_r.
Qed.

Lemma fmap_updated_same {A K} (key : A → K) (P : A → Prop)
    `{!∀ x, Decision (P x)} (g : A → A) (l : list A) :
  (∀ x, x ∈ l → P x → key (g x) = key x) →
  key <$> ((fun x => if decide (P x) then g x else x) <$> l) = key <$> l.
Proof.
  intros Hkey. rewrite <- list_fmap_compose.
  apply list_fmap_ext. intros i x Hx. simpl. case_decide; [|done].
  apply Hkey; [|done]. by eapply list_elem_of_lookup_2.
Qed.

Lemma serial_ids_profile_rows_added id w w' :
  profile_rows_added id w w' → serial_ids w → serial_ids w'.
Proof.
  intros (rows & n & next & -> & Hnd & Hin & Hle & _) (Hu & Hs & Hsh & Hph).
  split; [exact Hu |]. split; [exact Hs |]. split; [exact Hsh |].
  destruct Hph as [Hnd0 Hlt]. simpl. rewrite fmap_app.
  rewrite Forall_forall in Hin. rewrite Forall_forall in Hlt.
  split.
  - apply NoDup_app. split; [done |]. split; [|done].
    intros i Hi (h & -> & Hh)%list_elem_of_fmap.
    specialize (Hlt _ Hi). specialize (Hin h Hh). lia.
  - apply Forall_app. split; apply Forall_forall.
    + intros i Hi. specialize (Hlt i Hi). lia.
    + intros i (h & -> & Hh)%list_elem_of_fmap. specialize (Hin h Hh). lia.
Qed.

Lemma serial_ids_users_updated id g w :
  (∀ u, u_id (g u) = u_id u) → serial_ids w →
  serial_ids (with_users_updated id g w).
Proof.
  intros Hg (Hu & Hs & Hsh & Hph).
  split; [|by split]. simpl.
  by rewrite (fmap_updated_same u_id) by auto.
Qed.

Lemma serial_ids_tick w : serial_ids w → serial_ids (tick w).
Proof. done. Qed.

Lemma serial_ids_with_skill row w :
  s_id row = seq_skills w → serial_ids w → serial_ids (with_skill row w).
Proof.
  intros Hid (Hu & Hs & Hsh & Hph).
  split; [exact Hu |]. split; [|by split]. simpl.
  rewrite fmap_app. simpl. rewrite Hid. by apply ids_below_snoc.
Qed.

Lemma serial_ids_with_skillHistory row w :
  sh_id row = seq_skillHistory w → serial_ids w →
  serial_ids (with_skillHistory row w).
Proof.
  intros Hid (Hu & Hs & Hsh & Hph).
  split; [exact Hu |]. split; [exact Hs |]. split; [|exact Hph]. simpl.
  rewrite fmap_app. simpl. rewrite Hid. by apply ids_below_snoc.
Qed.

Lemma serial_ids_with_user row w :
  u_id row = seq_users w → serial_ids w → serial_ids (with_user row w).
Proof.
  intros Hid (Hu & Hs & Hsh & Hph).
  split; [|by split]. simpl.
  rewrite fmap_app. simpl. rewrite Hid. by apply ids_below_snoc.
Qed.

Lemma apply_profile_id cu body u : u_id (apply_profile cu body u) = u_id u.
Proof. done. Qed.

Lemma step_serial_ids w request : serial_ids w → serial_ids (step w request).
Proof.
  intros Hw. destruct request as [session [id body|body|id body|body rolls h|body rolls h]];
    unfold step; cbn [fst snd].
  - destruct (put_users_profile_effect (u_id <$> req_user session w) id body w)
      as (w0 & w1 & H0 & H1 & H2).
    eapply serial_ids_profile_rows_added; [exact H2 |].
    destruct H1 as [->|(cu & _ & ->)].
    + by eapply serial_ids_profile_rows_added.
    + apply serial_ids_users_updated; [done |].
      by eapply serial_ids_profile_rows_added.
  - destruct (post_skills_cases (u_id <$> req_user session w) body w)
      as [[-> _]|(requester & skillData & -> & -> & Hdata)]; [done |].
    rewrite post_skills_accepted by done. cbn [snd].
    apply serial_ids_with_skillHistory; [done |]. apply serial_ids_tick.
    apply serial_ids_with_skillHistory; [done |].
    by apply serial_ids_with_skill.
  - destruct (put_skills_cases (u_id <$> req_user session w) id body w)
      as [[-> _]|(requester & skillData & existingSkill & -> & -> & Hfound
                  & Hown & Hdata)]; [done |].
    destruct (put_skills_owner_tables w requester id skillData existingSkill
                Hfound Hown Hdata)
      as (rows & t & Hu & Hph & Hsu & Hss & Hsp & Hsk & Hsh & Hssh & Hnum & _).
    destruct Hw as (Wu & Ws & Wsh & Wph).
    unfold serial_ids. rewrite Hu, Hph, Hsu, Hss, Hsp, Hsk, Hsh, Hssh.
    split; [exact Wu |]. split; [|split; [|exact Wph]].
    + by rewrite (fmap_updated_same s_id) by done.
    + rewrite fmap_app, <- (length_fmap sh_id rows).
      apply ids_below_app; [done |]. by rewrite length_fmap.
  - destruct (post_register_cases body rolls h w)
      as [[-> _]|(userData & -> & _ & ->)]; [done |].
    by apply serial_ids_with_user.
  - destruct (post_forgot_password_cases body rolls h w)
      as [[-> _]|(u & _ & _ & ->)]; [done |].
    by apply serial_ids_users_updated.
Qed.

Lemma NoDup_fmap_inj_elem {A K} (key : A → K) (l : list A) (x y : A) :
  NoDup (key <$> l) → x ∈ l → y ∈ l → key x = key y → x = y.
Proof.
  induction l as [|a l IH]; intros Hnd Hx Hy Hkey.
  - by apply elem_of_nil in Hx.
  - rewrite fmap_cons in Hnd. apply NoDup_cons in Hnd as [Ha Hnd].
    apply elem_of_cons in Hx as [->|Hx], Hy as [->|Hy]; [done | | |by apply IH].
    + exfalso. apply Ha. rewrite Hkey. by apply list_elem_of_fmap_2.
    + exfalso. apply Ha. rewrite <- Hkey. by apply list_elem_of_fmap_2.
Qed.

Lemma elem_of_user_ids w i :
  i ∈ user_ids w ↔ ∃ u, u ∈ users w ∧ u_id u = i.
Proof.
  unfold user_ids. rewrite list_elem_of_fmap. split.
  - intros (u & -> & Hu). eauto.
  - intros (u & Hu & <-). eauto.
Qed.

Lemma elem_of_skill_keys w i j :
  (i, j) ∈ skill_keys w ↔ ∃ s, s ∈ skills w ∧ s_id s = i ∧ s_userId s = j.
Proof.
  unfold skill_keys. rewrite list_elem_of_fmap. split.
  - intros (s & [= -> ->] & Hs). eauto.
  - intros (s & Hs & <- & <-). eauto.
Qed.

Lemma references_keys w :
  references w
  ↔ Forall (λ k, k.2 ∈ user_ids w) (skill_keys w)
    ∧ Forall (λ h, (sh_skillId h, sh_userId h) ∈ skill_keys w) (skillHistory w)
    ∧ Forall (λ h, ph_userId h ∈ user_ids w) (profileHistory w).
Proof.
  unfold references. unfold skill_keys at 1. rewrite Forall_fmap.
  rewrite !Forall_forall.
  split; intros (H1 & H2 & H3); (split; [|split]); intros x Hx; simpl.
  - apply elem_of_user_ids. auto.
  - apply elem_of_skill_keys. auto.
  - apply elem_of_user_ids. auto.
  - apply elem_of_user_ids. by apply H1.
  - apply elem_of_skill_keys. by apply H2.
  - apply elem_of_user_ids. by apply H3.
Qed.

(** The one way in which every request moves the tables: user ids stay,
    skills and history rows are added, and what is added refers to what is
    there. *)
Lemma references_extended w w' new_keys sh_rows ph_rows :
  references w →
  (∀ i, i ∈ user_ids w → i ∈ user_ids w') →
  skill_keys w' = skill_keys w ++ new_keys →
  Forall (λ k, k.2 ∈ user_ids w') new_keys →
  skillHistory w' = skillHistory w ++ sh_rows →
  Forall (λ h, (sh_skillId h, sh_userId h) ∈ skill_keys w') sh_rows →
  profileHistory w' = profileHistory w ++ ph_rows →
  Forall (λ h, ph_userId h ∈ user_ids w') ph_rows →
  references w'.
Proof.
  rewrite !references_keys.
  intros (H1 & H2 & H3) Hu Hk Hnk Hsh Hnsh Hph Hnph.
  rewrite Hsh, Hph, Hk at 1. rewrite !Forall_app.
  split; [split; [|done] | split; (split; [|done])].
  - eapply Forall_impl; [exact H1 |]. simpl. auto.
  - eapply Forall_impl; [exact H2 |]. simpl. intros h Hh.
    rewrite Hk. apply elem_of_app. by left.
  - eapply Forall_impl; [exact H3 |]. simpl. auto.
Qed.

Lemma profile_rows_added_tables id w w' :
  profile_rows_added id w w' →
  ∃ rows,
    users w' = users w ∧ skills w' = skills w
    ∧ skillHistory w' = skillHistory w
    ∧ profileHistory w' = profileHistory w ++ rows
    ∧ Forall (λ h, ph_userId h = id) rows.
Proof. intros (rows & n & next & -> & _ & _ & _ & Hid). by exists rows. Qed.

(** What [PUT /api/users/:id/profile] leaves behind, table by table. *)
Lemma put_users_profile_tables auth id body w :
  ∃ rows,
    let w' := (put_users_profile auth id body w).2 in
    identity_columns <$> users w' = identity_columns <$> users w
    ∧ skills w' = skills w
    ∧ skillHistory w' = skillHistory w
    ∧ profileHistory w' = profileHistory w ++ rows
    ∧ Forall (λ h, ph_userId h = id) rows
    ∧ (rows = [] ∨ id ∈ user_ids w).
Proof.
  destruct (put_users_profile_cases auth id body w)
    as [[Hw _]|(cu & -> & Hcu)].
  { exists []. rewrite Hw. simpl. rewrite app_nil_r. auto 10. }
  destruct (put_users_profile_effect (Some id) id body w)
    as (w0 & w1 & H0 & H1 & H2).
  apply profile_rows_added_tables in H0 as (rows0 & U0 & S0 & SH0 & PH0 & I0).
  apply profile_rows_added_tables in H2 as (rows2 & U2 & S2 & SH2 & PH2 & I2).
  exists (rows0 ++ rows2). cbn zeta.
  rewrite U2, S2, SH2, PH2.
  assert (identity_columns <$> users w1 = identity_columns <$> users w
          ∧ skills w1 = skills w ∧ skillHistory w1 = skillHistory w
          ∧ profileHistory w1 = profileHistory w ++ rows0)
    as (-> & -> & -> & ->).
  { destruct H1 as [->|(cu' & _ & ->)]; [by rewrite U0 |].
    simpl. rewrite U0, S0, SH0, PH0.
    by rewrite (fmap_updated_same identity_columns). }
  rewrite <- app_assoc. repeat split; try done.
  - by apply Forall_app.
  - right. apply head_filter_elem in Hcu as [Hin <-].
    apply list_elem_of_fmap. eauto.
Qed.

Lemma user_ids_identity w w' :
  identity_columns <$> users w' = identity_columns <$> users w →
  user_ids w' = user_ids w.
Proof.
  intros Hid. unfold user_ids.
  change u_id with (fst ∘ fst ∘ identity_columns).
  by rewrite !(list_fmap_compose identity_columns), Hid.
Qed.

Lemma emails_identity w w' :
  identity_columns <$> users w' = identity_columns <$> users w →
  u_email <$> users w' = u_email <$> users w.
Proof.
  intros Hid.
  change u_email with (snd ∘ fst ∘ identity_columns).
  by rewrite !(list_fmap_compose identity_columns), Hid.
Qed.

Lemma req_user_id session w requester :
  u_id <$> req_user session w = Some requester → requester ∈ user_ids w.
Proof.
  unfold req_user, deserializeUser, getUser.
  destruct session as [id|]; [|done]. simpl.
  destruct (head _) as [u|] eqn:Hu; [|done].
  intros [= <-]. apply head_filter_elem in Hu as [Hin _].
  apply list_elem_of_fmap. eauto.
Qed.

Lemma skill_keys_updated w skillId requester skillData t existingSkill :
  NoDup (s_id <$> skills w) →
  head (filter (λ s, s_id s = skillId) (skills w)) = Some existingSkill →
  s_userId existingSkill = requester →
  is_userId skillData = requester →
  (fun s => (s_id s, s_userId s))
    <$> ((fun s => if decide (s_id s = skillId)
                   then set_skill (as_updates skillData) t s else s)
           <$> skills w)
  = (fun s => (s_id s, s_userId s)) <$> skills w.
Proof.
  intros Hnd Hfound Hown Hdata.
  apply (fmap_updated_same (fun s => (s_id s, s_userId s))).
  intros s Hs Hid. simpl. f_equal. rewrite Hdata, <- Hown.
  apply head_filter_elem in Hfound as [Hin Hid'].
  f_equal. symmetry.
  apply (NoDup_fmap_inj_elem s_id (skills w)); [done | done | done |].
  congruence.
Qed.

Lemma step_unique_emails w request :
  unique_emails w → unique_emails (step w request).
Proof.
  unfold unique_emails. intros Hw.
  destruct request as [session [id body|body|id body|body rolls h|body rolls h]];
    unfold step; cbn [fst snd].
  - destruct (put_users_profile_tables (u_id <$> req_user session w) id body w)
      as (rows & Hid & _).
    by rewrite (emails_identity _ _ Hid).
  - destruct (post_skills_cases (u_id <$> req_user session w) body w)
      as [[-> _]|(requester & skillData & -> & -> & Hdata)]; [done |].
    by rewrite post_skills_accepted.
  - destruct (put_skills_cases (u_id <$> req_user session w) id body w)
      as [[-> _]|(requester & skillData & existingSkill & -> & -> & Hfound
                  & Hown & Hdata)]; [done |].
    destruct (put_skills_owner_tables w requester id skillData existingSkill
                Hfound Hown Hdata) as (rows & t & Hu & _).
    cbn zeta in Hu. by rewrite Hu.
  - destruct (post_register_cases body rolls h w)
      as [[-> _]|(userData & -> & Hfresh & ->)]; [done |].
    simpl. rewrite fmap_app. apply NoDup_app. split; [done |]. split.
    + intros e He [->|[]%elem_of_nil]%elem_of_cons. done.
    + apply NoDup_singleton.
  - destruct (post_forgot_password_cases body rolls h w)
      as [[-> _]|(u & _ & _ & ->)]; [done |].
    simpl. by rewrite (fmap_updated_same u_email).
Qed.

Lemma step_references w request :
  serial_ids w → references w → references (step w request).
Proof.
  intros Hids Hw.
  destruct request as [session [id body|body|id body|body rolls h|body rolls h]];
    unfold step; cbn [fst snd].
  - destruct (put_users_profile_tables (u_id <$> req_user session w) id body w)
      as (rows & Hid & Hs & Hsh & Hph & Hrows & Hex).
    cbn zeta in *. apply user_ids_identity in Hid.
    apply (references_extended w _ [] [] rows); try done.
    + by rewrite Hid.
    + unfold skill_keys. by rewrite Hs, app_nil_r.
    + by rewrite app_nil_r.
    + rewrite Hid. destruct Hex as [->|Hex]; [done |].
      eapply Forall_impl; [exact Hrows |]. simpl. by intros h ->.
  - destruct (post_skills_cases (u_id <$> req_user session w) body w)
      as [[-> _]|(requester & skillData & Hauth & -> & Hdata)]; [done |].
    rewrite Hauth, post_skills_accepted by done. cbn [snd].
    apply req_user_id in Hauth.
    eapply (references_extended w _ [(_, _)] [_; _] []); try done.
    + unfold skill_keys. simpl. rewrite fmap_app. reflexivity.
    + by repeat constructor.
    + simpl. rewrite <- app_assoc. reflexivity.
    + unfold skill_keys. simpl. rewrite fmap_app.
      repeat constructor; simpl; apply elem_of_app; right; by left.
    + simpl. by rewrite app_nil_r.
  - destruct (put_skills_cases (u_id <$> req_user session w) id body w)
      as [[-> _]|(requester & skillData & existingSkill & Hauth & -> & Hfound
                  & Hown & Hdata)]; [done |].
    rewrite Hauth.
    destruct (put_skills_owner_tables w requester id skillData existingSkill
                Hfound Hown Hdata)
      as (rows & t & Hu & Hph & _ & _ & _ & Hsk & Hsh & _ & _ & Hrows).
    cbn zeta in *.
    assert (skill_keys (put_skills (Some requester) id (Valid skillData) w).2
            = skill_keys w) as Hkeys.
    { unfold skill_keys. rewrite Hsk.
      apply (skill_keys_updated w id requester skillData t existingSkill);
        try done. apply Hids. }
    apply (references_extended w _ [] rows []); try done.
    + unfold user_ids. by rewrite Hu.
    + by rewrite app_nil_r.
    + rewrite Hkeys. eapply Forall_impl; [exact Hrows |]. simpl.
      intros h [-> ->]. apply elem_of_skill_keys.
      apply head_filter_elem in Hfound as [Hin Hid]. eauto.
    + by rewrite app_nil_r.
  - destruct (post_register_cases body rolls h w)
      as [[-> _]|(userData & -> & _ & ->)]; [done |].
    apply (references_extended w _ [] [] []); try done; simpl;
      rewrite ?app_nil_r; try done.
    intros i Hi. unfold user_ids. simpl. rewrite fmap_app.
    apply elem_of_app. by left.
  - destruct (post_forgot_password_cases body rolls h w)
      as [[-> _]|(u & _ & _ & ->)]; [done |].
    apply (references_extended w _ [] [] []); try done; simpl;
      rewrite ?app_nil_r; try done.
    intros i Hi. unfold user_ids. simpl.
    by rewrite (fmap_updated_same u_id).
Qed.

Lemma step_history w request :
  skillHistory w `prefix_of` skillHistory (step w request)
  ∧ profileHistory w `prefix_of` profileHistory (step w request).
Proof.
  destruct request as [session [id body|body|id body|body rolls h|body rolls h]];
    unfold step; cbn [fst snd].
  - destruct (put_users_profile_tables (u_id <$> req_user session w) id body w)
      as (rows & _ & _ & Hsh & Hph & _).
    cbn zeta in *. rewrite Hsh, Hph. split; [done | by apply prefix_app_r].
  - destruct (post_skills_cases (u_id <$> req_user session w) body w)
      as [[-> _]|(requester & skillData & -> & -> & Hdata)]; [done |].
    rewrite post_skills_accepted by done. simpl.
    split; [|done]. by do 2 apply prefix_app_r.
  - destruct (put_skills_cases (u_id <$> req_user session w) id body w)
      as [[-> _]|(requester & skillData & existingSkill & -> & -> & Hfound
                  & Hown & Hdata)]; [done |].
    destruct (put_skills_owner_tables w requester id skillData existingSkill
                Hfound Hown Hdata)
      as (rows & t & _ & Hph & _ & _ & _ & _ & Hsh & _).
    cbn zeta in *. rewrite Hsh, Hph. split; [by apply prefix_app_r | done].
  - destruct (post_register_cases body rolls h w)
      as [[-> _]|(userData & -> & _ & ->)]; done.
  - destruct (post_forgot_password_cases body rolls h w)
      as [[-> _]|(u & _ & _ & ->)]; done.
Qed.

(** ** Every sequence of requests *)

(** X2. Whatever requests the server handles, the rows that were in
    [skill_history] and [profile_history] before are still there afterwards,
    unchanged and in the same place: history is only ever appended to. *)
Theorem history_is_append_only requests w :
  skillHistory w `prefix_of` skillHistory (serve requests w)
  ∧ profileHistory w `prefix_of` profileHistory (serve requests w).
Proof.
  revert w. induction requests as [|request requests IH]; intros w; [done |].
  simpl. destruct (step_history w request) as [H1 H2].
  destruct (IH (step w request)) as [H3 H4].
  split; etrans; eauto.
Qed.

(** X3. If in every table the ids are distinct and below the table's
    sequence, this is still so after any sequence of requests. *)
Theorem ids_stay_serial requests w :
  serial_ids w → serial_ids (serve requests w).
Proof.
  revert w. induction requests as [|request requests IH]; intros w Hw; [done |].
  simpl. by apply IH, step_serial_ids.
Qed.

Lemma ids_stay_serial_witness :
  serial_ids (demo_world ticking)
  ∧ serial_ids (serve demo_requests (demo_world ticking)).
Proof.
  assert (serial_ids (demo_world ticking)) as Hserial.
  { unfold serial_ids, ids_below. simpl.
    repeat split; try apply NoDup_nil_2; try apply Forall_nil_2.
    - apply NoDup_singleton.
    - repeat constructor. }
  split; [exact Hserial |].
  apply (ids_stay_serial demo_requests (demo_world ticking) Hserial).
Defined.

(** X4. If no two users share an email, no sequence of requests makes two
    users share one. *)
Theorem emails_stay_unique requests w :
  unique_emails w → unique_emails (serve requests w).
Proof.
  revert w. induction requests as [|request requests IH]; intros w Hw; [done |].
  simpl. by apply IH, step_unique_emails.
Qed.

Lemma emails_stay_unique_witness :
  unique_emails (demo_world ticking)
  ∧ unique_emails (serve demo_requests (demo_world ticking)).
Proof.
  assert (unique_emails (demo_world ticking)) as Hunique
    by apply NoDup_singleton.
  split; [exact Hunique |].
  apply (emails_stay_unique demo_requests (demo_world ticking) Hunique).
Defined.

(** X5. If every skill belongs to an existing user, every skill history row
    to an existing skill and its owner, and every profile history row to an
    existing user, this is still so after any sequence of requests. *)
Theorem references_stay_valid requests w :
  serial_ids w → references w → references (serve requests w).
Proof.
  revert w. induction requests as [|request requests IH]; intros w Hi Hw;
    [done |].
  simpl. apply IH; [by apply step_serial_ids | by apply step_references].
Qed.

Lemma references_stay_valid_witness :
  (serial_ids (demo_world ticking) ∧ references (demo_world ticking))
  ∧ references (serve demo_requests (demo_world ticking)).
Proof.
  assert (serial_ids (demo_world ticking)) as Hserial.
  { unfold serial_ids, ids_below. simpl.
    repeat split; try apply NoDup_nil_2; try apply Forall_nil_2.
    - apply NoDup_singleton.
    - repeat constructor. }
  assert (references (demo_world ticking)) as Href
    by (repeat split; apply Forall_nil_2).
  split; [by split |].
  apply (references_stay_valid demo_requests (demo_world ticking) Hserial Href).
Defined.

(** ** One request at a time *)

Lemma filter_others_updated {A} (key : A → Z) (id : Z) (g : A → A)
    (l : list A) :
  (∀ x, key (g x) = key x) →
  filter (λ x, key x ≠ id) ((fun x => if decide (key x = id) then g x else x)
                             <$> l)
  = filter (λ x, key x ≠ id) l.
Proof.
  intros Hg. induction l as [|a l IH]; [done |].
  rewrite fmap_cons, !filter_cons, IH.
  destruct (decide (key a = id)) as [Ha|Ha].
  - rewrite !decide_False; [done | by intros [] | rewrite Hg; by intros []].
  - by rewrite !decide_True.
Qed.

(** X6. Whatever [PUT /api/users/:id/profile] is sent, the user rows with
    another id are the same rows afterwards, no row is added or removed, the
    skills and the skill history are left alone, and every profile history
    row that is added is about user [id]. *)
Theorem profile_update_touches_one_user auth id body w :
  let w' := (put_users_profile auth id body w).2 in
  filter (λ u, u_id u ≠ id) (users w') ≡ₚ filter (λ u, u_id u ≠ id) (users w)
  ∧ length (users w') = length (users w)
  ∧ skills w' = skills w
  ∧ skillHistory w' = skillHistory w
  ∧ Forall (λ h, ph_userId h = id) (new_profile_rows w w').
Proof.
  cbn zeta.
  destruct (put_users_profile_tables auth id body w)
    as (rows & _ & Hs & Hsh & Hph & Hrows & _).
  cbn zeta in *. unfold new_profile_rows.
  rewrite Hs, Hsh, Hph, drop_app_length.
  assert (∃ g, (∀ u, u_id (g u) = u_id u)
               ∧ users (put_users_profile auth id body w).2
                 = (fun u => if decide (u_id u = id) then g u else u)
                     <$> users w) as (g & Hg & ->).
  { destruct (put_users_profile_cases auth id body w)
      as [[Hw _]|(cu & -> & Hcu)].
    - exists (λ u, u). split; [done |]. rewrite Hw. simpl.
      rewrite <- (list_fmap_id (users w)) at 1. apply list_fmap_ext.
      intros; by case_decide.
    - destruct (put_users_profile_owner w id body cu Hcu)
        as (srows & rrows & w' & -> & Hu & _).
      exists (apply_profile cu body). split; [done | exact Hu]. }
  rewrite length_fmap, (filter_others_updated u_id) by done. done.
Qed.

(** X7. Whatever they are sent, [POST /api/skills] keeps every skill there
    was and adds at most one, and [PUT /api/skills/:id] adds or removes no
    skill, leaves the skills with another id the same rows, and every skill
    history row it adds is about skill [id]. Neither touches the users or
    the profile history. *)
Theorem skill_requests_touch_one_skill auth id body w :
  (let w' := (post_skills auth body w).2 in
   users w' = users w ∧ profileHistory w' = profileHistory w
   ∧ skills w ⊆+ skills w'
   ∧ (length (skills w') ≤ S (length (skills w)))%nat)
  ∧ (let w' := (put_skills auth id body w).2 in
     users w' = users w ∧ profileHistory w' = profileHistory w
     ∧ length (skills w') = length (skills w)
     ∧ filter (λ s, s_id s ≠ id) (skills w')
       ≡ₚ filter (λ s, s_id s ≠ id) (skills w)
     ∧ Forall (λ h, sh_skillId h = id)
              (drop (length (skillHistory w)) (skillHistory w'))).
Proof.
  split; cbn zeta.
  - destruct (post_skills_cases auth body w)
      as [[-> _]|(requester & skillData & -> & -> & Hdata)].
    { cbn [snd]. repeat split; [done | lia]. }
    rewrite post_skills_accepted by done. simpl.
    repeat split.
    + by apply submseteq_inserts_r.
    + rewrite length_app. simpl. lia.
  - destruct (put_skills_cases auth id body w)
      as [[-> _]|(requester & skillData & existingSkill & -> & -> & Hfound
                  & Hown & Hdata)].
    { simpl. rewrite drop_all. repeat split; done. }
    destruct (put_skills_owner_tables w requester id skillData existingSkill
                Hfound Hown Hdata)
      as (rows & t & Hu & Hph & _ & _ & _ & Hsk & Hsh & _ & _ & Hrows).
    cbn zeta in *. rewrite Hu, Hph, Hsk, Hsh, drop_app_length, length_fmap.
    rewrite (filter_others_updated s_id) by done.
    repeat split; try done.
    eapply Forall_impl; [exact Hrows |]. simpl. tauto.
Qed.

(** X8. When skill ids are distinct, [PUT /api/skills/:id] never changes
    which user a skill belongs to, nor any skill's id. *)
Theorem skill_update_keeps_owner auth id body w :
  NoDup (s_id <$> skills w) →
  skill_keys (put_skills auth id body w).2 = skill_keys w.
Proof.
  intros Hnd.
  destruct (put_skills_cases auth id body w)
    as [[-> _]|(requester & skillData & existingSkill & -> & -> & Hfound
                & Hown & Hdata)]; [done |].
  destruct (put_skills_owner_tables w requester id skillData existingSkill
              Hfound Hown Hdata)
    as (rows & t & _ & _ & _ & _ & _ & Hsk & _).
  cbn zeta in *. unfold skill_keys. rewrite Hsk.
  by apply (skill_keys_updated w id requester skillData t existingSkill).
Qed.

Lemma skill_update_keeps_owner_witness :
  NoDup (s_id <$> skills go_world)
  ∧ skill_keys (put_skills (Some 1) 1 (Valid go_expert) go_world).2
    = skill_keys go_world.
Proof.
  assert (NoDup (s_id <$> skills go_world)) as Hdistinct
    by (vm_compute; apply NoDup_singleton).
  split; [exact Hdistinct |].
  apply (skill_update_keeps_owner (Some 1) 1 (Valid go_expert) go_world
           Hdistinct).
Defined.

Lemma filter_below_fresh {A} (key : A → Z) (l : list A) (next : Z) :
  Forall (λ i, i < next) (key <$> l) → filter (λ x, key x = next) l = [].
Proof.
  intros Hlt. apply filter_nil_Forall. rewrite Forall_fmap in Hlt.
  eapply Forall_impl; [exact Hlt |]. simpl. lia.
Qed.

(** X9. A skill with texts the database stores that a user creates for
    themselves is answered with 201, belongs to them, is found again under
    its id, and is listed by their own [GET /api/skills] together with the
    skills they had. *)
Theorem created_skill_is_found w requester skillData :
  ids_below (s_id <$> skills w) (seq_skills w) →
  is_userId skillData = requester →
  storable_skill skillData = true →
  ∃ skill w' listing,
    post_skills (Some requester) (Valid skillData) w
    = (mkResponse 201 (PSkill (Some skill)), w')
    ∧ s_userId skill = requester
    ∧ getSkillById (s_id skill) w' = (Ok (Some skill), w')
    ∧ (get_skills (Some requester) w').1 = mkReply 200 (BSkills listing)
    ∧ listing ≡ₚ skill :: filter (λ s, s_userId s = requester) (skills w).
Proof.
  intros [_ Hlt] Hdata _. eexists _, _, _.
  split; [by apply post_skills_accepted |].
  split; [done |]. split; [|split].
  - unfold getSkillById. simpl. rewrite filter_app.
    rewrite (filter_below_fresh s_id) by done.
    rewrite filter_cons_True by done. done.
  - unfold get_skills, authenticated, answer, bind, getSkillsByUserId. simpl.
    rewrite filter_app, filter_cons_True by done. done.
  - simpl. by rewrite Permutation_app_comm.
Qed.

Lemma created_skill_is_found_witness :
  (ids_below (s_id <$> skills (demo_world ticking))
             (seq_skills (demo_world ticking))
   ∧ is_userId go_beginner = 1
   ∧ storable_skill go_beginner = true)
  ∧ ∃ skill w' listing,
      post_skills (Some 1) (Valid go_beginner) (demo_world ticking)
      = (mkResponse 201 (PSkill (Some skill)), w')
      ∧ s_userId skill = 1
      ∧ getSkillById (s_id skill) w' = (Ok (Some skill), w')
      ∧ (get_skills (Some 1) w').1 = mkReply 200 (BSkills listing)
      ∧ listing
        ≡ₚ skill :: filter (λ s, s_userId s = 1) (skills (demo_world ticking)).
Proof.
  assert (ids_below (s_id <$> skills (demo_world ticking))
                    (seq_skills (demo_world ticking))) as Hbelow
    by (split; [apply NoDup_nil_2 | apply Forall_nil_2]).
  split; [split; [exact Hbelow | split; reflexivity] |].
  apply (created_skill_is_found (demo_world ticking) 1 go_beginner Hbelow);
    reflexivity.
Defined.

Lemma elem_of_merge_sort {A} (R : A → A → Prop) `{!RelDecision R}
    (l : list A) (x : A) :
  x ∈ merge_sort R l ↔ x ∈ l.
Proof. by rewrite merge_sort_Permutation. Qed.

(** X10. Every row a successful [GET /api/skills/:id/history],
    [GET /api/profile-history] or [GET /api/skills] returns belongs to the
    requester: the history rows are those of a skill the requester owns, the
    profile history rows and the skills carry the requester's id. *)
Theorem listings_show_the_requesters_rows w :
  (∀ auth id l,
     (get_skills_history auth id w).1 = mkResponse 200 (PSkillHistory l) →
     ∃ requester skill,
       auth = Some requester
       ∧ head (filter (λ s, s_id s = id) (skills w)) = Some skill
       ∧ s_userId skill = requester
       ∧ Forall (λ h, sh_skillId h = id) l
       ∧ (NoDup (s_id <$> skills w) → references w →
          Forall (λ h, sh_userId h = requester) l))
  ∧ (∀ auth l,
       (get_profile_history auth w).1 = mkResponse 200 (PProfileHistory l) →
       ∃ requester,
         auth = Some requester ∧ Forall (λ h, ph_userId h = requester) l)
  ∧ (∀ auth l,
       (get_skills auth w).1 = mkReply 200 (BSkills l) →
       ∃ requester,
         auth = Some requester ∧ Forall (λ s, s_userId s = requester) l).
Proof.
  split; [|split].
  - intros [requester|] id l; [|done].
    unfold get_skills_history, ensureAuthenticated.
    destruct (head (filter (λ s, s_id s = id) (skills w))) as [skill|] eqn:Hf.
    + rewrite (bind_run (getSkillById id) _ w w (Some skill))
        by (unfold getSkillById; by rewrite Hf).
      destruct (s_userId skill =? requester) eqn:Hown; [|done].
      apply Z.eqb_eq in Hown. cbn [negb].
      unfold bind, getSkillHistoryBySkillId, ret. simpl. intros [= <-].
      exists requester, skill. repeat split; try done.
      * apply Forall_forall. intros h Hh. apply elem_of_merge_sort in Hh.
        by apply list_elem_of_filter in Hh as [? _].
      * intros Hnd (_ & Hrefs & _). apply Forall_forall. intros h Hh.
        apply elem_of_merge_sort in Hh.
        apply list_elem_of_filter in Hh as [Hid Hin].
        rewrite Forall_forall in Hrefs.
        destruct (Hrefs h Hin) as (s & Hs & Hsid & <-).
        apply head_filter_elem in Hf as [Hskill Hskid].
        assert (s = skill) as ->; [|done].
        apply (NoDup_fmap_inj_elem s_id (skills w)); try done. congruence.
    + rewrite (bind_run (getSkillById id) _ w w None)
        by (unfold getSkillById; by rewrite Hf). done.
  - intros [requester|] l; [|done]. simpl. intros [= <-].
    exists requester. split; [done |]. apply Forall_forall. intros h Hh.
    apply elem_of_merge_sort in Hh.
    by apply list_elem_of_filter in Hh as [? _].
  - intros [requester|] l; [|done]. simpl. intros [= <-].
    exists requester. split; [done |]. apply Forall_forall. intros s Hs.
    by apply list_elem_of_filter in Hs as [? _].
Qed.

Lemma listings_show_the_requesters_rows_witness :
  (get_skills (Some 1) go_world).1
  = mkReply 200 (BSkills [mkSkill 1 1 "Go" "Beginner" 1000 None])
  ∧ ∃ requester,
      Some 1 = Some requester
      ∧ Forall (λ s, s_userId s = requester)
               [mkSkill 1 1 "Go" "Beginner" 1000 None].
Proof.
  split; [reflexivity |].
  apply (proj2 (proj2 (listings_show_the_requesters_rows go_world)) (Some 1)).
  reflexivity.
Defined.

Lemma filter_fmap_commute {A} (P : A → Prop) `{!∀ x, Decision (P x)}
    (h : A → A) (l : list A) :
  (∀ x, P (h x) ↔ P x) → filter P (h <$> l) = h <$> filter P l.
Proof.
  intros HP. induction l as [|x l IH]; [done |].
  rewrite fmap_cons, !filter_cons, IH.
  destruct (decide (P (h x))) as [H1|H1], (decide (P x)) as [H2|H2];
    try done; exfalso; [apply H2 | apply H1]; by apply HP.
Qed.

Lemma getUser_updated id g w cu :
  (∀ u, u_id (g u) = u_id u) →
  head (filter (λ u, u_id u = id) (users w)) = Some cu →
  head (filter (λ u, u_id u = id)
          ((fun u => if decide (u_id u = id) then g u else u) <$> users w))
  = Some (g cu).
Proof.
  intros Hg Hcu. rewrite filter_fmap_commute.
  - rewrite (head_fmap_Some _ _ _ Hcu). apply head_filter_elem in Hcu as [_ ?].
    by rewrite decide_True.
  - intros u. case_decide; [by rewrite Hg | done].
Qed.

(** X11. When the values of the body are ones the database stores, the
    owner's profile update answers 200 with the user that is stored:
    [getUser] returns it, id, email and password are those from before, and
    each updatable field holds the body's value where the handler saw a
    change and the old value elsewhere. *)
Theorem profile_update_is_read_back w id body cu :
  head (filter (λ u, u_id u = id) (users w)) = Some cu →
  (∀ f, f ∈ updatableFields → storable (prop body f) = true) →
  ∃ u w',
    put_users_profile (Some id) id body w
    = (mkResponse 200 (PUser (Some u)), w')
    ∧ getUser id w' = (Ok (Some u), w')
    ∧ identity_columns u = identity_columns cu
    ∧ ∀ f, f ∈ updatableFields →
           user_prop u f
           = if changed cu body f then of_text (pg_text (prop body f))
             else user_prop cu f.
Proof.
  intros Hcu _.
  destruct (put_users_profile_owner w id body cu Hcu)
    as (srows & rrows & w' & Hrun & Hu & _).
  exists (apply_profile cu body cu), w'. split; [done |]. split; [|split].
  - unfold getUser. rewrite Hu. by rewrite (getUser_updated id _ w cu).
  - done.
  - intros f Hf. by apply user_prop_apply_profile.
Qed.

Lemma profile_update_is_read_back_witness :
  (head (filter (λ u, u_id u = 1) (users (demo_world ticking)))
   = Some demo_user
   ∧ ∀ f, f ∈ updatableFields → storable (prop ann_engineer f) = true)
  ∧ ∃ u w',
      put_users_profile (Some 1) 1 ann_engineer (demo_world ticking)
      = (mkResponse 200 (PUser (Some u)), w')
      ∧ getUser 1 w' = (Ok (Some u), w')
      ∧ identity_columns u = identity_columns demo_user
      ∧ ∀ f, f ∈ updatableFields →
             user_prop u f
             = if changed demo_user ann_engineer f
               then of_text (pg_text (prop ann_engineer f))
               else user_prop demo_user f.
Proof.
  assert (∀ f, f ∈ updatableFields → storable (prop ann_engineer f) = true)
    as Hstorable by (intros f Hf; each_field Hf; reflexivity).
  split; [split; [reflexivity | exact Hstorable] |].
  apply (profile_update_is_read_back (demo_world ticking) 1 ann_engineer
           demo_user eq_refl Hstorable).
Defined.

(** X12. When each updatable field of the body is a string the database
    stores, null or absent, sending the same profile update a second time
    changes nothing and is answered as the first time. *)
Theorem plain_profile_update_is_idempotent w id body cu :
  head (filter (λ u, u_id u = id) (users w)) = Some cu →
  (∀ f, f ∈ updatableFields →
        plain (prop body f) ∧ storable (prop body f) = true) →
  let first := put_users_profile (Some id) id body w in
  put_users_profile (Some id) id body first.2 = (first.1, first.2).
Proof.
  intros Hcu Hplain. cbn zeta.
  destruct (put_users_profile_owner w id body cu Hcu)
    as (srows & rrows & w' & -> & Hu & _). cbn [fst snd].
  apply put_users_profile_unchanged.
  - rewrite Hu. by apply getUser_updated.
  - apply filter_nil_Forall, Forall_forall. intros f Hf.
    unfold changed at 1. rewrite user_prop_apply_profile by done.
    destruct (Hplain f Hf) as [Hp _].
    destruct (changed cu body f) eqn:Hc.
    + apply changed_spec in Hc as [Ht _].
      destruct (prop body f); try done. simpl.
      unfold strict_ne, strict_eq. rewrite bool_decide_eq_true_2 by done.
      rewrite andb_false_r. by intros [].
    + unfold changed in Hc. rewrite Hc. by intros [].
Qed.

Lemma plain_profile_update_is_idempotent_witness :
  (head (filter (λ u, u_id u = 1) (users (demo_world ticking))) = Some demo_user
   ∧ ∀ f, f ∈ updatableFields →
          plain (prop ann_engineer f) ∧ storable (prop ann_engineer f) = true)
  ∧ put_users_profile (Some 1) 1 ann_engineer
      (put_users_profile (Some 1) 1 ann_engineer (demo_world ticking)).2
    = ((put_users_profile (Some 1) 1 ann_engineer (demo_world ticking)).1,
       (put_users_profile (Some 1) 1 ann_engineer (demo_world ticking)).2).
Proof.
  assert (∀ f, f ∈ updatableFields →
               plain (prop ann_engineer f)
               ∧ storable (prop ann_engineer f) = true) as Hplain
    by (intros f Hf; each_field Hf; (split; [exact I | reflexivity])).
  split; [split; [reflexivity | exact Hplain] |].
  apply (plain_profile_update_is_idempotent (demo_world ticking) 1
           ann_engineer demo_user eq_refl Hplain).
Defined.

(** ** [updateUser] given a null *)

(** The loop of [updateUser] up to the first field it cannot record. *)
Lemma track_changes_until id cu updates pre f post : ∀ w,
  (∀ g, g ∈ pre → tracked cu updates g = true →
        is_Some (pg_text (prop updates g))) →
  tracked cu updates f = true →
  pg_text (prop updates f) = None →
  ∃ rows,
    track_changes id cu updates (pre ++ f :: post) w
    = (Throw "null value in column new_value"%string,
       without_profileHistory_id
         (tick (add_profile_rows rows (length rows) w)))
    ∧ Forall2 (store_row id cu updates)
              (filter (λ g, tracked cu updates g) pre) rows.
Proof.
  induction pre as [|g pre IH]; intros w Hnn Ht Hnull.
  - exists []. split; [|constructor]. rewrite add_profile_rows_nil.
    simpl. fold (tracked cu updates f). rewrite Ht.
    unfold bind, now, createProfileHistory. simpl. by rewrite Hnull.
  - simpl. fold (tracked cu updates g). rewrite filter_cons.
    destruct (tracked cu updates g) eqn:Hg.
    + destruct (Hnn g) as [nv Hnv]; [by left | done |].
      simpl.
      set (row := mkProfileHistory (seq_profileHistory w) id g
                    (pg_text (user_prop cu g)) nv (clock w (reads w))).
      destruct (IH (add_profile_rows [row] 1 w)) as (rows & Hrun & Hrows);
        [intros h Hh; apply Hnn; by right | done | done |].
      exists (row :: rows). split.
      * unfold bind at 1. unfold bind at 1. unfold now at 1.
        unfold createProfileHistory, bind, default_now. simpl.
        rewrite Hnv. unfold ret, insert_profileHistory. simpl.
        fold row.
        change (with_profileHistory row (tick w))
          with (add_profile_rows [row] 1 w).
        rewrite Hrun, add_profile_rows_app. simpl.
        by rewrite Nat.add_1_r.
      * constructor; [|done]. by repeat split.
    + simpl. apply IH; [|done..]. intros h Hh. apply Hnn. by right.
Qed.

(** X13. [updateUser] goes through the tracked fields in order. When a
    field is set to null while its stored value is not, and the fields
    before it can be recorded, the insert for that field is rejected,
    because [new_value] cannot be null, and [updateUser] throws: the rows of
    the changed fields before it have been inserted and stay, one id of the
    sequence is lost, and no update of the user row is sent. *)
Theorem updateUser_rejects_null w id updates cu pre f post :
  head (filter (λ u, u_id u = id) (users w)) = Some cu →
  fieldsToTrack = pre ++ f :: post →
  prop updates f = JNull →
  user_prop cu f ≠ JNull →
  (∀ g, g ∈ pre → tracked cu updates g = true →
        is_Some (pg_text (prop updates g))
        ∧ storable (prop updates g) = true) →
  ∃ e rows,
    (updateUser id updates w).1 = Throw e
    ∧ users (updateUser id updates w).2 = users w
    ∧ profileHistory (updateUser id updates w).2 = profileHistory w ++ rows
    ∧ Forall2 (store_row id cu updates)
              (filter (λ g, tracked cu updates g) pre) rows
    ∧ seq_profileHistory (updateUser id updates w).2
      = seq_profileHistory w + Z.of_nat (length rows) + 1
    ∧ writes (updateUser id updates w).2
      = writes w ++ (WInsertProfileHistory <$> rows).
Proof.
  intros Hcu Hfields Hnull Hstored Hpre.
  destruct (track_changes_until id cu updates pre f post w)
    as (rows & Hrun & Hrows).
  - intros g Hg Ht. by apply Hpre.
  - apply tracked_spec. rewrite Hnull. split; [done | congruence].
  - by rewrite Hnull.
  - exists "null value in column new_value"%string, rows.
    unfold updateUser.
    rewrite (bind_run (getUser id) _ w w (Some cu))
      by (unfold getUser; by rewrite Hcu).
    unfold bind. rewrite Hfields, Hrun. cbn [fst snd].
    repeat split; done.
Qed.

Lemma updateUser_rejects_null_witness :
  (head (filter (λ u, u_id u = 1) (users oslo_world)) = Some oslo
   ∧ fieldsToTrack = ["role"; "projectName"; "clientName"]%string
                       ++ "location"%string :: []
   ∧ prop lead_nowhere "location" = JNull
   ∧ user_prop oslo "location" ≠ JNull
   ∧ ∀ g, g ∈ ["role"; "projectName"; "clientName"]%string →
          tracked oslo lead_nowhere g = true →
          is_Some (pg_text (prop lead_nowhere g))
          ∧ storable (prop lead_nowhere g) = true)
  ∧ ∃ e rows,
      (updateUser 1 lead_nowhere oslo_world).1 = Throw e
      ∧ users (updateUser 1 lead_nowhere oslo_world).2 = users oslo_world
      ∧ profileHistory (updateUser 1 lead_nowhere oslo_world).2
        = profileHistory oslo_world ++ rows
      ∧ Forall2 (store_row 1 oslo lead_nowhere)
                (filter (λ g, tracked oslo lead_nowhere g)
                        ["role"; "projectName"; "clientName"]%string) rows
      ∧ seq_profileHistory (updateUser 1 lead_nowhere oslo_world).2
        = seq_profileHistory oslo_world + Z.of_nat (length rows) + 1
      ∧ writes (updateUser 1 lead_nowhere oslo_world).2
        = writes oslo_world ++ (WInsertProfileHistory <$> rows).
Proof.
  assert (user_prop oslo "location" ≠ JNull) as Hstored by discriminate.
  assert (∀ g, g ∈ ["role"; "projectName"; "clientName"]%string →
               tracked oslo lead_nowhere g = true →
               is_Some (pg_text (prop lead_nowhere g))
               ∧ storable (prop lead_nowhere g) = true) as Hpre.
  { intros g Hg Ht. rewrite !elem_of_cons, elem_of_nil in Hg.
    destruct Hg as [->|[->|[->|[]]]];
      [split; [by eexists | reflexivity] | by vm_compute in Ht..]. }
  split; [split; [reflexivity | split; [reflexivity | split;
            [reflexivity | split; [exact Hstored | exact Hpre]]]] |].
  apply (updateUser_rejects_null oslo_world 1 lead_nowhere oslo
           ["role"; "projectName"; "clientName"]%string "location" []
           eq_refl eq_refl eq_refl Hstored Hpre).
Defined.

(** The run of the witness: the row for the role stays, id 2 is lost, the
    user keeps the old role. *)
Example updateUser_null_location :
  updateUser 1 lead_nowhere oslo_world
  = (Throw "null value in column new_value",
     mkWorld [oslo] [] [] [mkProfileHistory 1 1 "role" None "Lead" 1000]
             2 1 1 3 ticking 2%nat
             [WInsertProfileHistory
                (mkProfileHistory 1 1 "role" None "Lead" 1000)]).
Proof. vm_compute. reflexivity. Qed.

(** ** Sessions *)

Lemma accounts_identity w w' :
  identity_columns <$> users w' = identity_columns <$> users w →
  account <$> users w' = account <$> users w.
Proof.
  intros Hid. change account with (fst ∘ identity_columns).
  by rewrite !(list_fmap_compose identity_columns), Hid.
Qed.

Lemma step_accounts w request :
  account <$> users w `prefix_of` account <$> users (step w request).
Proof.
  destruct request as [session [id body|body|id body|body rolls h|body rolls h]];
    unfold step; cbn [fst snd].
  - destruct (put_users_profile_tables (u_id <$> req_user session w) id body w)
      as (rows & Hid & _). by rewrite (accounts_identity _ _ Hid).
  - destruct (post_skills_cases (u_id <$> req_user session w) body w)
      as [[-> _]|(requester & skillData & -> & -> & Hdata)]; [done |].
    by rewrite post_skills_accepted.
  - destruct (put_skills_cases (u_id <$> req_user session w) id body w)
      as [[-> _]|(requester & skillData & existingSkill & -> & -> & Hfound
                  & Hown & Hdata)]; [done |].
    destruct (put_skills_owner_tables w requester id skillData existingSkill
                Hfound Hown Hdata) as (rows & t & Hu & _).
    cbn zeta in Hu. by rewrite Hu.
  - destruct (post_register_cases body rolls h w)
      as [[-> _]|(userData & -> & _ & ->)]; [done |].
    simpl. rewrite fmap_app. by apply prefix_app_r.
  - destruct (post_forgot_password_cases body rolls h w)
      as [[-> _]|(u & _ & _ & ->)]; [done |].
    simpl. by rewrite (fmap_updated_same account).
Qed.

Lemma serve_accounts requests w :
  account <$> users w `prefix_of` account <$> users (serve requests w).
Proof.
  revert w. induction requests as [|request requests IH]; intros w; [done |].
  simpl. etrans; [apply step_accounts | apply IH].
Qed.

Lemma filter_accounts id (l : list User) :
  filter (λ c, c.1 = id) (account <$> l)
  = account <$> filter (λ u, u_id u = id) l.
Proof.
  induction l as [|x l IH]; [done |].
  rewrite fmap_cons, !filter_cons, IH. simpl.
  by destruct (decide (u_id x = id)).
Qed.

Lemma req_user_account session w :
  account <$> req_user session w
  = session ≫= λ id, head (filter (λ c, c.1 = id) (account <$> users w)).
Proof.
  unfold req_user, deserializeUser, getUser.
  destruct session as [id|]; [|done]. simpl.
  rewrite filter_accounts. by destruct (filter _ (users w)).
Qed.

Lemma head_filter_prefix {A} (P : A → Prop) `{!∀ x, Decision (P x)}
    (l l' : list A) (x : A) :
  l `prefix_of` l' → head (filter P l) = Some x → head (filter P l') = Some x.
Proof.
  intros [k ->] Hx. rewrite filter_app.
  by destruct (filter P l).
Qed.

Lemma ensureAdmin_status user failure handler w :
  (∀ w0, ∃ body, handler w0 = (Ok (mkReply 200 body), w0)) →
  r_status (ensureAdmin user failure handler w).1 = 200
  ↔ ∃ u, user = Some u ∧ u_email u = "admin@example.com"%string.
Proof.
  intros Hhandler. unfold ensureAdmin, answer.
  destruct user as [u|].
  - destruct (String.eqb (u_email u) "admin@example.com") eqn:Hadmin.
    + apply String.eqb_eq in Hadmin. destruct (Hhandler w) as [body ->].
      split; [eauto | done].
    + apply String.eqb_neq in Hadmin. split; [done |].
      by intros (u' & [= <-] & Hmail).
  - split; [done |]. by intros (u' & [=] & _).
Qed.

(** X14. Whatever requests are handled in between, a session still stands
    for a user with the same id and the same email, and [GET /api/users] and
    [GET /api/all-skills] answer it with 200 exactly when that email is the
    admin's. *)
Theorem sessions_keep_their_account requests session w u :
  req_user session w = Some u →
  let w' := serve requests w in
  ∃ u', req_user session w' = Some u'
        ∧ u_id u' = u_id u ∧ u_email u' = u_email u
        ∧ (r_status (get_users (req_user session w') w').1 = 200
           ↔ u_email u = "admin@example.com"%string)
        ∧ (r_status (get_all_skills (req_user session w') w').1 = 200
           ↔ u_email u = "admin@example.com"%string).
Proof.
  intros Hu. cbn zeta.
  pose proof (req_user_account session w) as Hacc. rewrite Hu in Hacc.
  destruct session as [id|]; [|by simplify_eq/=].
  simpl in Hacc. symmetry in Hacc.
  apply (head_filter_prefix _ _ _ _ (serve_accounts requests w)) in Hacc.
  assert (account <$> req_user (Some id) (serve requests w)
          = Some (account u)) as Hacc'
    by (rewrite req_user_account; exact Hacc).
  destruct (req_user (Some id) (serve requests w)) as [u'|]; [|done].
  injection Hacc' as Hid Hemail. exists u'.
  do 3 (split; [done |]).
  unfold get_users, get_all_skills. rewrite !ensureAdmin_status.
  - split; (split; [intros (? & [= <-] & ?); congruence
                   | intros ?; exists u'; split; [done | congruence]]).
  - intros w0. by eexists.
  - intros w0. by eexists.
Qed.

Lemma sessions_keep_their_account_witness :
  req_user (Some 1) (demo_world ticking) = Some demo_user
  ∧ ∃ u', req_user (Some 1) (serve demo_requests (demo_world ticking))
          = Some u'
          ∧ u_id u' = u_id demo_user ∧ u_email u' = u_email demo_user
          ∧ (r_status
               (get_users
                  (req_user (Some 1) (serve demo_requests (demo_world ticking)))
                  (serve demo_requests (demo_world ticking))).1 = 200
             ↔ u_email demo_user = "admin@example.com"%string)
          ∧ (r_status
               (get_all_skills
                  (req_user (Some 1) (serve demo_requests (demo_world ticking)))
                  (serve demo_requests (demo_world ticking))).1 = 200
             ↔ u_email demo_user = "admin@example.com"%string).
Proof.
  split; [reflexivity |].
  apply (sessions_keep_their_account demo_requests (Some 1)
           (demo_world ticking) demo_user).
  reflexivity.
Defined.

(** ** Suggestions *)

Lemma unique_from (values : list string) : ∀ seen,
  NoDup seen →
  NoDup (foldl (fun seen v => if decide (v ∈ seen) then seen else seen ++ [v])
               seen values)
  ∧ ∀ x, x ∈ foldl (fun seen v => if decide (v ∈ seen) then seen
                                  else seen ++ [v]) seen values
         ↔ x ∈ seen ∨ x ∈ values.
Proof.
  induction values as [|v values IH]; intros seen Hnd; simpl.
  - split; [done |]. intros x. rewrite elem_of_nil. tauto.
  - case_decide as Hv.
    + destruct (IH seen Hnd) as [H1 H2]. split; [done |].
      intros x. rewrite H2, elem_of_cons. split; [tauto |].
      intros [?|[->|?]]; auto.
    + destruct (IH (seen ++ [v])) as [H1 H2].
      { apply NoDup_app. split; [done |]. split; [|apply NoDup_singleton].
        intros x Hx [->|[]%elem_of_nil]%elem_of_cons. done. }
      split; [done |]. intros x.
      rewrite H2, elem_of_app, !elem_of_cons, elem_of_nil. tauto.
Qed.

Lemma NoDup_unique values : NoDup (unique values).
Proof. apply (unique_from values []), NoDup_nil_2. Qed.

Lemma elem_of_unique values x : x ∈ unique values ↔ x ∈ values.
Proof.
  unfold unique. destruct (unique_from values [] (NoDup_nil_2)) as [_ H].
  rewrite H, elem_of_nil. tauto.
Qed.

Lemma unique_NoDup_id values : NoDup values → unique values = values.
Proof.
  unfold unique.
  assert (∀ seen, NoDup (seen ++ values) →
            foldl (fun seen v => if decide (v ∈ seen) then seen
                                 else seen ++ [v]) seen values
            = seen ++ values) as H; [|apply (H [])].
  induction values as [|v values IH]; intros seen Hnd; simpl.
  - by rewrite app_nil_r.
  - rewrite decide_False.
    + rewrite IH; rewrite <- app_assoc; done.
    + apply NoDup_app in Hnd as (_ & Hdis & _). intros Hv.
      apply (Hdis v Hv). by left.
Qed.

Lemma elem_of_filter_Boolean values x :
  x ∈ filter_Boolean values ↔ x ≠ EmptyString ∧ Some x ∈ values.
Proof.
  unfold filter_Boolean. rewrite list_elem_of_omap. split.
  - intros ([s|] & Hin & Hx); [|done].
    destruct (String.eqb s "") eqn:Hs; [done |]. injection Hx as <-.
    by apply String.eqb_neq in Hs.
  - intros [Hne Hin]. exists (Some x). split; [done |].
    apply String.eqb_neq in Hne. by rewrite Hne.
Qed.

Lemma elem_of_suggested column w x :
  x ∈ unique (filter_Boolean (column <$> users w)) ↔ in_column column w x.
Proof.
  rewrite elem_of_unique, elem_of_filter_Boolean, list_elem_of_fmap.
  unfold in_column. split.
  - intros [Hne (u & Hx & Hu)]. split; [done |]. by exists u.
  - intros [Hne (u & Hu & Hx)]. split; [done |]. by exists u.
Qed.

(** X15. [GET /api/suggestions] changes nothing and answers an authenticated
    request with lists without repetition: each non-empty project, client,
    role and location some user has, and each name some skill has, and
    nothing else. *)
Theorem suggestions_are_the_distinct_values requester w :
  ∃ s,
    get_suggestions (Some requester) w = (mkReply 200 (BSuggestions s), w)
    ∧ NoDup (sg_projects s) ∧ NoDup (sg_clients s) ∧ NoDup (sg_roles s)
    ∧ NoDup (sg_locations s) ∧ NoDup (sg_skills s)
    ∧ (∀ x, x ∈ sg_projects s ↔ in_column u_projectName w x)
    ∧ (∀ x, x ∈ sg_clients s ↔ in_column u_clientName w x)
    ∧ (∀ x, x ∈ sg_roles s ↔ in_column u_role w x)
    ∧ (∀ x, x ∈ sg_locations s ↔ in_column u_location w x)
    ∧ (∀ x, x ∈ sg_skills s ↔ ∃ k, k ∈ skills w ∧ s_name k = x).
Proof.
  eexists. split; [reflexivity |]. simpl.
  do 5 (split; [apply NoDup_unique |]).
  do 4 (split; [intros x; apply elem_of_suggested |]).
  intros x. unfold getSkills. rewrite elem_of_unique, list_elem_of_fmap.
  split.
  - intros (k & -> & Hk). eauto.
  - intros (k & Hk & <-). eauto.
Qed.

(** ** Registration and password reset *)


(** X16. [POST /api/register] with an email some user already has answers
    400, writes nothing, sends no mail and logs nobody in. *)
Theorem registration_refuses_a_used_email userData rolls hashedPassword w :
  iu_email userData ∈ u_email <$> users w →
  post_register (ValidUser userData) rolls hashedPassword w
  = (mkOutcome (mkReply 400 (BMessage "Email already in use")) [] None, w).
Proof.
  intros (u & Hu & Hin)%list_elem_of_fmap.
  destruct (head_filter_is_Some (λ u, u_email u = iu_email userData)
              (users w) u Hin) as [existing Hex]; [done |].
  unfold post_register, outcome.
  rewrite (bind_run (getUserByEmail _) _ w w (Some existing))
    by (unfold getUserByEmail; by rewrite Hex). done.
Qed.

Lemma registration_refuses_a_used_email_witness :
  iu_email demo_again ∈ u_email <$> users (demo_world ticking)
  ∧ post_register (ValidUser demo_again) [0; 27; 61]%nat "$2b$10$hash"
      (demo_world ticking)
    = (mkOutcome (mkReply 400 (BMessage "Email already in use")) [] None,
       demo_world ticking).
Proof.
  assert (iu_email demo_again ∈ u_email <$> users (demo_world ticking))
    as Hused by (simpl; left).
  split; [exact Hused |].
  apply (registration_refuses_a_used_email demo_again [0; 27; 61]%nat
           "$2b$10$hash" (demo_world ticking) Hused).
Defined.



Lemma password_reset_tables body rolls hashedPassword w :
  let w' := (post_forgot_password body rolls hashedPassword w).2 in
  (w' = w
   ∨ ∃ u, head (filter (λ u, u_email u = as_text (prop body "email"))
                  (users w)) = Some u
          ∧ w' = with_users_updated (u_id u) (set_password hashedPassword) w).
Proof.
  simpl.
  destruct (post_forgot_password_cases body rolls hashedPassword w)
    as [[-> _]|(u & _ & Hu & ->)]; [by left |].
  right. by exists u.
Qed.

(** X18. [POST /api/forgot-password] changes no column of any user but the
    password, changes no other table, and records nothing in the profile
    history. *)
Theorem password_reset_changes_only_the_password body rolls hashedPassword w :
  let w' := (post_forgot_password body rolls hashedPassword w).2 in
  without_password <$> users w' = without_password <$> users w
  ∧ skills w' = skills w
  ∧ skillHistory w' = skillHistory w
  ∧ profileHistory w' = profileHistory w.
Proof.
  destruct (password_reset_tables body rolls hashedPassword w)
    as [->|(u & _ & ->)]; [done |].
  split; [|done]. simpl.
  by apply (fmap_updated_same without_password (λ x, u_id x = u_id u)).
Qed.

(** X19. When an email is given, [POST /api/forgot-password] answers 200
    with the same message whether or not the email is registered; a mail
    with the temporary password goes out exactly when it is. *)
Theorem password_reset_answers_alike body rolls hashedPassword w :
  truthy (prop body "email") = true →
  let o := (post_forgot_password body rolls hashedPassword w).1 in
  o_reply o = mkReply 200 (BMessage reset_message)
  ∧ o_login o = None
  ∧ o_mails o
    = if decide (as_text (prop body "email") ∈ u_email <$> users w)
      then [mkMail (prop body "email") (generateTemporaryPassword rolls)]
      else [].
Proof.
  intros Htruthy. simpl.
  destruct (head (filter (λ u, u_email u = as_text (prop body "email"))
                    (users w))) as [u|] eqn:Hu.
  - rewrite decide_True.
    2:{ apply head_filter_elem in Hu as [Hin Hmail].
        apply list_elem_of_fmap. eauto. }
    destruct (post_forgot_password_cases body rolls hashedPassword w)
      as [[Hsame Hmails]|(u' & _ & Hu' & ->)]; [|done].
    exfalso. revert Hmails. unfold post_forgot_password, outcome.
    rewrite Htruthy. cbn [negb].
    rewrite (bind_run (getUserByEmail _) _ w w (Some u))
      by (unfold getUserByEmail; by rewrite Hu).
    destruct (updateUser_password w (u_id u) hashedPassword)
      as (cu & Hcu & Hrun).
    { apply head_filter_elem in Hu as [Hin _].
      by apply (head_filter_is_Some _ _ u). }
    by rewrite (bind_run _ _ _ _ _ Hrun).
  - rewrite decide_False.
    2:{ intros (u & Hmail & Hin)%list_elem_of_fmap.
        destruct (head_filter_is_Some
                    (λ u, u_email u = as_text (prop body "email"))
                    (users w) u Hin) as [? Hsome]; [done |].
        by rewrite Hsome in Hu. }
    unfold post_forgot_password, outcome. rewrite Htruthy. cbn [negb].
    rewrite (bind_run (getUserByEmail _) _ w w None)
      by (unfold getUserByEmail; by rewrite Hu). done.
Qed.

Lemma password_reset_answers_alike_witness :
  truthy (prop forgot_demo "email") = true
  ∧ o_reply (post_forgot_password forgot_demo [0; 27; 61]%nat "$2b$10$hash"
               (demo_world ticking)).1
    = mkReply 200 (BMessage reset_message)
  ∧ o_login (post_forgot_password forgot_demo [0; 27; 61]%nat "$2b$10$hash"
               (demo_world ticking)).1 = None
  ∧ o_mails (post_forgot_password forgot_demo [0; 27; 61]%nat "$2b$10$hash"
               (demo_world ticking)).1
    = if decide (as_text (prop forgot_demo "email")
                 ∈ u_email <$> users (demo_world ticking))
      then [mkMail (prop forgot_demo "email")
                   (generateTemporaryPassword [0; 27; 61]%nat)]
      else [].
Proof.
  split; [reflexivity |].
  apply (password_reset_answers_alike forgot_demo [0; 27; 61]%nat
           "$2b$10$hash" (demo_world ticking)).
  reflexivity.
Defined.

(** X20. After [POST /api/forgot-password] for a registered email, the user
    found under that email is the same user with the new hash as
    password. *)
Theorem password_reset_stores_the_hash body rolls hashedPassword w u :
  truthy (prop body "email") = true →
  getUserByEmail (as_text (prop body "email")) w = (Ok (Some u), w) →
  let w' := (post_forgot_password body rolls hashedPassword w).2 in
  getUserByEmail (as_text (prop body "email")) w'
  = (Ok (Some (set_password hashedPassword u)), w').
Proof.
  intros Htruthy Hfound. simpl.
  unfold getUserByEmail in Hfound. injection Hfound as Hu.
  destruct (post_forgot_password_cases body rolls hashedPassword w)
    as [[Hsame Hmails]|(u' & _ & Hu' & ->)].
  - exfalso. revert Hmails. unfold post_forgot_password, outcome.
    rewrite Htruthy. cbn [negb].
    rewrite (bind_run (getUserByEmail _) _ w w (Some u))
      by (unfold getUserByEmail; by rewrite Hu).
    destruct (updateUser_password w (u_id u) hashedPassword)
      as (cu & Hcu & Hrun).
    { apply head_filter_elem in Hu as [Hin _].
      by apply (head_filter_is_Some _ _ u). }
    by rewrite (bind_run _ _ _ _ _ Hrun).
  - rewrite Hu in Hu'. injection Hu' as <-.
    unfold getUserByEmail. f_equal. f_equal. cbn [snd].
    unfold with_users_updated. cbn [users].
    rewrite (filter_fmap_commute
               (λ x, u_email x = as_text (prop body "email"))).
    2:{ intros x. by case_decide. }
    rewrite Hu' || idtac.
    destruct (filter (λ x, u_email x = as_text (prop body "email")) (users w))
      as [|x rest]; [done |].
    simpl in Hu. injection Hu as ->. simpl. by rewrite decide_True.
Qed.

Lemma password_reset_stores_the_hash_witness :
  (truthy (prop forgot_demo "email") = true
   ∧ getUserByEmail (as_text (prop forgot_demo "email")) (demo_world ticking)
     = (Ok (Some demo_user), demo_world ticking))
  ∧ getUserByEmail (as_text (prop forgot_demo "email"))
      (post_forgot_password forgot_demo [0; 27; 61]%nat "$2b$10$hash"
         (demo_world ticking)).2
    = (Ok (Some (set_password "$2b$10$hash" demo_user)),
       (post_forgot_password forgot_demo [0; 27; 61]%nat "$2b$10$hash"
          (demo_world ticking)).2).
Proof.
  split; [split; reflexivity |].
  apply (password_reset_stores_the_hash forgot_demo [0; 27; 61]%nat
           "$2b$10$hash" (demo_world ticking) demo_user);
    reflexivity.
Defined.

(** ** Temporary passwords *)

Lemma length_append (s1 s2 : string) :
  String.length (s1 +:+ s2) = (String.length s1 + String.length s2)%nat.
Proof. induction s1 as [|c s1 IH]; simpl; [done | by rewrite IH]. Qed.

Lemma get_in_range (s : string) : ∀ n,
  (n < String.length s)%nat →
  ∃ c, String.get n s = Some c ∧ c ∈ list_ascii_of_string s.
Proof.
  induction s as [|c s IH]; intros n Hn; simpl in *; [lia |].
  destruct n as [|n].
  - exists c. split; [done | by left].
  - destruct (IH n) as (c' & Hget & Hin); [lia |].
    exists c'. split; [done | by right].
Qed.

Lemma list_ascii_of_append (s1 s2 : string) :
  list_ascii_of_string (s1 +:+ s2)
  = list_ascii_of_string s1 ++ list_ascii_of_string s2.
Proof. induction s1 as [|c s1 IH]; simpl; [done | by rewrite IH]. Qed.

Lemma temporary_password_from (rolls : list nat) : ∀ password,
  Forall (λ roll, (roll < String.length chars)%nat) rolls →
  let result := foldl (fun password roll => password +:+ charAt chars roll)
                      password rolls in
  String.length result = (String.length password + length rolls)%nat
  ∧ ∀ c, c ∈ list_ascii_of_string result →
         c ∈ list_ascii_of_string password ∨ c ∈ list_ascii_of_string chars.
Proof.
  induction rolls as [|roll rolls IH]; intros password Hrolls; simpl.
  - split; [lia | auto].
  - apply Forall_cons in Hrolls as [Hroll Hrolls].
    destruct (IH (password +:+ charAt chars roll) Hrolls) as [Hlen Hin].
    destruct (get_in_range chars roll Hroll) as (c0 & Hget & Hc0).
    assert (charAt chars roll = String c0 EmptyString) as Hchar
      by (unfold charAt; by rewrite Hget).
    split.
    + rewrite Hlen, length_append, Hchar. simpl. lia.
    + intros c Hc. apply Hin in Hc as [Hc|Hc]; [|by right].
      rewrite list_ascii_of_append, Hchar in Hc. simpl in Hc.
      apply elem_of_app in Hc as [Hc|Hc]; [by left |].
      apply list_elem_of_singleton in Hc as ->. by right.
Qed.

(** X21. When every random number drawn is below the number of characters
    to choose from, [generateTemporaryPassword] returns one character for
    each number drawn, and each is a letter or a digit of [chars]. *)
Theorem temporary_password_is_alphanumeric (rolls : list nat) :
  Forall (λ roll, (roll < String.length chars)%nat) rolls →
  String.length (generateTemporaryPassword rolls) = length rolls
  ∧ ∀ c, c ∈ list_ascii_of_string (generateTemporaryPassword rolls) →
         c ∈ list_ascii_of_string chars.
Proof.
  intros Hrolls.
  destruct (temporary_password_from rolls EmptyString Hrolls) as [Hlen Hin].
  split; [exact Hlen |].
  intros c Hc. destruct (Hin c Hc) as [[]%elem_of_nil|]; done.
Qed.

Lemma temporary_password_is_alphanumeric_witness :
  Forall (λ roll, (roll < String.length chars)%nat) [0; 27; 61]%nat
  ∧ String.length (generateTemporaryPassword [0; 27; 61]%nat)
    = length [0; 27; 61]%nat
  ∧ ∀ c, c ∈ list_ascii_of_string (generateTemporaryPassword [0; 27; 61]%nat) →
         c ∈ list_ascii_of_string chars.
Proof.
  assert (Forall (λ roll, (roll < String.length chars)%nat) [0; 27; 61]%nat)
    as Hrolls by (repeat constructor; simpl; lia).
  split; [exact Hrolls |].
  apply (temporary_password_is_alphanumeric [0; 27; 61]%nat Hrolls).
Defined.

(** ** The charts of the admin dashboard *)

Lemma count_project_names name acc :
  (count_project name acc).*1
  = if decide (name ∈ acc.*1) then acc.*1 else acc.*1 ++ [name].
Proof.
  induction acc as [|p acc IH].
  - done.
  - rewrite fmap_cons. cbn [count_project].
    destruct (decide (p.1 = name)) as [Hp|Hp].
    + rewrite fmap_cons. cbn [fst].
      destruct (decide (name ∈ p.1 :: acc.*1)) as [Hin|Hin]; [done |].
      exfalso. apply Hin. subst. by left.
    + rewrite fmap_cons, IH.
      destruct (decide (name ∈ acc.*1)) as [Hin|Hin].
      * destruct (decide (name ∈ p.1 :: acc.*1)) as [Hin'|Hin']; [done |].
        exfalso. apply Hin'. by right.
      * destruct (decide (name ∈ p.1 :: acc.*1)) as [Hin'|Hin']; [|done].
        apply elem_of_cons in Hin' as [?|?]; [by subst | done].
Qed.

Lemma shown_count_project x name acc :
  shown x (count_project name acc)
  = shown x acc + (if decide (name = x) then 1 else 0).
Proof.
  induction acc as [|p acc IH]; simpl.
  - repeat case_decide; lia.
  - destruct (decide (p.1 = name)) as [Hp|Hp]; simpl.
    + repeat case_decide; subst; try done; lia.
    + rewrite IH. lia.
Qed.

Lemma filter_Boolean_snoc values v :
  filter_Boolean (values ++ [v])
  = filter_Boolean values
    ++ match v with
       | Some s => if String.eqb s "" then [] else [s]
       | None => []
       end.
Proof.
  unfold filter_Boolean. rewrite omap_app. f_equal. simpl.
  destruct v as [s|]; [|done]. by destruct (String.eqb s "").
Qed.

Lemma unique_snoc values v :
  unique (values ++ [v])
  = if decide (v ∈ unique values) then unique values
    else unique values ++ [v].
Proof. unfold unique. by rewrite foldl_app. Qed.

Lemma on_project_snoc name l u :
  on_project name (l ++ [u])
  = on_project name l + (if decide (u_projectName u = Some name) then 1 else 0).
Proof.
  unfold on_project. rewrite filter_app, length_app, filter_cons.
  case_decide; simpl; lia.
Qed.

Lemma projectData_snoc l u :
  projectData (Some (l ++ [u]))
  = match u_projectName u with
    | None => projectData (Some l)
    | Some name =>
        if String.eqb name "" then projectData (Some l)
        else count_project name (projectData (Some l))
    end.
Proof. unfold projectData. by rewrite foldl_app. Qed.

Lemma shown_elem data name count :
  NoDup data.*1 → (name, count) ∈ data → shown name data = count.
Proof.
  induction data as [|p data IH]; intros Hnd Hin; simpl.
  - by apply elem_of_nil in Hin.
  - rewrite fmap_cons in Hnd. apply NoDup_cons in Hnd as [Hp Hnd].
    assert (∀ c, (p.1, c) ∈ data → False) as Hfresh.
    { intros c Hc. apply Hp, list_elem_of_fmap. by exists (p.1, c). }
    assert (p.1 ∉ data.*1 → shown p.1 data = 0) as Hzero.
    { clear. induction data as [|q data IH]; simpl; [done |].
      intros Hq. apply not_elem_of_cons in Hq as [Hq1 Hq2].
      rewrite decide_False by done. by rewrite IH. }
    apply elem_of_cons in Hin as [Heq|Hin]; simpl.
    + subst p. simpl in *. rewrite decide_True by done.
      rewrite Hzero by done. lia.
    + case_decide as Heq.
      * exfalso. apply (Hfresh count). by rewrite Heq.
      * rewrite IH by done. lia.
Qed.

(** X22. The project chart of the admin dashboard has one entry for each
    non-empty project name, in the order of first appearance, and the count
    of an entry is the number of users on that project. *)
Theorem project_chart_counts_users (l : list User) :
  (projectData (Some l)).*1 = unique (filter_Boolean (u_projectName <$> l))
  ∧ ∀ name count,
      (name, count) ∈ projectData (Some l) →
      name ≠ EmptyString ∧ 0 < count ∧ count = on_project name l.
Proof.
  assert ((projectData (Some l)).*1
          = unique (filter_Boolean (u_projectName <$> l))
          ∧ ∀ name, name ≠ EmptyString →
                    shown name (projectData (Some l)) = on_project name l)
    as [Hnames Hshown].
  { induction l as [|u l IH] using rev_ind; [done |].
    destruct IH as [IHn IHs].
    rewrite projectData_snoc, fmap_app, list_fmap_singleton.
    rewrite filter_Boolean_snoc.
    destruct (u_projectName u) as [p|] eqn:Hp.
    - destruct (String.eqb p "") eqn:Hempty.
      + rewrite app_nil_r. split; [done |]. intros name Hname.
        rewrite on_project_snoc, Hp, IHs by done.
        apply String.eqb_eq in Hempty. subst p.
        rewrite decide_False; [lia | congruence].
      + split.
        * rewrite count_project_names, unique_snoc, IHn. done.
        * intros name Hname.
          rewrite shown_count_project, on_project_snoc, Hp, IHs by done.
          repeat case_decide; congruence.
    - rewrite app_nil_r. split; [done |]. intros name Hname.
      rewrite on_project_snoc, Hp, IHs by done.
      rewrite decide_False; [lia | done]. }
  split; [exact Hnames |]. intros name count Hin.
  assert (name ∈ unique (filter_Boolean (u_projectName <$> l))) as Hname.
  { rewrite <- Hnames. apply list_elem_of_fmap. by exists (name, count). }
  apply elem_of_unique, elem_of_filter_Boolean in Hname as [Hne Hsome].
  assert (count = on_project name l) as ->.
  { rewrite <- (Hshown name Hne). symmetry. apply shown_elem; [|done].
    rewrite Hnames. apply NoDup_unique. }
  split; [done |]. split; [|done].
  apply list_elem_of_fmap in Hsome as (u & Hu & Hin').
  unfold on_project.
  assert (u ∈ filter (λ u, u_projectName u = Some name) l) as Hf
    by (apply list_elem_of_filter; auto).
  destruct (filter _ l); [by apply elem_of_nil in Hf | simpl; lia].
Qed.

Lemma length_filter_levels (l : list Skill) :
  sum_list (snd <$> skillLevelData (Some l))
  = length (filter (λ skill, s_level skill ∈ SKILL_LEVELS) l).
Proof.
  induction l as [|skill l IH]; [done |].
  simpl in *. rewrite !filter_cons.
  destruct (decide (s_level skill = "Beginner"%string)) as [H1|H1],
           (decide (s_level skill = "Intermediate"%string)) as [H2|H2],
           (decide (s_level skill = "Expert"%string)) as [H3|H3];
    try congruence.
  - rewrite decide_True by (rewrite H1; unfold SKILL_LEVELS; set_solver).
    simpl. lia.
  - rewrite decide_True by (rewrite H2; unfold SKILL_LEVELS; set_solver).
    simpl. lia.
  - rewrite decide_True by (rewrite H3; unfold SKILL_LEVELS; set_solver).
    simpl. lia.
  - rewrite decide_False.
    2:{ unfold SKILL_LEVELS. rewrite !elem_of_cons, elem_of_nil. tauto. }
    lia.
Qed.

(** X23. The level chart of the admin dashboard has one bar for each of the
    three levels; the bars add up to at most the number of skills, and to
    exactly that number only when every skill's level is one of the
    three. *)
Theorem level_chart_counts_known_levels (l : list Skill) :
  (skillLevelData (Some l)).*1 = SKILL_LEVELS
  ∧ (sum_list (snd <$> skillLevelData (Some l)) ≤ length l)%nat
  ∧ (sum_list (snd <$> skillLevelData (Some l)) = length l
     ↔ Forall (λ skill, s_level skill ∈ SKILL_LEVELS) l).
Proof.
  split; [done |]. rewrite length_filter_levels.
  split; [apply length_filter |].
  split.
  - intros Hlen. induction l as [|skill l IH]; [done |].
    rewrite filter_cons in Hlen.
    pose proof (length_filter (λ skill, s_level skill ∈ SKILL_LEVELS) l).
    case_decide; simpl in Hlen; [|lia].
    constructor; [done | apply IH; lia].
  - intros Hall. induction Hall as [|skill l Hskill Hall IH]; [done |].
    rewrite filter_cons, decide_True by done. simpl. by rewrite IH.
Qed.

(** ** The accounts created at startup *)

Lemma getUserByEmail_fresh email w :
  (email ∉ u_email <$> users w) → getUserByEmail email w = (Ok None, w).
Proof.
  intros Hfresh. unfold getUserByEmail. f_equal. f_equal.
  apply head_filter_None, Forall_forall. intros u Hu Hmail.
  apply Hfresh, list_elem_of_fmap. eauto.
Qed.

Lemma getUserByEmail_used email w :
  email ∈ u_email <$> users w →
  ∃ u, getUserByEmail email w = (Ok (Some u), w).
Proof.
  intros (u & Hu & Hin)%list_elem_of_fmap.
  destruct (head_filter_is_Some (λ u, u_email u = email) (users w) u Hin)
    as [found Hfound]; [done |].
  exists found. unfold getUserByEmail. by rewrite Hfound.
Qed.

Lemma initializeAdminUser_cases hashedPassword w :
  initializeAdminUser hashedPassword w
  = (Ok tt,
     if decide ("admin@example.com"%string ∈ u_email <$> users w) then w
     else with_user
            (mkUser (seq_users w) "admin@example.com" hashedPassword
                    (Some "Admin"%string) (Some "User"%string) None None
                    (Some "admin"%string) None) w).
Proof.
  unfold initializeAdminUser, try_catch. case_decide as Hin.
  - destruct (getUserByEmail_used _ _ Hin) as [u Hu].
    by rewrite (bind_run _ _ _ _ _ Hu).
  - rewrite (bind_run _ _ _ _ _ (getUserByEmail_fresh _ _ Hin)).
    unfold bind, createUser. simpl. by rewrite bool_decide_eq_false_2.
Qed.

(** X24. [initializeAdminUser] never throws; afterwards some user has the
    admin's email, the users from before are still there, nothing is written
    when the email was taken already, and running it once more changes
    nothing. *)
Theorem admin_account_is_created_once hashedPassword w :
  let w' := (initializeAdminUser hashedPassword w).2 in
  (initializeAdminUser hashedPassword w).1 = Ok tt
  ∧ "admin@example.com"%string ∈ u_email <$> users w'
  ∧ users w `prefix_of` users w'
  ∧ ("admin@example.com"%string ∈ u_email <$> users w → w' = w)
  ∧ initializeAdminUser hashedPassword w' = (Ok tt, w').
Proof.
  assert ("admin@example.com"%string
          ∈ u_email <$> users (initializeAdminUser hashedPassword w).2) as Hin.
  { rewrite initializeAdminUser_cases. cbn [snd]. case_decide as Hin; [done |].
    simpl. rewrite fmap_app. apply elem_of_app. right. by left. }
  cbn zeta. split; [by rewrite initializeAdminUser_cases |].
  split; [exact Hin |]. split; [|split].
  - rewrite initializeAdminUser_cases. cbn [snd]. case_decide; [done |].
    by apply prefix_app_r.
  - intros Hused. rewrite initializeAdminUser_cases. cbn [snd].
    by rewrite decide_True.
  - rewrite (initializeAdminUser_cases hashedPassword
               (initializeAdminUser hashedPassword w).2).
    by rewrite decide_True.
Qed.

Lemma initializeDemoUser_used hashedPassword w :
  "demo@example.com"%string ∈ u_email <$> users w →
  initializeDemoUser hashedPassword w = (Ok tt, w).
Proof.
  intros Hin. unfold initializeDemoUser, try_catch.
  destruct (getUserByEmail_used _ _ Hin) as [u Hu].
  by rewrite (bind_run _ _ _ _ _ Hu).
Qed.

Lemma createUser_run insertUser password w :
  iu_password insertUser = Some password →
  (iu_email insertUser ∉ u_email <$> users w) →
  let row :=
    mkUser (seq_users w) (iu_email insertUser) password
           (default None (iu_firstName insertUser))
           (default None (iu_lastName insertUser))
           (default None (iu_projectName insertUser))
           (default None (iu_clientName insertUser))
           (default None (iu_role insertUser))
           (default None (iu_location insertUser)) in
  createUser insertUser w = (Ok row, with_user row w).
Proof.
  intros Hp Hfresh. unfold createUser. rewrite Hp.
  by rewrite bool_decide_eq_false_2.
Qed.

Lemma now_run w : now w = (Ok (clock w (reads w)), tick w).
Proof. done. Qed.

Lemma createSkill_world insertSkill w :
  createSkill insertSkill w
  = (Ok (mkSkill (seq_skills w) (is_userId insertSkill) (is_name insertSkill)
                 (is_level insertSkill) (clock w (reads w))
                 (default None (is_certificationUrl insertSkill))),
     with_created_skill insertSkill w).
Proof. done. Qed.

Lemma initializeDemoUser_run hashedPassword w :
  ("demo@example.com"%string ∉ u_email <$> users w) →
  let demoUser :=
    mkUser (seq_users w) "demo@example.com" hashedPassword
           (Some "Demo"%string) (Some "User"%string)
           (Some "Cloud Migration"%string) (Some "Acme Corp"%string)
           (Some "Software Engineer"%string) (Some "New York, NY"%string) in
  let w1 := tick (with_user demoUser w) in
  let w2 :=
    tick (with_created_skill
            (mkInsertSkill (seq_users w) "JavaScript" "Expert" (Some None))
            w1) in
  let w3 :=
    tick (with_created_skill
            (mkInsertSkill (seq_users w) "TypeScript" "Intermediate"
               (Some (Some
                  "https://credentials.example.com/typescript/123"%string)))
            w2) in
  initializeDemoUser hashedPassword w
  = (Ok tt,
     with_created_skill
       (mkInsertSkill (seq_users w) "React" "Beginner" (Some None)) w3).
Proof.
  intros Hfresh. cbn zeta. unfold initializeDemoUser, try_catch.
  rewrite (bind_run _ _ _ _ _ (getUserByEmail_fresh _ _ Hfresh)).
  erewrite bind_run; [|by apply createUser_run].
  cbn [default iu_email iu_firstName iu_lastName iu_projectName iu_clientName
       iu_role iu_location u_id].
  erewrite bind_run; [|apply now_run].
  erewrite bind_run; [|apply createSkill_world].
  erewrite bind_run; [|apply now_run].
  erewrite bind_run; [|apply createSkill_world].
  erewrite bind_run; [|apply now_run].
  erewrite bind_run; [|apply createSkill_world].
  reflexivity.
Qed.

Lemma initializeDemoUser_fresh hashedPassword w :
  ("demo@example.com"%string ∉ u_email <$> users w) →
  let demoUser :=
    mkUser (seq_users w) "demo@example.com" hashedPassword
           (Some "Demo"%string) (Some "User"%string)
           (Some "Cloud Migration"%string) (Some "Acme Corp"%string)
           (Some "Software Engineer"%string) (Some "New York, NY"%string) in
  let sample i name level url :=
    mkSkill (seq_skills w + i) (seq_users w) name level
            (clock w (2 * Z.to_nat i + 1 + reads w)%nat) url in
  let s1 := sample 0 "JavaScript"%string "Expert"%string None in
  let s2 := sample 1 "TypeScript"%string "Intermediate"%string
                   (Some "https://credentials.example.com/typescript/123"%string) in
  let s3 := sample 2 "React"%string "Beginner"%string None in
  let row i s :=
    mkSkillHistory (seq_skillHistory w + i) (s_id s) (s_userId s) (s_name s)
                   (s_level s) (s_updatedAt s) (s_certificationUrl s) in
  let w' := (initializeDemoUser hashedPassword w).2 in
  users w' = users w ++ [demoUser]
  ∧ skills w' = skills w ++ [s1; s2; s3]
  ∧ skillHistory w' = skillHistory w ++ [row 0 s1; row 1 s2; row 2 s3]
  ∧ profileHistory w' = profileHistory w
  ∧ seq_users w' = seq_users w + 1
  ∧ seq_skills w' = seq_skills w + 3
  ∧ seq_skillHistory w' = seq_skillHistory w + 3
  ∧ seq_profileHistory w' = seq_profileHistory w.
Proof.
  intros Hfresh. cbn zeta. rewrite (initializeDemoUser_run _ _ Hfresh).
  cbn [snd]. unfold with_created_skill.
  cbn [users skills skillHistory profileHistory seq_users seq_skills
       seq_skillHistory seq_profileHistory clock reads with_user with_skill
       with_skillHistory tick snd s_id s_userId s_name s_level s_updatedAt
       s_certificationUrl is_userId is_name is_level is_certificationUrl
       default].
  rewrite <- !app_assoc, !Z.add_0_r. cbn [app].
  replace (seq_skills w + 1 + 1) with (seq_skills w + 2) by lia.
  replace (seq_skillHistory w + 1 + 1) with (seq_skillHistory w + 2) by lia.
  change (2 * Z.to_nat 0 + 1 + reads w)%nat with (S (reads w)).
  change (2 * Z.to_nat 1 + 1 + reads w)%nat with (S (S (S (reads w)))).
  change (2 * Z.to_nat 2 + 1 + reads w)%nat
    with (S (S (S (S (S (reads w)))))).
  repeat split; try reflexivity; lia.
Qed.

(** X25. When nobody has the demo email, [initializeDemoUser] appends the
    demo user and three skills of theirs with consecutive ids, and for each
    skill one skill history row that records it with the skill's own
    time. *)
Theorem demo_account_comes_with_three_skills hashedPassword w :
  ("demo@example.com"%string ∉ u_email <$> users w) →
  let w' := (initializeDemoUser hashedPassword w).2 in
  ∃ demoUser s1 s2 s3 h1 h2 h3,
    users w' = users w ++ [demoUser]
    ∧ u_id demoUser = seq_users w
    ∧ u_email demoUser = "demo@example.com"%string
    ∧ u_password demoUser = hashedPassword
    ∧ skills w' = skills w ++ [s1; s2; s3]
    ∧ s_id <$> [s1; s2; s3]
      = [seq_skills w; seq_skills w + 1; seq_skills w + 2]
    ∧ s_name <$> [s1; s2; s3] = ["JavaScript"; "TypeScript"; "React"]%string
    ∧ s_level <$> [s1; s2; s3] = ["Expert"; "Intermediate"; "Beginner"]%string
    ∧ Forall (λ s, s_userId s = u_id demoUser) [s1; s2; s3]
    ∧ skillHistory w' = skillHistory w ++ [h1; h2; h3]
    ∧ Forall2 records [s1; s2; s3] [h1; h2; h3]
    ∧ profileHistory w' = profileHistory w.
Proof.
  intros Hfresh.
  destruct (initializeDemoUser_fresh hashedPassword w Hfresh)
    as (Hu & Hs & Hh & Hp & _).
  cbn zeta. do 7 eexists.
  split; [exact Hu |]. do 3 (split; [reflexivity |]).
  split; [exact Hs |].
  split; [simpl; by rewrite Z.add_0_r |].
  do 2 (split; [reflexivity |]).
  split; [by repeat constructor |].
  split; [exact Hh |].
  split; [by repeat constructor | exact Hp].
Qed.

Lemma demo_account_comes_with_three_skills_witness :
  ("demo@example.com"%string ∉ u_email <$> users (empty_world ticking))
  ∧ ∃ demoUser s1 s2 s3 h1 h2 h3,
      users (initializeDemoUser "$2b$10$hash" (empty_world ticking)).2
      = users (empty_world ticking) ++ [demoUser]
      ∧ u_id demoUser = seq_users (empty_world ticking)
      ∧ u_email demoUser = "demo@example.com"%string
      ∧ u_password demoUser = "$2b$10$hash"%string
      ∧ skills (initializeDemoUser "$2b$10$hash" (empty_world ticking)).2
        = skills (empty_world ticking) ++ [s1; s2; s3]
      ∧ s_id <$> [s1; s2; s3]
        = [seq_skills (empty_world ticking);
           seq_skills (empty_world ticking) + 1;
           seq_skills (empty_world ticking) + 2]
      ∧ s_name <$> [s1; s2; s3] = ["JavaScript"; "TypeScript"; "React"]%string
      ∧ s_level <$> [s1; s2; s3]
        = ["Expert"; "Intermediate"; "Beginner"]%string
      ∧ Forall (λ s, s_userId s = u_id demoUser) [s1; s2; s3]
      ∧ skillHistory (initializeDemoUser "$2b$10$hash" (empty_world ticking)).2
        = skillHistory (empty_world ticking) ++ [h1; h2; h3]
      ∧ Forall2 records [s1; s2; s3] [h1; h2; h3]
      ∧ profileHistory
          (initializeDemoUser "$2b$10$hash" (empty_world ticking)).2
        = profileHistory (empty_world ticking).
Proof.
  assert ("demo@example.com"%string ∉ u_email <$> users (empty_world ticking))
    as Hfresh by apply not_elem_of_nil.
  split; [exact Hfresh |].
  apply (demo_account_comes_with_three_skills "$2b$10$hash"
           (empty_world ticking) Hfresh).
Defined.

Lemma unique_emails_with_user row w :
  (u_email row ∉ u_email <$> users w) →
  unique_emails w → unique_emails (with_user row w).
Proof.
  intros Hfresh Hnd. unfold unique_emails. simpl. rewrite fmap_app.
  apply NoDup_app. split; [done |]. split; [|apply NoDup_singleton].
  intros x Hx [->|[]%elem_of_nil]%elem_of_cons. done.
Qed.

Lemma references_with_user row w :
  references w → references (with_user row w).
Proof.
  intros Href.
  apply (references_extended w _ [] [] []); try done.
  - intros i. rewrite !elem_of_user_ids. intros (u & Hu & Hi).
    exists u. split; [|done]. simpl. apply elem_of_app. by left.
  - by rewrite app_nil_r.
  - by rewrite app_nil_r.
  - by rewrite app_nil_r.
Qed.

Lemma consistent_with_user row w :
  u_id row = seq_users w → (u_email row ∉ u_email <$> users w) →
  consistent w → consistent (with_user row w).
Proof.
  intros Hid Hfresh (Hs & He & Hr). split; [|split].
  - by apply serial_ids_with_user.
  - by apply unique_emails_with_user.
  - by apply references_with_user.
Qed.

Lemma consistent_created_skill insertSkill w :
  is_userId insertSkill ∈ user_ids w →
  consistent w → consistent (with_created_skill insertSkill w).
Proof.
  intros Howner (Hs & He & Hr). unfold with_created_skill.
  split; [|split].
  - apply serial_ids_with_skillHistory; [done |].
    apply serial_ids_with_skill; [done |]. by apply serial_ids_tick.
  - exact He.
  - eapply (references_extended w _
              [(seq_skills w, is_userId insertSkill)] [_] []); try done.
    + unfold skill_keys. simpl. by rewrite fmap_app.
    + by repeat constructor.
    + repeat constructor. simpl. unfold skill_keys. simpl.
      rewrite fmap_app. apply elem_of_app. right. by left.
    + simpl. by rewrite app_nil_r.
Qed.

(** X26. Each of the two initializers keeps the store consistent: serial
    ids, unique emails and valid references. *)
Theorem startup_keeps_the_store_consistent hashedPassword w :
  consistent w →
  consistent (initializeAdminUser hashedPassword w).2
  ∧ consistent (initializeDemoUser hashedPassword w).2.
Proof.
  intros Hc. split.
  - rewrite initializeAdminUser_cases. cbn [snd]. case_decide as Hin; [done |].
    by apply consistent_with_user.
  - destruct (decide ("demo@example.com"%string ∈ u_email <$> users w))
      as [Hin|Hin]; [by rewrite initializeDemoUser_used |].
    rewrite (initializeDemoUser_run _ _ Hin). cbn [snd].
    set (demoUser := mkUser _ _ _ _ _ _ _ _ _).
    pose proof (consistent_with_user demoUser w eq_refl Hin Hc) as H0.
    assert (∀ w0, seq_users w ∈ user_ids w0 →
                  seq_users w ∈ user_ids (tick w0)) as Htick by done.
    assert (∀ insertSkill w0, seq_users w ∈ user_ids w0 →
              seq_users w ∈ user_ids (with_created_skill insertSkill w0))
      as Hkeep by done.
    assert (seq_users w ∈ user_ids (with_user demoUser w)) as Hin0.
    { unfold user_ids. simpl. rewrite fmap_app. apply elem_of_app.
      right. by left. }
    assert (∀ w0, consistent w0 → consistent (tick w0)) as Hctick by done.
    apply consistent_created_skill; [done |].
    apply Hctick, consistent_created_skill; [by apply Htick, Hkeep, Htick |].
    apply Hctick, consistent_created_skill; [by apply Htick |].
    by apply Hctick.
Qed.

Lemma startup_keeps_the_store_consistent_witness :
  consistent (demo_world ticking)
  ∧ consistent (initializeAdminUser "$2b$10$hash" (demo_world ticking)).2
  ∧ consistent (initializeDemoUser "$2b$10$hash" (demo_world ticking)).2.
Proof.
  assert (consistent (demo_world ticking)) as Hconsistent.
  { split; [|split].
    - unfold serial_ids, ids_below. simpl.
      repeat split; try apply NoDup_nil_2; try apply Forall_nil_2.
      + apply NoDup_singleton.
      + repeat constructor.
    - apply NoDup_singleton.
    - repeat split; apply Forall_nil_2. }
  split; [exact Hconsistent |].
  apply (startup_keeps_the_store_consistent "$2b$10$hash"
           (demo_world ticking) Hconsistent).
Defined.

(** ** Logging in *)

Lemma post_login_run comparePasswords email password w :
  post_login comparePasswords (ValidLogin email password) w
  = (match head (filter (λ u, u_email u = email) (users w)) with
     | Some u =>
         if comparePasswords password (u_password u)
         then mkOutcome (mkReply 200 (BUser u)) [] (Some u)
         else mkOutcome (mkReply 401 (BMessage "Invalid email or password"))
                        [] None
     | None => mkOutcome (mkReply 401 (BMessage "Invalid email or password"))
                         [] None
     end, w).
Proof.
  unfold post_login, outcome, verify, bind, getUserByEmail, ret.
  destruct (head (filter (λ u, u_email u = email) (users w))) as [u|]; [|done].
  by destruct (comparePasswords password (u_password u)).
Qed.

(** X27. [POST /api/login] never changes the store and sends no mail; it
    logs a user in only with 200, and then the user has the email given and
    a stored password that matches the one given; a wrong password and an
    unknown email get the same 401 answer. *)
Theorem login_only_with_the_password comparePasswords body w :
  let o := (post_login comparePasswords body w).1 in
  (post_login comparePasswords body w).2 = w
  ∧ o_mails o = []
  ∧ (∀ u, o_login o = Some u →
          o_reply o = mkReply 200 (BUser u)
          ∧ u ∈ users w
          ∧ ∃ email password,
              body = ValidLogin email password ∧ u_email u = email
              ∧ comparePasswords password (u_password u) = true)
  ∧ (o_login o = None →
     (∃ message, body = LoginZodError message
                 ∧ o_reply o = mkReply 400 (BMessage message))
     ∨ o_reply o = mkReply 401 (BMessage "Invalid email or password")).
Proof.
  destruct body as [message|email password].
  - cbn zeta. split; [done |]. split; [done |]. split; [done |].
    intros _. left. by exists message.
  - cbn zeta. rewrite post_login_run. cbn [fst snd].
    split; [done |].
    destruct (head (filter (λ u, u_email u = email) (users w))) as [u|] eqn:Hu.
    + apply head_filter_elem in Hu as [Hin Hmail].
      destruct (comparePasswords password (u_password u)) eqn:Hpw.
      * split; [done |]. split; [|done].
        intros u' [= <-]. split; [done |]. split; [done |].
        by exists email, password.
      * split; [done |]. split; [done |]. intros _. by right.
    + split; [done |]. split; [done |]. intros _. by right.
Qed.

Lemma login_only_with_the_password_witness :
  o_login (post_login prefixed (ValidLogin "demo@example.com" "Ab9Zaz0Jj8")
             reset_world).1
  = Some (set_password "$2b$10$Ab9Zaz0Jj8" demo_user)
  ∧ o_reply (post_login prefixed (ValidLogin "demo@example.com" "Ab9Zaz0Jj8")
               reset_world).1
    = mkReply 200 (BUser (set_password "$2b$10$Ab9Zaz0Jj8" demo_user))
  ∧ set_password "$2b$10$Ab9Zaz0Jj8" demo_user ∈ users reset_world
  ∧ ∃ email password,
      ValidLogin "demo@example.com" "Ab9Zaz0Jj8" = ValidLogin email password
      ∧ u_email (set_password "$2b$10$Ab9Zaz0Jj8" demo_user) = email
      ∧ prefixed password
          (u_password (set_password "$2b$10$Ab9Zaz0Jj8" demo_user))
        = true.
Proof.
  split; [reflexivity |].
  apply (proj1 (proj2 (proj2 (login_only_with_the_password prefixed
                                (ValidLogin "demo@example.com" "Ab9Zaz0Jj8")
                                reset_world)))).
  reflexivity.
Defined.

Lemma js_length_ascii (s : string) :
  Forall (λ c, (nat_of_ascii c < 128)%nat) (list_ascii_of_string s) →
  js_length s = String.length s.
Proof.
  unfold js_length. induction s as [|c s IH]; [done |].
  cbn [list_ascii_of_string String.length]. intros [Hc Hs]%Forall_cons.
  specialize (IH Hs). cbn zeta in *.
  rewrite fmap_cons, !filter_cons.
  rewrite decide_True by (left; exact Hc).
  rewrite decide_False by lia. cbn [length]. lia.
Qed.

Lemma chars_ascii c :
  c ∈ list_ascii_of_string chars → (nat_of_ascii c < 128)%nat.
Proof.
  intros Hc.
  assert (forallb (fun c => nat_of_ascii c <? 128)%nat
                  (list_ascii_of_string chars) = true) as Hall
    by (vm_compute; reflexivity).
  rewrite forallb_forall in Hall. apply Nat.ltb_lt, Hall.
  by apply list_elem_of_In.
Qed.

Lemma js_length_temporary_password rolls :
  Forall (λ roll, (roll < String.length chars)%nat) rolls →
  js_length (generateTemporaryPassword rolls) = length rolls.
Proof.
  intros Hrolls.
  destruct (temporary_password_from rolls EmptyString Hrolls) as [Hlen Hin].
  rewrite js_length_ascii; [exact Hlen |].
  apply Forall_forall. intros c Hc. apply chars_ascii.
  destruct (Hin c Hc) as [[]%elem_of_nil|]; done.
Qed.

Lemma parse_login_body is_email zod_message email password :
  parse_login is_email zod_message (login_body email password)
  = if is_email email && (6 <=? js_length password)%nat
    then ValidLogin email password
    else LoginZodError (zod_message (login_body email password)).
Proof.
  unfold parse_login, login_body, prop.
  rewrite lookup_insert_eq.
  rewrite lookup_insert_ne, lookup_singleton_eq by done. done.
Qed.

(** X28. When a user asks for a new password under an address the login
    schema takes for an email, and [bcrypt] matches the temporary password
    with the hash that is stored, the password is mailed, and the login with
    the address and the mailed password answers 200 with the user. A login
    with a password that [bcrypt] does not match with the new hash, the old
    password included, logs nobody in: it is answered 401 when the password
    has six characters or more, and 400 by the schema when it has fewer. *)
Theorem mailed_password_logs_in comparePasswords is_email zod_message
    body email rolls hashedPassword w u :
  prop body "email" = JStr email →
  truthy (prop body "email") = true →
  getUserByEmail email w = (Ok (Some u), w) →
  is_email email = true →
  Forall (λ roll, (roll < String.length chars)%nat) rolls →
  length rolls = 10%nat →
  comparePasswords (generateTemporaryPassword rolls) hashedPassword = true →
  let reset := post_forgot_password body rolls hashedPassword w in
  let login password :=
    post_login comparePasswords
      (parse_login is_email zod_message (login_body email password))
      reset.2 in
  o_mails reset.1 = [mkMail (JStr email) (generateTemporaryPassword rolls)]
  ∧ login (generateTemporaryPassword rolls)
    = (mkOutcome (mkReply 200 (BUser (set_password hashedPassword u))) []
                 (Some (set_password hashedPassword u)), reset.2)
  ∧ ∀ password,
      comparePasswords password hashedPassword = false →
      login password
      = (mkOutcome
           (if (6 <=? js_length password)%nat
            then mkReply 401 (BMessage "Invalid email or password")
            else mkReply 400
                   (BMessage (zod_message (login_body email password))))
           [] None, reset.2).
Proof.
  intros Hbody Htruthy Hfound Hformat Hrolls Hten Hmatch. cbn zeta.
  unfold getUserByEmail in Hfound. injection Hfound as Hu.
  assert (as_text (prop body "email") = email) as Htext by by rewrite Hbody.
  destruct (post_forgot_password_cases body rolls hashedPassword w)
    as [[Hsame Hmails]|(u' & _ & Hu' & Hrun)].
  - exfalso. revert Hmails. unfold post_forgot_password, outcome.
    rewrite Htruthy. cbn [negb]. rewrite Htext.
    rewrite (bind_run (getUserByEmail _) _ w w (Some u))
      by (unfold getUserByEmail; by rewrite Hu).
    destruct (updateUser_password w (u_id u) hashedPassword)
      as (cu & Hcu & Hrun).
    { apply head_filter_elem in Hu as [Hin _].
      by apply (head_filter_is_Some _ _ u). }
    by rewrite (bind_run _ _ _ _ _ Hrun).
  - rewrite Htext, Hu in Hu'. injection Hu' as <-. rewrite Hrun.
    cbn [fst snd]. rewrite Hbody.
    split; [done |].
    assert (head (filter (λ x, u_email x = email)
                    (users (with_users_updated (u_id u)
                              (set_password hashedPassword) w)))
            = Some (set_password hashedPassword u)) as Hnew.
    { unfold with_users_updated. cbn [users].
      rewrite (filter_fmap_commute (λ x, u_email x = email)).
      2:{ intros x. by case_decide. }
      destruct (filter (λ x, u_email x = email) (users w)) as [|x rest];
        [done |].
      simpl in Hu. injection Hu as ->. simpl. by rewrite decide_True. }
    split.
    + rewrite parse_login_body, Hformat.
      rewrite (js_length_temporary_password rolls Hrolls), Hten.
      cbn [andb Nat.leb].
      rewrite post_login_run, Hnew. cbn [u_password set_password].
      by rewrite Hmatch.
    + intros password Hwrong. rewrite parse_login_body, Hformat.
      cbn [andb]. destruct (6 <=? js_length password)%nat; [|done].
      rewrite post_login_run, Hnew. cbn [u_password set_password].
      by rewrite Hwrong.
Qed.

Lemma mailed_password_logs_in_witness :
  (prop forgot_demo "email" = JStr "demo@example.com"
   ∧ truthy (prop forgot_demo "email") = true
   ∧ getUserByEmail "demo@example.com" (demo_world ticking)
     = (Ok (Some demo_user), demo_world ticking)
   ∧ has_at "demo@example.com" = true
   ∧ Forall (λ roll, (roll < String.length chars)%nat) ten_rolls
   ∧ length ten_rolls = 10%nat
   ∧ prefixed (generateTemporaryPassword ten_rolls) "$2b$10$Ab9Zaz0Jj8" = true)
  ∧ o_mails (post_forgot_password forgot_demo ten_rolls "$2b$10$Ab9Zaz0Jj8"
               (demo_world ticking)).1
    = [mkMail (JStr "demo@example.com") (generateTemporaryPassword ten_rolls)]
  ∧ post_login prefixed
      (parse_login has_at refused
         (login_body "demo@example.com" (generateTemporaryPassword ten_rolls)))
      reset_world
    = (mkOutcome
         (mkReply 200 (BUser (set_password "$2b$10$Ab9Zaz0Jj8" demo_user))) []
         (Some (set_password "$2b$10$Ab9Zaz0Jj8" demo_user)), reset_world)
  ∧ ∀ password,
      prefixed password "$2b$10$Ab9Zaz0Jj8" = false →
      post_login prefixed
        (parse_login has_at refused (login_body "demo@example.com" password))
        reset_world
      = (mkOutcome
           (if (6 <=? js_length password)%nat
            then mkReply 401 (BMessage "Invalid email or password")
            else mkReply 400
                   (BMessage
                      (refused (login_body "demo@example.com" password))))
           [] None, reset_world).
Proof.
  assert (Forall (λ roll, (roll < String.length chars)%nat) ten_rolls)
    as Hrolls by (repeat constructor; simpl; lia).
  split; [repeat split; try reflexivity; exact Hrolls |].
  apply (mailed_password_logs_in prefixed has_at refused forgot_demo
           "demo@example.com" ten_rolls "$2b$10$Ab9Zaz0Jj8"
           (demo_world ticking) demo_user);
    try reflexivity; exact Hrolls.
Defined.

(** The temporary password of the witness, and two logins after the reset:
    with the old password, and with one the schema refuses. *)
Example temporary_password_of_ten :
  generateTemporaryPassword ten_rolls = "Ab9Zaz0Jj8"%string.
Proof. reflexivity. Qed.

Example login_with_the_old_password :
  (post_login prefixed
     (parse_login has_at refused (login_body "demo@example.com" "secret"))
     reset_world).1
  = mkOutcome (mkReply 401 (BMessage "Invalid email or password")) [] None.
Proof. vm_compute. reflexivity. Qed.

Example login_with_a_short_password :
  (post_login prefixed
     (parse_login has_at refused (login_body "demo@example.com" "Ab9"))
     reset_world).1
  = mkOutcome (mkReply 400 (BMessage "Validation error")) [] None.
Proof. vm_compute. reflexivity. Qed.
